(** * llmcheckpoint: the versioning engine of the editor extension

  A shallow embedding of [src/extension.ts] (the save handler, the
  commit-annotation pass [handleGitCommit] and the repository watcher of
  [setupRepositoryWatcher]) together with the Version Store it drives.

  Conventions.
  - A JavaScript string is held as the bytes of its UTF-8 encoding, in a
    [string].  [===], [split('\n')], [startsWith] with an ASCII prefix and
    template concatenation act on those bytes as they act on the text;
    [trim] reads the code points off the bytes, to remove all the white
    space that [String.prototype.trim] removes.
  - Row ids and version numbers are [nat].
  - A call that can throw returns a [Result]; the store is threaded
    explicitly, and a throw keeps the store as it was at the throw (there
    is no rollback in the code). *)

From Stdlib Require Import Ascii.
From stdpp Require Import gmap strings list fin_maps.

(** ** Strings *)

Definition nl : ascii := "010"%char.
Definition NL : string := String nl EmptyString.

(** [s.split(sep)] for a one-character separator. *)
Fixpoint split (sep : ascii) (s : string) : list string :=
match s with
| EmptyString => [EmptyString]
| String c s' =>
    if Ascii.eqb c sep then EmptyString :: split sep s'
    else match split sep s' with
         | [] => [String c EmptyString]
         | piece :: pieces => String c piece :: pieces
         end
end.

(** [s.startsWith(p)]. *)
Definition startsWith (p s : string) : bool := String.prefix p s.

(** White space removed by [String.prototype.trim] (lines 25 and 40): the
    code points of WhiteSpace and LineTerminator in ECMAScript, which are
    TAB, VT, FF, U+FEFF and the space separators (general category Zs),
    and LF, CR, U+2028 and U+2029. *)
Definition is_white_space (codePoint : N) : bool :=
  existsb (N.eqb codePoint)
    [ 0x0009; 0x000A; 0x000B; 0x000C; 0x000D; 0x0020; 0x00A0; 0x1680;
      0x2000; 0x2001; 0x2002; 0x2003; 0x2004; 0x2005; 0x2006; 0x2007;
      0x2008; 0x2009; 0x200A; 0x2028; 0x2029; 0x202F; 0x205F; 0x3000;
      0xFEFF ]%N.

(** A continuation byte of UTF-8. *)
Definition continuation (n : N) : bool := (0x80 <=? n)%N && (n <? 0xC0)%N.

(** The code point at the head of [s] and what follows it, for a code
    point of one, two or three bytes (up to U+FFFF; no code point beyond is
    white space). *)
Definition code_point (s : string) : option (N * string) :=
  match s with
  | EmptyString => None
  | String b0 s0 =>
      let n0 := N_of_ascii b0 in
      if (n0 <? 0x80)%N then Some (n0, s0)
      else
        match s0 with
        | EmptyString => None
        | String b1 s1 =>
            let n1 := N_of_ascii b1 in
            if (0xC2 <=? n0)%N && (n0 <? 0xE0)%N then
              if continuation n1
              then Some (((n0 - 0xC0) * 0x40 + (n1 - 0x80))%N, s1)
              else None
            else
              match s1 with
              | EmptyString => None
              | String b2 s2 =>
                  let n2 := N_of_ascii b2 in
                  let codePoint :=
                    ((n0 - 0xE0) * 0x1000 + (n1 - 0x80) * 0x40 + (n2 - 0x80))%N in
                  if (0xE0 <=? n0)%N && (n0 <? 0xF0)%N
                     && continuation n1 && continuation n2
                     && (0x800 <=? codePoint)%N
                  then Some (codePoint, s2)
                  else None
              end
        end
  end.

(** What follows the white-space code point at the head of [s], if there
    is one. *)
Definition white (s : string) : option string :=
  match code_point s with
  | Some (codePoint, rest) => if is_white_space codePoint then Some rest else None
  | None => None
  end.

(** [trim_start_from n s]: [s] without its leading white space, at most
    [n] code points of it. *)
Fixpoint trim_start_from (n : nat) (s : string) : string :=
  match n with
  | 0 => s
  | S n' =>
      match white s with
      | Some rest => trim_start_from n' rest
      | None => s
      end
  end.

(** [s.trimStart()]: a string has no more code points than bytes. *)
Definition trim_start (s : string) : string := trim_start_from (String.length s) s.

(** [s] is white space only. *)
Definition blank (s : string) : bool :=
  match trim_start s with
  | EmptyString => true
  | String _ _ => false
  end.

(** [s.trimEnd()]: [s] up to its longest suffix of white space. *)
Fixpoint trim_end (s : string) : string :=
  match s with
  | EmptyString => EmptyString
  | String c s' => if blank s then EmptyString else String c (trim_end s')
  end.

(** [s.trim()]. *)
Definition trim (s : string) : string := trim_end (trim_start s).

(** JavaScript truthiness of a string that may be [undefined]. *)
Definition truthy (s : option string) : bool :=
match s with
| None => false
| Some EmptyString => false
| Some _ => true
end.

(** ** Errors and results *)

Inductive Error : Type :=
| NotFoundError
| ConflictError
| HostError (what : string).

Inductive Result (A : Type) : Type :=
| Ok (a : A)
| Err (e : Error).
Arguments Ok {A} a.
Arguments Err {A} e.

(** ** Rows (the interfaces [FileRecord] and [VersionRecord] of [./db/schema]) *)

Module FileRecord.
Record t : Type := mk {
  id : nat;
  file_path : string;
  current_version_id : option nat
}.
End FileRecord.

Module VersionRecord.
Record t : Type := mk {
  id : nat;
  file_id : nat;
  content : string;
  timestamp : string;
  version_number : nat;
  label : option string
}.
End VersionRecord.

(** ** The Version Store *)

(** Modelled from the spec: the class [FileVersionDB] of [./db], which
    [extension.ts] imports; only the schema it works on is available.  The
    two tables are lists in insertion order; the [*_seq] fields are the
    AUTOINCREMENT high-water marks of the schema, so that an id is never
    handed out twice. *)
Record FileVersionDB : Type := mkDB {
  files : list FileRecord.t;
  versions : list VersionRecord.t;
  files_seq : nat;
  versions_seq : nat
}.

Definition emptyDB : FileVersionDB := mkDB [] [] 0 0.

Module Store.

Definition set_current (cur : option nat) (f : FileRecord.t) : FileRecord.t :=
  FileRecord.mk (FileRecord.id f) (FileRecord.file_path f) cur.

(** Modelled from the spec: [getFile(path) -> File | not found]. *)
Definition getFile (db : FileVersionDB) (path : string) : option FileRecord.t :=
  List.find (fun f => bool_decide (FileRecord.file_path f = path)) (files db).

(** Modelled from the spec: [getFileById(id) -> File | not found]. *)
Definition getFileById (db : FileVersionDB) (fileId : nat) : option FileRecord.t :=
  List.find (fun f => bool_decide (FileRecord.id f = fileId)) (files db).

(** Modelled from the spec: [getAllFiles() -> ordered sequence of File]. *)
Definition getAllFiles (db : FileVersionDB) : list FileRecord.t := files db.

(** Modelled from the spec: [createFile(path) -> File]; fails with
    [ConflictError] if the path already exists, otherwise inserts a File
    with a null [current_version_id]. *)
Definition createFile (path : string) (db : FileVersionDB)
  : Result FileRecord.t * FileVersionDB :=
  match getFile db path with
  | Some _ => (Err ConflictError, db)
  | None =>
      let row := FileRecord.mk (S (files_seq db)) path None in
      (Ok row,
       mkDB (files db ++ [row]) (versions db) (S (files_seq db)) (versions_seq db))
  end.

(** Newest first: insertion sort by descending [version_number]. *)
Fixpoint insert_desc (v : VersionRecord.t) (l : list VersionRecord.t)
  : list VersionRecord.t :=
  match l with
  | [] => [v]
  | x :: xs =>
      if VersionRecord.version_number x <=? VersionRecord.version_number v
      then v :: x :: xs
      else x :: insert_desc v xs
  end.

Definition sort_desc (l : list VersionRecord.t) : list VersionRecord.t :=
  foldr insert_desc [] l.

Definition rows_of (fileId : nat) (vs : list VersionRecord.t) : list VersionRecord.t :=
  filter (fun v => VersionRecord.file_id v = fileId) vs.

(** Modelled from the spec: [getFileVersions(fileId, limit?)], newest
    first by [version_number] descending; [limit] caps the result. *)
Definition getFileVersions (db : FileVersionDB) (fileId : nat) (limit : option nat)
  : list VersionRecord.t :=
  let all := sort_desc (rows_of fileId (versions db)) in
  match limit with
  | None => all
  | Some n => take n all
  end.

(** [max existing + 1], or [1] if none exist. *)
Definition next_version_number (db : FileVersionDB) (fileId : nat) : nat :=
  match map VersionRecord.version_number (rows_of fileId (versions db)) with
  | [] => 1
  | n :: ns => S (foldr Nat.max n ns)
  end.

(** Modelled from the spec: [createVersion(fileId, content, label?)];
    numbers the row, stamps it with the current time [now], points the
    owning File at it and returns it; [NotFoundError] if the File does
    not exist. *)
Definition createVersion (now : string) (fileId : nat) (content : string)
    (label : option string) (db : FileVersionDB)
  : Result VersionRecord.t * FileVersionDB :=
  match getFileById db fileId with
  | None => (Err NotFoundError, db)
  | Some _ =>
      let row := VersionRecord.mk (S (versions_seq db)) fileId content now
                   (next_version_number db fileId) label in
      (Ok row,
       mkDB (map (fun f => if bool_decide (FileRecord.id f = fileId)
                           then set_current (Some (VersionRecord.id row)) f
                           else f) (files db))
            (versions db ++ [row])
            (files_seq db)
            (S (versions_seq db)))
  end.

Definition without (versionId : nat) (vs : list VersionRecord.t) : list VersionRecord.t :=
  filter (fun v => VersionRecord.id v ≠ versionId) vs.

(** Modelled from the spec: [deleteVersion(versionId)]; removes the row
    and, if the owning File pointed at it, re-points the File at its
    latest remaining Version, or at null.  The spec leaves open whether a
    missing id is a no-op or a [NotFoundError]: [strict] selects the
    second. *)
Definition deleteVersion (strict : bool) (versionId : nat) (db : FileVersionDB)
  : Result unit * FileVersionDB :=
  match List.find (fun v => bool_decide (VersionRecord.id v = versionId)) (versions db) with
  | None => (if strict then Err NotFoundError else Ok tt, db)
  | Some row =>
      let remaining := without versionId (versions db) in
      let latest :=
        match sort_desc (rows_of (VersionRecord.file_id row) remaining) with
        | [] => None
        | v :: _ => Some (VersionRecord.id v)
        end in
      (Ok tt,
       mkDB (map (fun f =>
                    if bool_decide (FileRecord.id f = VersionRecord.file_id row)
                       && bool_decide (FileRecord.current_version_id f = Some versionId)
                    then set_current latest f
                    else f) (files db))
            remaining
            (files_seq db)
            (versions_seq db))
  end.

End Store.

(** ** The extension ([src/extension.ts]) *)

Module StagedInfo.
(** The values of [stagedChangesMap]: [{ files: Set<string>, message: string }]. *)
Record t : Type := mk {
  files : gset string;
  message : string
}.
End StagedInfo.

(** The module-level state of the extension ([fileVersionDB],
    [lastCommitByRepo], [stagedChangesMap]) together with the closure
    variable [isProcessingCommit] of one repository watcher, and the number
    of refresh signals sent to the tree view so far. *)
Record World : Type := mkWorld {
  fileVersionDB : FileVersionDB;
  lastCommitByRepo : gmap string string;
  stagedChangesMap : gmap string StagedInfo.t;
  isProcessingCommit : bool;
  refreshes : nat
}.

Definition initialWorld : World := mkWorld emptyDB ∅ ∅ false 0.

Definition with_db (db : FileVersionDB) (w : World) : World :=
  mkWorld db (lastCommitByRepo w) (stagedChangesMap w) (isProcessingCommit w) (refreshes w).

Definition with_lastCommit (m : gmap string string) (w : World) : World :=
  mkWorld (fileVersionDB w) m (stagedChangesMap w) (isProcessingCommit w) (refreshes w).

Definition with_staged (m : gmap string StagedInfo.t) (w : World) : World :=
  mkWorld (fileVersionDB w) (lastCommitByRepo w) m (isProcessingCommit w) (refreshes w).

Definition with_guard (b : bool) (w : World) : World :=
  mkWorld (fileVersionDB w) (lastCommitByRepo w) (stagedChangesMap w) b (refreshes w).

Definition refresh (w : World) : World :=
  mkWorld (fileVersionDB w) (lastCommitByRepo w) (stagedChangesMap w)
          (isProcessingCommit w) (S (refreshes w)).

(** What one state-change notification finds in [repository]:
    [repository.state.HEAD?.commit], [repository.rootUri.fsPath] and the
    [fsPath]s of [repository.state.indexChanges]; [repository] is typed
    [any], so reading the index may throw. *)
Record Repository : Type := mkRepository {
  HEAD_commit : option string;
  rootUri_fsPath : string;
  indexChanges : Result (list string)
}.

(** The answers of the awaited external calls of one commit round:
    the [stdout] of [git log -1 --pretty=%B] (or its failure), the
    auto-cleanup setting, the outcome of the information message, and the
    clock. *)
Record Env : Type := mkEnv {
  git_log : Result string;
  autoCleanupAfterCommit : Result bool;
  showConditionalInfoMessage : Result unit;
  now : string
}.

(** A save event and the answers of its external calls. *)
Record SaveEvent : Type := mkSaveEvent {
  relativePath : string;
  getText : string
}.

Record SaveEnv : Type := mkSaveEnv {
  getSaveAllChanges : Result bool;
  save_now : string
}.

(** Host and library functions the extension calls: [path.normalize],
    [vscode.workspace.asRelativePath] and [createPatch] of the [diff]
    package; and the choice the store makes for [deleteVersion] on a
    missing id (whether it throws). *)
Class Host : Type := mkHost {
  normalize : string -> string;
  asRelativePath : string -> string;
  createPatch : string -> string -> string -> string;
  strict_delete : bool
}.

(** [getLatestCommitMessage]: the trimmed output, or the empty string when
    the command fails (lines 22-30). *)
Definition getLatestCommitMessage (env : Env) : string :=
  match git_log env with
  | Ok stdout => trim stdout
  | Err _ => EmptyString
  end.

(** The marker of line 68:
    [`/* Git commit: ${commitMessage} */\n${latestVersion.content}`]. *)
Definition marker (commitMessage : string) : string :=
  "/* Git commit: " +:+ commitMessage +:+ " */" +:+ NL.

(** The changed lines of a patch (lines 237-239). *)
Definition changes (patch : string) : list string :=
  List.filter (fun line => negb (startsWith "+++" line) && negb (startsWith "---" line))
    (List.filter (fun line => startsWith "+" line || startsWith "-" line)
       (split nl patch)).

Section Extension.

Context `{Host}.

(** *** [handleGitCommit] *)

(** Lines 74-76: [for (const version of versions) deleteVersion(version.id)]. *)
Fixpoint delete_each (vs : list VersionRecord.t) (db : FileVersionDB)
  : Result unit * FileVersionDB :=
  match vs with
  | [] => (Ok tt, db)
  | version :: rest =>
      match Store.deleteVersion strict_delete (VersionRecord.id version) db with
      | (Ok _, db') => delete_each rest db'
      | (Err e, db') => (Err e, db')
      end
  end.

(** The body of the loop of lines 51-78 for one [file]; the result tells
    whether the file was processed ([processedCount++]). *)
Definition annotate (changedFiles : gset string) (commitMessage : string)
    (autoCleanup : bool) (now : string) (file : FileRecord.t) (db : FileVersionDB)
  : Result bool * FileVersionDB :=
  let normalizedFilePath := normalize (FileRecord.file_path file) in
  if negb (bool_decide (normalizedFilePath ∈ changedFiles)) then (Ok false, db)
  else
    let versions := Store.getFileVersions db (FileRecord.id file) None in
    match versions with
    | [] => (Ok false, db)
    | latestVersion :: _ =>
        let newContent := marker commitMessage +:+ VersionRecord.content latestVersion in
        match Store.createVersion now (FileRecord.id file) newContent None db with
        | (Err e, db1) => (Err e, db1)
        | (Ok _, db1) =>
            if autoCleanup then
              match delete_each versions db1 with
              | (Err e, db2) => (Err e, db2)
              | (Ok _, db2) => (Ok true, db2)
              end
            else (Ok true, db1)
        end
    end.

(** The loop of lines 51-78 over [allFiles]. *)
Fixpoint commit_loop (changedFiles : gset string) (commitMessage : string)
    (autoCleanup : bool) (now : string) (allFiles : list FileRecord.t)
    (processedCount : nat) (db : FileVersionDB) : Result nat * FileVersionDB :=
  match allFiles with
  | [] => (Ok processedCount, db)
  | file :: rest =>
      match annotate changedFiles commitMessage autoCleanup now file db with
      | (Err e, db') => (Err e, db')
      | (Ok processed, db') =>
          commit_loop changedFiles commitMessage autoCleanup now rest
            (if processed then S processedCount else processedCount) db'
      end
  end.

(** Lines 47-89, once the commit message is known to be usable and the
    setting has been read: the pass over all files and the refresh.  The
    boolean tells whether the information message of line 88 is awaited
    next. *)
Definition commit_pass (changedFiles : gset string) (commitMessage : string)
    (autoCleanup : bool) (now : string) (w : World) : World * bool :=
  let allFiles := Store.getAllFiles (fileVersionDB w) in
  match commit_loop changedFiles commitMessage autoCleanup now allFiles 0 (fileVersionDB w) with
  | (Err _, db') => (with_db db' w, false)
  | (Ok processedCount, db') =>
      if 0 <? processedCount then (refresh (with_db db' w), true)
      else (with_db db' w, false)
  end.

(** [handleGitCommit(workspacePath, repository, changedFiles,
    commitMessage?)], run to completion; every error is caught and logged
    (lines 90-92). *)
Definition handleGitCommit (changedFiles : gset string) (commitMessage : option string)
    (env : Env) (w : World) : World :=
  let commitMessage :=
    if truthy commitMessage then commitMessage else Some (getLatestCommitMessage env) in
  match commitMessage with
  | None => w
  | Some message =>
      if negb (truthy (Some message)) || bool_decide (trim message = EmptyString) then w
      else
        match autoCleanupAfterCommit env with
        | Err _ => w
        | Ok autoCleanup => fst (commit_pass changedFiles message autoCleanup (now env) w)
        end
  end.

(** *** The repository watcher *)

(** Lines 439-442: the staged paths, relative to the workspace and
    normalized. *)
Definition stagedFiles (paths : list string) : gset string :=
  list_to_set (map (fun absolutePath => normalize (asRelativePath absolutePath)) paths).

(** The handler of [repository.state.onDidChange] (lines 422-479), run to
    completion with the answers [env] of its awaited calls. *)
Definition onDidChange (repository : Repository) (env : Env) (w : World) : World :=
  if isProcessingCommit w then w
  else
    let repoPath := rootUri_fsPath repository in
    match HEAD_commit repository with
    | None => w
    | Some commit =>
        if negb (truthy (Some commit)) then w
        else
          match indexChanges repository with
          | Err _ => with_guard false w
          | Ok paths =>
              let w1 :=
                with_staged
                  (<[repoPath := StagedInfo.mk (stagedFiles paths) EmptyString]>
                     (stagedChangesMap w)) w in
              let lastCommit := lastCommitByRepo w1 !! repoPath in
              if bool_decide (lastCommit ≠ Some commit) then
                let w2 := with_guard true w1 in
                let w3 := with_lastCommit (<[repoPath := commit]> (lastCommitByRepo w2)) w2 in
                let commitMessage := getLatestCommitMessage env in
                let w4 :=
                  if negb (truthy (Some commitMessage)) then w3
                  else
                    match stagedChangesMap w3 !! repoPath with
                    | Some stagedInfo =>
                        if 0 <? size (StagedInfo.files stagedInfo) then
                          let w' := handleGitCommit (StagedInfo.files stagedInfo)
                                      (Some commitMessage) env w3 in
                          with_staged (delete repoPath (stagedChangesMap w')) w'
                        else w3
                    | None => w3
                    end in
                with_guard false w4
              else w1
          end
    end.

(** *** The same handler, one turn at a time

    The handler suspends at its [await]s: the commit-message query
    (line 458), the setting read inside [handleGitCommit] (line 45) and the
    information message (line 88).  Other notifications are delivered while
    it is suspended. *)
Inductive Pending : Type :=
  | AwaitCommitMessage (repoPath : string)
  | AwaitAutoCleanup (repoPath : string) (changedFiles : gset string) (commitMessage : string)
  | AwaitInfoMessage (repoPath : string).

(** Lines 469 and 472: after [handleGitCommit] has returned. *)
Definition finish_round (repoPath : string) (w : World) : World :=
  with_guard false (with_staged (delete repoPath (stagedChangesMap w)) w).

(** The first turn of the handler: up to the first [await], or to its end. *)
Definition notify (repository : Repository) (w : World) : World * option Pending :=
  if isProcessingCommit w then (w, None)
  else
    let repoPath := rootUri_fsPath repository in
    match HEAD_commit repository with
    | None => (w, None)
    | Some commit =>
        if negb (truthy (Some commit)) then (w, None)
        else
          match indexChanges repository with
          | Err _ => (with_guard false w, None)
          | Ok paths =>
              let w1 :=
                with_staged
                  (<[repoPath := StagedInfo.mk (stagedFiles paths) EmptyString]>
                     (stagedChangesMap w)) w in
              let lastCommit := lastCommitByRepo w1 !! repoPath in
              if bool_decide (lastCommit ≠ Some commit) then
                let w2 := with_guard true w1 in
                let w3 := with_lastCommit (<[repoPath := commit]> (lastCommitByRepo w2)) w2 in
                (w3, Some (AwaitCommitMessage repoPath))
              else (w1, None)
          end
    end.

(** A later turn: the awaited call has answered. *)
Definition resume (p : Pending) (env : Env) (w : World) : World * option Pending :=
  match p with
  | AwaitCommitMessage repoPath =>
      let commitMessage := getLatestCommitMessage env in
      if negb (truthy (Some commitMessage)) then (with_guard false w, None)
      else
        match stagedChangesMap w !! repoPath with
        | Some stagedInfo =>
            if 0 <? size (StagedInfo.files stagedInfo) then
              if bool_decide (trim commitMessage = EmptyString)
              then (finish_round repoPath w, None)
              else (w, Some (AwaitAutoCleanup repoPath (StagedInfo.files stagedInfo)
                               commitMessage))
            else (with_guard false w, None)
        | None => (with_guard false w, None)
        end
  | AwaitAutoCleanup repoPath changedFiles commitMessage =>
      match autoCleanupAfterCommit env with
      | Err _ => (finish_round repoPath w, None)
      | Ok autoCleanup =>
          match commit_pass changedFiles commitMessage autoCleanup (now env) w with
          | (w', true) => (w', Some (AwaitInfoMessage repoPath))
          | (w', false) => (finish_round repoPath w', None)
          end
      end
  | AwaitInfoMessage repoPath => (finish_round repoPath w, None)
  end.

(** *** The save handler *)

(** The handler of [onWillSaveTextDocument] (lines 210-254); its
    [try]/[catch] reports errors and keeps what was written before.  The
    refresh of lines 247-249 is counted when it is scheduled. *)
Definition onWillSaveTextDocument (e : SaveEvent) (env : SaveEnv) (w : World) : World :=
  let relativePath := relativePath e in
  let content := getText e in
  let db := fileVersionDB w in
  match (match Store.getFile db relativePath with
         | Some file => (Ok file, db)
         | None => Store.createFile relativePath db
         end) with
  | (Err _, db1) => with_db db1 w
  | (Ok file, db1) =>
      match getSaveAllChanges env with
      | Err _ => with_db db1 w
      | Ok saveAllChanges =>
          let versions := Store.getFileVersions db1 (FileRecord.id file) (Some 1) in
          if match versions with
             | v :: _ => bool_decide (VersionRecord.content v = content)
             | [] => false
             end
          then with_db db1 w
          else
            let skip :=
              if negb saveAllChanges then
                match Store.getFileVersions db1 (FileRecord.id file) (Some 1) with
                | [] =>
                    let lines := split nl content in
                    length lines <=? 1
                | v :: _ =>
                    let previousContent := VersionRecord.content v in
                    let patch := createPatch "file" previousContent content in
                    length (changes patch) <=? 2
                end
              else false in
            if skip then with_db db1 w
            else
              match Store.createVersion (save_now env) (FileRecord.id file) content None db1 with
              | (Err _, db2) => with_db db2 w
              | (Ok _, db2) => refresh (with_db db2 w)
              end
      end
  end.

(** *** Interleavings

    Handlers never run in parallel, but the turns of a suspended watcher
    round interleave with further notifications and with saves. *)
Record Config : Type := mkConfig {
  world : World;
  inflight : list Pending
}.

Inductive Event : Type :=
  | Notification (repository : Repository)
  | Resumption (i : nat) (env : Env)
  | Save (e : SaveEvent) (env : SaveEnv).

Definition step (c : Config) (ev : Event) : Config :=
  match ev with
  | Notification repository =>
      let '(w', p) := notify repository (world c) in
      mkConfig w' (inflight c ++ option_list p)
  | Resumption i env =>
      match inflight c !! i with
      | None => c
      | Some p =>
          let '(w', p') := resume p env (world c) in
          mkConfig w' (delete i (inflight c) ++ option_list p')
      end
  | Save e env => mkConfig (onWillSaveTextDocument e env (world c)) (inflight c)
  end.

Definition run (c : Config) (evs : list Event) : Config := foldl step c evs.

(** A watcher that has just been set up: the guard is clear and nothing is
    in flight. *)
Definition idle (w : World) : Config := mkConfig (with_guard false w) [].

End Extension.

(** ** The commands and the manual save ([src/extension.ts]) *)

(** The active editor's document, as [saveCurrentVersion] reads it:
    [vscode.workspace.asRelativePath(document.uri)], [document.getText()]
    and [document.isDirty]. *)
Record TextDocument : Type := mkTextDocument {
  document_relativePath : string;
  document_getText : string;
  isDirty : bool
}.

Section Commands.

Context `{Host}.

(** [for (const file of files) body(file)], where a throw of the store ends
    the loop. *)
Fixpoint for_each_file
    (body : FileRecord.t -> FileVersionDB -> Result unit * FileVersionDB)
    (allFiles : list FileRecord.t) (db : FileVersionDB)
  : Result unit * FileVersionDB :=
  match allFiles with
  | [] => (Ok tt, db)
  | file :: rest =>
      match body file db with
      | (Ok _, db') => for_each_file body rest db'
      | (Err e, db') => (Err e, db')
      end
  end.

(** Lines 176-182, for one [file]: every Version but [versions[0]] is
    deleted when there is more than one. *)
Definition quickClean_file (file : FileRecord.t) (db : FileVersionDB)
  : Result unit * FileVersionDB :=
  let versions := Store.getFileVersions db (FileRecord.id file) None in
  if 1 <? length versions then delete_each (drop 1 versions) db
  else (Ok tt, db).

(** The command [llmcheckpoint.quickClean] (lines 167-187); [result] is
    the answer to the modal warning.  The command has no [try]: a throw of
    the store ends it where it is, before the refresh. *)
Definition quickClean (result : option string) (w : World) : World :=
  if bool_decide (result = Some "Yes") then
    let allFiles := Store.getAllFiles (fileVersionDB w) in
    match for_each_file quickClean_file allFiles (fileVersionDB w) with
    | (Ok _, db') => refresh (with_db db' w)
    | (Err _, db') => with_db db' w
    end
  else w.

(** Lines 196-201, for one [file]: every Version is deleted. *)
Definition clearAll_file (file : FileRecord.t) (db : FileVersionDB)
  : Result unit * FileVersionDB :=
  let versions := Store.getFileVersions db (FileRecord.id file) None in
  delete_each versions db.

(** The command [llmcheckpoint.clearAll] (lines 188-205). *)
Definition clearAll (result : option string) (w : World) : World :=
  if bool_decide (result = Some "Yes") then
    let allFiles := Store.getAllFiles (fileVersionDB w) in
    match for_each_file clearAll_file allFiles (fileVersionDB w) with
    | (Ok _, db') => refresh (with_db db' w)
    | (Err _, db') => with_db db' w
    end
  else w.

(** [saveCurrentVersion] (lines 293-321), the command
    [llmcheckpoint.saveVersion]; [activeTextEditor] is the document of the
    active editor, if there is one, and [now] the clock.  Errors are caught
    and reported. *)
Definition saveCurrentVersion (activeTextEditor : option TextDocument) (now : string)
    (w : World) : World :=
  match activeTextEditor with
  | None => w
  | Some document =>
      if negb (isDirty document) then w
      else
        let relativePath := document_relativePath document in
        let content := document_getText document in
        let db := fileVersionDB w in
        match (match Store.getFile db relativePath with
               | Some file => (Ok file, db)
               | None => Store.createFile relativePath db
               end) with
        | (Err _, db1) => with_db db1 w
        | (Ok file, db1) =>
            match Store.createVersion now (FileRecord.id file) content None db1 with
            | (Err _, db2) => with_db db2 w
            | (Ok _, db2) => refresh (with_db db2 w)
            end
        end
  end.

End Commands.

(** ** Notions used to state the properties *)

(** What the schema guarantees of a store: the ids are unique and below
    the AUTOINCREMENT high-water marks, and every Version belongs to a File
    (the foreign key [versions.file_id]). *)
Definition well_formed (db : FileVersionDB) : Prop :=
  NoDup (map FileRecord.id (files db)) ∧
  Forall (fun f => FileRecord.id f ≤ files_seq db) (files db) ∧
  NoDup (map VersionRecord.id (versions db)) ∧
  Forall (fun v => VersionRecord.id v ≤ versions_seq db) (versions db) ∧
  Forall (fun v => VersionRecord.file_id v ∈ map FileRecord.id (files db)) (versions db).

(** The Versions of File [fileId] in [db'] that did not exist in [db]. *)
Definition created (db db' : FileVersionDB) (fileId : nat) : list VersionRecord.t :=
  filter (fun v => VersionRecord.id v ∉ map VersionRecord.id (versions db))
    (Store.rows_of fileId (versions db')).

(** [db'] holds for File [fileId] the annotated Version [nv]: a new row
    whose content is the marker followed by the content of [latest], after
    the rows the File had in [db], or instead of them when the pass cleans
    up. *)
Definition annotated (commitMessage : string) (autoCleanup : bool)
    (db db' : FileVersionDB) (fileId : nat) (latest nv : VersionRecord.t) : Prop :=
  Store.rows_of fileId (versions db')
  = (if autoCleanup then [] else Store.rows_of fileId (versions db)) ++ [nv] ∧
  VersionRecord.content nv = marker commitMessage +:+ VersionRecord.content latest ∧
  VersionRecord.file_id nv = fileId ∧
  versions_seq db < VersionRecord.id nv.

(** The save of [content] added exactly one Version, holding [content]. *)
Definition persisted (content : string) (w w' : World) : Prop :=
  ∃ v, versions (fileVersionDB w') = versions (fileVersionDB w) ++ [v] ∧
       VersionRecord.content v = content.

(** The save added no Version and removed none. *)
Definition skipped (w w' : World) : Prop :=
  versions (fileVersionDB w') = versions (fileVersionDB w).

(** Number of occurrences of a character. *)
Fixpoint occurrences (c : ascii) (s : string) : nat :=
  match s with
  | EmptyString => 0
  | String c' s' => (if Ascii.eqb c' c then 1 else 0) + occurrences c s'
  end.

(** Following the spec's words: the lines of a patch marked as added or
    removed, not counting the two header lines of the diff. *)
Definition marked_lines_excluding_headers (patch : string) : nat :=
  length (List.filter (fun line => startsWith "+" line || startsWith "-" line)
            (split nl patch)) - 2.

(** A watcher round run to its end from the outcome of its first turn,
    every awaited call answering as [env] says. *)
Definition complete `{Host} (env : Env) (r : World * option Pending) : World :=
  match r with
  | (w, None) => w
  | (w, Some p) =>
      match resume p env w with
      | (w1, None) => w1
      | (w1, Some p1) =>
          match resume p1 env w1 with
          | (w2, None) => w2
          | (w2, Some p2) => fst (resume p2 env w2)
          end
      end
  end.

(** The guard is set exactly while one round is suspended. *)
Definition guard_held (c : Config) : Prop :=
  match inflight c with
  | [] => isProcessingCommit (world c) = false
  | [_] => isProcessingCommit (world c) = true
  | _ => False
  end.


(** ** The unified diff format *)

(** The body lines of a unified diff, as [createPatch] of the [diff]
    package prints them: a hunk header, a line of context, a removed line,
    an added line, and the note that follows a last line without newline. *)
Inductive PatchLine : Type :=
  | Hunk (range : string)
  | Unchanged (text : string)
  | Removed (text : string)
  | Added (text : string)
  | NoNewline.

Definition print_line (l : PatchLine) : string :=
  match l with
  | Hunk range => "@@ " +:+ range +:+ " @@"
  | Unchanged text => " " +:+ text
  | Removed text => "-" +:+ text
  | Added text => "+" +:+ text
  | NoNewline => "\ No newline at end of file"
  end.

Definition line_text (l : PatchLine) : string :=
  match l with
  | Hunk range => range
  | Unchanged text | Removed text | Added text => text
  | NoNewline => EmptyString
  end.

(** [lines.join(sep)]. *)
Fixpoint join (sep : string) (lines : list string) : string :=
  match lines with
  | [] => EmptyString
  | [line] => line
  | line :: rest => line +:+ sep +:+ join sep rest
  end.

(** The text of a patch of [fileName] against itself with the given body:
    the four lines of the header, the body, and a final newline. *)
Definition formatPatch (fileName : string) (body : list PatchLine) : string :=
  join NL
    ([ "Index: " +:+ fileName;
       "===================================================================";
       "--- " +:+ fileName;
       "+++ " +:+ fileName ]
     ++ map print_line body) +:+ NL.

(** A line of the body is marked as added or removed. *)
Definition marked (l : PatchLine) : bool :=
  match l with
  | Removed _ | Added _ => true
  | _ => false
  end.

(** A line of the body that [changes] keeps: a marked line whose text does
    not begin with two more of its mark. *)
Definition counted (l : PatchLine) : bool :=
  match l with
  | Removed text => negb (startsWith "--" text)
  | Added text => negb (startsWith "++" text)
  | _ => false
  end.

(** ** Concrete inputs *)

Definition previous_x : string := "x" +:+ NL.

Definition candidate_increments : string :=
  "++a;" +:+ NL +:+ "++b;" +:+ NL +:+ "++c;" +:+ NL.

(** The unified diff of [previous_x] and [candidate_increments] under the
    file name [file]: the line [x] removed, three lines added, each added
    line carrying the mark [+] in front of its text. *)
Definition patch_increments : string :=
  "Index: file" +:+ NL +:+
  "===================================================================" +:+ NL +:+
  "--- file" +:+ NL +:+
  "+++ file" +:+ NL +:+
  "@@ -1,1 +1,3 @@" +:+ NL +:+
  "-x" +:+ NL +:+
  "+++a;" +:+ NL +:+
  "+++b;" +:+ NL +:+
  "+++c;" +:+ NL.

Definition previous_abc : string := "a" +:+ NL +:+ "b" +:+ NL +:+ "c".

Definition candidate_axc : string := "a" +:+ NL +:+ "x" +:+ NL +:+ "c".

(** The unified diff of [previous_abc] and [candidate_axc]: one line
    removed and one added, between two lines of context. *)
Definition patch_axc : string :=
  "Index: file" +:+ NL +:+
  "===================================================================" +:+ NL +:+
  "--- file" +:+ NL +:+
  "+++ file" +:+ NL +:+
  "@@ -1,3 +1,3 @@" +:+ NL +:+
  " a" +:+ NL +:+
  "-b" +:+ NL +:+
  "+x" +:+ NL +:+
  " c" +:+ NL +:+
  "\ No newline at end of file" +:+ NL.

Definition exampleHost : Host :=
  mkHost (fun p => p) (fun p => p) (fun _ _ _ => patch_increments) true.

(** Four files: [a.txt] with two Versions, [b.txt] and [c.txt] with one,
    [d.txt] with none. *)
Definition exampleDB : FileVersionDB :=
  mkDB
    [ FileRecord.mk 1 "a.txt" (Some 2);
      FileRecord.mk 2 "b.txt" (Some 3);
      FileRecord.mk 3 "c.txt" (Some 4);
      FileRecord.mk 4 "d.txt" None ]
    [ VersionRecord.mk 1 1 "one" "t0" 1 None;
      VersionRecord.mk 2 1 "two" "t1" 2 None;
      VersionRecord.mk 3 2 "bee" "t2" 1 None;
      VersionRecord.mk 4 3 previous_x "t3" 1 None ]
    4 4.

Definition exampleWorld : World :=
  mkWorld exampleDB {[ "/repo" := "h1" ]} ∅ false 0.

(** HEAD has moved to [h2] with [a.txt], [b.txt] and [d.txt] in the index. *)
Definition exampleRepository : Repository :=
  mkRepository (Some "h2") "/repo" (Ok ["a.txt"; "b.txt"; "d.txt"]).

(** The same HEAD, later, with another index. *)
Definition exampleRepository_later : Repository :=
  mkRepository (Some "h2") "/repo" (Ok ["c.txt"]).

Definition exampleEnv (autoCleanup : bool) : Env :=
  mkEnv (Ok ("fix bug" +:+ NL)) (Ok autoCleanup) (Ok tt) "t4".


(** The commit message is white space only: a no-break space (U+00A0, the
    bytes C2 A0) and a line feed. *)
Definition exampleEnv_blank_message : Env :=
  mkEnv (Ok (String "194" (String "160" NL))) (Ok false) (Ok tt) "t4".



(** A round for [exampleRepository] has started and is suspended at the
    commit-message query. *)
Definition suspendedConfig : Config :=
  run (H:=exampleHost) (idle exampleWorld) [Notification exampleRepository].

Definition exampleSaveEnv (saveAllChanges : bool) : SaveEnv :=
  mkSaveEnv (Ok saveAllChanges) "t5".

(** ** Further notions *)

(** The File is one the commit pass processes: its normalized path is
    among the changed files and it has a Version. *)
Definition is_processed `{Host} (changedFiles : gset string) (db : FileVersionDB)
    (file : FileRecord.t) : bool :=
  bool_decide (normalize (FileRecord.file_path file) ∈ changedFiles) &&
  match Store.getFileVersions db (FileRecord.id file) None with
  | [] => false
  | _ :: _ => true
  end.

(** * Properties *)

(** ** Strings *)

Lemma split_nonempty sep s : split sep s ≠ [].
Proof. destruct s as [|c s]; simpl; [done|]. destruct (Ascii.eqb c sep); [done|]. by destruct (split sep s). Qed.

Lemma length_split sep s : length (split sep s) = S (occurrences sep s).
Proof.
  induction s as [|c s IH]; simpl; [done|].
  destruct (Ascii.eqb c sep); simpl; [by rewrite IH|].
  destruct (split sep s) eqn:E; simpl in *; [done|]. done.
Qed.

Lemma string_app_nil (s : string) : EmptyString +:+ s = s.
Proof. reflexivity. Qed.

Lemma string_app_cons c (s t : string) : String c s +:+ t = String c (s +:+ t).
Proof. reflexivity. Qed.

Lemma string_app_assoc (a b c : string) : (a +:+ b) +:+ c = a +:+ (b +:+ c).
Proof.
  induction a as [|x a IH]; [done|]. by rewrite !string_app_cons, IH.
Qed.

Lemma marker_app commitMessage content :
  marker commitMessage +:+ content
  = "/* Git commit: " +:+ commitMessage +:+ " */" +:+ NL +:+ content.
Proof. unfold marker. by rewrite !string_app_assoc. Qed.

Lemma string_app_nil_r (s : string) : s +:+ EmptyString = s.
Proof. induction s as [|c s IH]; [done|]. by rewrite string_app_cons, IH. Qed.

Lemma string_length_app (a b : string) :
  String.length (a +:+ b) = String.length a + String.length b.
Proof. induction a as [|c a IH]; [done|]. rewrite string_app_cons. cbn. by rewrite IH. Qed.

(** A code point takes at least one byte, and is read off the bytes it
    takes. *)
Lemma code_point_spec s codePoint rest :
  code_point s = Some (codePoint, rest) →
  ∃ bytes, bytes ≠ EmptyString ∧ s = bytes +:+ rest ∧
    ∀ t, code_point (bytes +:+ t) = Some (codePoint, t).
Proof.
  unfold code_point. destruct s as [|b0 s0]; [done|].
  destruct (N_of_ascii b0 <? 0x80)%N eqn:H0.
  { intros [= <- <-]. exists (String b0 EmptyString). split; [done|]. split; [done|].
    intros t. rewrite string_app_cons, string_app_nil. by rewrite H0. }
  destruct s0 as [|b1 s1]; [done|].
  destruct ((0xC2 <=? N_of_ascii b0)%N && (N_of_ascii b0 <? 0xE0)%N) eqn:H1.
  { destruct (continuation (N_of_ascii b1)) eqn:H2; [|done].
    intros [= <- <-]. exists (String b0 (String b1 EmptyString)).
    split; [done|]. split; [done|].
    intros t. rewrite !string_app_cons, string_app_nil. by rewrite H0, H1, H2. }
  destruct s1 as [|b2 s2]; [done|].
  destruct ((0xE0 <=? N_of_ascii b0)%N && _ && _ && _ && _) eqn:H2; [|done].
  intros [= <- <-]. exists (String b0 (String b1 (String b2 EmptyString))).
  split; [done|]. split; [done|].
  intros t. rewrite !string_app_cons, string_app_nil. by rewrite H0, H1, H2.
Qed.

Lemma white_spec s rest :
  white s = Some rest →
  ∃ bytes, bytes ≠ EmptyString ∧ s = bytes +:+ rest ∧ ∀ t, white (bytes +:+ t) = Some t.
Proof.
  unfold white. destruct (code_point s) as [[codePoint r]|] eqn:Hcp; [|done].
  destruct (is_white_space codePoint) eqn:Hw; [|done]. intros [= ->].
  destruct (code_point_spec _ _ _ Hcp) as (bytes & Hne & -> & Hall).
  exists bytes. split; [done|]. split; [done|]. intros t. by rewrite Hall, Hw.
Qed.

Lemma white_empty : white EmptyString = None.
Proof. reflexivity. Qed.

Lemma white_shorter s rest : white s = Some rest → String.length rest < String.length s.
Proof.
  intros (bytes & Hne & -> & _)%white_spec. rewrite string_length_app.
  destruct bytes; [done|]. cbn. lia.
Qed.

Lemma white_app s rest t : white s = Some rest → white (s +:+ t) = Some (rest +:+ t).
Proof.
  intros (bytes & _ & -> & Hall)%white_spec. by rewrite string_app_assoc, Hall.
Qed.

Lemma trim_start_from_enough n m s :
  String.length s ≤ n → String.length s ≤ m → trim_start_from n s = trim_start_from m s.
Proof.
  revert m s. induction n as [|n IH]; intros m s Hn Hm.
  - destruct s; [|cbn in Hn; lia]. by destruct m.
  - destruct m as [|m].
    + destruct s; [done|cbn in Hm; lia].
    + cbn [trim_start_from]. destruct (white s) as [rest|] eqn:Hwhite; [|done].
      apply white_shorter in Hwhite. apply IH; lia.
Qed.

(** Trimming at the start strips one white-space code point and goes on:
    the count of [trim_start] never runs out. *)
Lemma trim_start_unfold s :
  trim_start s = match white s with Some rest => trim_start rest | None => s end.
Proof.
  unfold trim_start. destruct s as [|c s]; [done|].
  cbn [String.length trim_start_from].
  destruct (white (String c s)) as [rest|] eqn:Hwhite; [|done].
  apply white_shorter in Hwhite. cbn [String.length] in Hwhite.
  apply trim_start_from_enough; lia.
Qed.

Lemma string_length_ind (P : string → Prop) :
  (∀ s, (∀ t, String.length t < String.length s → P t) → P s) → ∀ s, P s.
Proof.
  intros Hstep s. remember (String.length s) as n eqn:Hn. revert s Hn.
  induction n as [n IH] using lt_wf_ind. intros s ->.
  apply Hstep. intros t Ht. by apply (IH _ Ht).
Qed.

Lemma white_trim_start s : white (trim_start s) = None.
Proof.
  induction s as [s IH] using string_length_ind.
  rewrite trim_start_unfold. destruct (white s) as [rest|] eqn:Hwhite; [|done].
  apply IH. by apply white_shorter.
Qed.

Lemma trim_start_fixed s : white s = None → trim_start s = s.
Proof. intros Hwhite. by rewrite trim_start_unfold, Hwhite. Qed.

Lemma blank_app a b : blank a = true → blank b = true → blank (a +:+ b) = true.
Proof.
  unfold blank. induction a as [a IH] using string_length_ind. intros Ha Hb.
  rewrite trim_start_unfold in Ha.
  destruct (white a) as [rest|] eqn:Hwhite.
  - rewrite trim_start_unfold, (white_app _ _ b Hwhite).
    apply IH; [by apply white_shorter|done|done].
  - destruct a; [|done]. by rewrite string_app_nil.
Qed.

(** What [trim_end] cuts off is white space. *)
Lemma trim_end_split s : ∃ w, s = trim_end s +:+ w ∧ blank w = true.
Proof.
  induction s as [|c s (w & IH & Hw)]; [by exists EmptyString|].
  cbn [trim_end]. destruct (blank (String c s)) eqn:Hblank.
  - by exists (String c s).
  - exists w. by rewrite string_app_cons, <- IH.
Qed.

Lemma trim_end_idem s : trim_end (trim_end s) = trim_end s.
Proof.
  induction s as [|c s IH]; [done|].
  cbn [trim_end]. destruct (blank (String c s)) eqn:Hblank; [done|].
  cbn [trim_end]. rewrite IH.
  destruct (blank (String c (trim_end s))) eqn:Hcut; [|done].
  destruct (trim_end_split s) as (w & Hs & Hw).
  pose proof (blank_app _ _ Hcut Hw) as Hall.
  rewrite string_app_cons, <- Hs in Hall. congruence.
Qed.

(** Cutting the end of a string that does not start with white space
    leaves one that does not either. *)
Lemma white_trim_end s : white s = None → white (trim_end s) = None.
Proof.
  intros Hnone. destruct (white (trim_end s)) as [rest|] eqn:Hwhite; [|done].
  destruct (trim_end_split s) as (w & Hs & _).
  apply (white_app _ _ w) in Hwhite. rewrite <- Hs in Hwhite. congruence.
Qed.

Lemma trim_idem s : trim (trim s) = trim s.
Proof.
  unfold trim.
  rewrite (trim_start_fixed (trim_end (trim_start s)))
    by apply white_trim_end, white_trim_start.
  apply trim_end_idem.
Qed.

(** White space outside ASCII is removed too: here U+FEFF and a no-break
    space in front of the message, an ideographic space and a line feed
    behind it; a string of such white space only trims to nothing. *)
Example trim_unicode_white_space :
  trim (String "239" (String "187" (String "191" (String "194" (String "160"
          ("fix bug" +:+ String "227" (String "128" (String "128" NL))))))))
  = "fix bug" ∧
  trim (String "194" (String "160" NL)) = EmptyString.
Proof. split; reflexivity. Qed.

Lemma truthy_Some s : truthy (Some s) = true ↔ s ≠ EmptyString.
Proof. destruct s; simpl; split; congruence. Qed.

(** ** The Version Store *)

Lemma insert_desc_perm v l : Store.insert_desc v l ≡ₚ v :: l.
Proof.
  induction l as [|x xs IH]; simpl; [done|].
  case_match; [done|]. rewrite IH. apply Permutation_swap.
Qed.

Lemma sort_desc_perm l : Store.sort_desc l ≡ₚ l.
Proof.
  induction l as [|x xs IH]; simpl; [done|].
  by rewrite insert_desc_perm, IH.
Qed.

Lemma getFileVersions_perm db fileId :
  Store.getFileVersions db fileId None ≡ₚ Store.rows_of fileId (versions db).
Proof. apply sort_desc_perm. Qed.

Lemma getFileVersions_rows db db' fileId limit :
  Store.rows_of fileId (versions db') = Store.rows_of fileId (versions db) →
  Store.getFileVersions db' fileId limit = Store.getFileVersions db fileId limit.
Proof. unfold Store.getFileVersions. by intros ->. Qed.

Lemma find_file_id (fs : list FileRecord.t) fileId :
  fileId ∈ map FileRecord.id fs →
  ∃ f, List.find (fun f => bool_decide (FileRecord.id f = fileId)) fs = Some f.
Proof.
  induction fs as [|g fs IH]; simpl; [by intros ?%elem_of_nil|].
  intros [->|Hin]%elem_of_cons.
  - rewrite bool_decide_eq_true_2 by done. eauto.
  - case_bool_decide; eauto.
Qed.

Lemma find_version_id (vs : list VersionRecord.t) versionId :
  versionId ∈ map VersionRecord.id vs →
  ∃ v, List.find (fun v => bool_decide (VersionRecord.id v = versionId)) vs = Some v.
Proof.
  induction vs as [|g vs IH]; simpl; [by intros ?%elem_of_nil|].
  intros [->|Hin]%elem_of_cons.
  - rewrite bool_decide_eq_true_2 by done. eauto.
  - case_bool_decide; eauto.
Qed.

Lemma map_id_set_current (g : FileRecord.t → bool) cur (fs : list FileRecord.t) :
  map FileRecord.id (map (fun f => if g f then Store.set_current cur f else f) fs)
  = map FileRecord.id fs.
Proof.
  induction fs as [|f fs IH]; simpl; [done|]. rewrite IH. by destruct (g f).
Qed.

Lemma map_path_set_current (g : FileRecord.t → bool) cur (fs : list FileRecord.t) :
  map FileRecord.file_path (map (fun f => if g f then Store.set_current cur f else f) fs)
  = map FileRecord.file_path fs.
Proof.
  induction fs as [|f fs IH]; simpl; [done|]. rewrite IH. by destruct (g f).
Qed.

Lemma Forall_id_set_current (g : FileRecord.t → bool) cur n (fs : list FileRecord.t) :
  Forall (fun f => FileRecord.id f ≤ n) fs →
  Forall (fun f => FileRecord.id f ≤ n)
    (map (fun f => if g f then Store.set_current cur f else f) fs).
Proof.
  intros Hfs. apply Forall_fmap. eapply Forall_impl; [exact Hfs|].
  intros f Hf. simpl. by destruct (g f).
Qed.

(** [createVersion] on an existing File appends one row with a fresh id. *)
Lemma createVersion_spec now fileId content label db :
  fileId ∈ map FileRecord.id (files db) →
  ∃ db',
    Store.createVersion now fileId content label db
    = (Ok (VersionRecord.mk (S (versions_seq db)) fileId content now
             (Store.next_version_number db fileId) label), db') ∧
    versions db'
    = versions db ++ [VersionRecord.mk (S (versions_seq db)) fileId content now
                        (Store.next_version_number db fileId) label] ∧
    map FileRecord.id (files db') = map FileRecord.id (files db) ∧
    map FileRecord.file_path (files db') = map FileRecord.file_path (files db) ∧
    files_seq db' = files_seq db ∧
    versions_seq db' = S (versions_seq db) ∧
    (well_formed db → well_formed db').
Proof.
  intros Hin. unfold Store.createVersion, Store.getFileById.
  destruct (find_file_id _ _ Hin) as [f ->].
  eexists. split; [done|]. simpl.
  split; [done|]. split; [apply map_id_set_current|].
  split; [apply map_path_set_current|]. do 2 (split; [done|]).
  intros (Hf & Hfs & Hv & Hvs & Hfk). repeat split; simpl.
  - by rewrite map_id_set_current.
  - by apply Forall_id_set_current.
  - rewrite map_app. simpl. apply NoDup_app. split; [done|].
    split; [|apply NoDup_singleton].
    intros i Hi ->%list_elem_of_singleton.
    apply list_elem_of_fmap in Hi as (v & Hi & Hv').
    rewrite Forall_forall in Hvs. apply Hvs in Hv'. lia.
  - apply Forall_app. split.
    + eapply Forall_impl; [exact Hvs|]. simpl. lia.
    + apply Forall_singleton. simpl. lia.
  - rewrite map_id_set_current. apply Forall_app. split; [done|].
    by apply Forall_singleton.
Qed.

Lemma without_sublist versionId vs : Store.without versionId vs `sublist_of` vs.
Proof. apply sublist_filter. Qed.

(** [deleteVersion] on an existing id removes the rows with that id and
    nothing else; it does not throw. *)
Lemma deleteVersion_spec strict versionId db :
  versionId ∈ map VersionRecord.id (versions db) →
  ∃ db',
    Store.deleteVersion strict versionId db = (Ok tt, db') ∧
    versions db' = Store.without versionId (versions db) ∧
    map FileRecord.id (files db') = map FileRecord.id (files db) ∧
    map FileRecord.file_path (files db') = map FileRecord.file_path (files db) ∧
    files_seq db' = files_seq db ∧
    versions_seq db' = versions_seq db ∧
    (well_formed db → well_formed db').
Proof.
  intros Hin. unfold Store.deleteVersion.
  destruct (find_version_id _ _ Hin) as [row ->].
  eexists. split; [done|]. simpl.
  split; [done|]. split; [apply map_id_set_current|].
  split; [apply map_path_set_current|]. do 2 (split; [done|]).
  intros (Hf & Hfs & Hv & Hvs & Hfk). repeat split; simpl.
  - by rewrite map_id_set_current.
  - by apply Forall_id_set_current.
  - eapply sublist_NoDup; [exact Hv|]. apply fmap_sublist, without_sublist.
  - rewrite Forall_forall in Hvs |- *. intros v Hv'. apply Hvs.
    eapply elem_of_sublist; [exact Hv'|apply without_sublist].
  - rewrite map_id_set_current. rewrite Forall_forall in Hfk |- *.
    intros v Hv'. apply Hfk.
    eapply elem_of_sublist; [exact Hv'|apply without_sublist].
Qed.

(** [createFile] on a free path appends one row with a fresh id. *)
Lemma createFile_spec path db :
  Store.getFile db path = None →
  Store.createFile path db
  = (Ok (FileRecord.mk (S (files_seq db)) path None),
     mkDB (files db ++ [FileRecord.mk (S (files_seq db)) path None])
          (versions db) (S (files_seq db)) (versions_seq db)).
Proof. intros Hnone. unfold Store.createFile. by rewrite Hnone. Qed.

Lemma createFile_well_formed path db r db' :
  well_formed db → Store.createFile path db = (r, db') → well_formed db'.
Proof.
  intros (Hf & Hfs & Hv & Hvs & Hfk). unfold Store.createFile.
  destruct (Store.getFile db path); intros [= <- <-]; [done|].
  repeat split; simpl; [| |done|done|].
  - rewrite map_app. simpl. apply NoDup_app. split; [done|].
    split; [|apply NoDup_singleton].
    intros i Hi ->%list_elem_of_singleton.
    apply list_elem_of_fmap in Hi as (f & Hi & Hf').
    rewrite Forall_forall in Hfs. apply Hfs in Hf'. lia.
  - apply Forall_app. split.
    + eapply Forall_impl; [exact Hfs|]. simpl. lia.
    + apply Forall_singleton. simpl. lia.
  - eapply Forall_impl; [exact Hfk|]. simpl. intros v Hv'.
    rewrite map_app. apply elem_of_app. by left.
Qed.

(** ** Lists *)

Lemma filter_ext_elem_of {A} (P Q : A → Prop)
    `{!∀ x, Decision (P x), !∀ x, Decision (Q x)} (l : list A) :
  (∀ x, x ∈ l → P x ↔ Q x) → filter P l = filter Q l.
Proof.
  induction l as [|a l IH]; intros Hext; [done|].
  rewrite !filter_cons, IH by (intros; apply Hext; by right).
  apply decide_ext, Hext. by left.
Qed.

Lemma filter_none {A} (P : A → Prop) `{!∀ x, Decision (P x)} (l : list A) :
  (∀ x, x ∈ l → ¬ P x) → filter P l = [].
Proof.
  induction l as [|a l IH]; intros Hno; [done|].
  rewrite filter_cons_False by (apply Hno; by left).
  apply IH. intros; apply Hno; by right.
Qed.

Lemma filter_all {A} (P : A → Prop) `{!∀ x, Decision (P x)} (l : list A) :
  (∀ x, x ∈ l → P x) → filter P l = l.
Proof.
  induction l as [|a l IH]; intros Hall; [done|].
  rewrite filter_cons_True by (apply Hall; by left).
  f_equal. apply IH. intros; apply Hall; by right.
Qed.

Lemma NoDup_map_eq {A B} (f : A → B) (l : list A) x y :
  NoDup (map f l) → x ∈ l → y ∈ l → f x = f y → x = y.
Proof.
  induction l as [|a l IH]; simpl; [by intros _ ?%elem_of_nil|].
  intros [Hnot Hnd]%NoDup_cons [->|Hx]%elem_of_cons [->|Hy]%elem_of_cons Heq; auto.
  - destruct Hnot. rewrite Heq. by apply (list_elem_of_fmap_2 f).
  - destruct Hnot. rewrite <- Heq. by apply (list_elem_of_fmap_2 f).
Qed.

(** ** The commit-annotation pass *)

Section CommitPass.

Context `{Host}.

Lemma delete_each_spec vs db :
  NoDup (map VersionRecord.id vs) →
  (∀ i, i ∈ map VersionRecord.id vs → i ∈ map VersionRecord.id (versions db)) →
  ∃ db',
    delete_each vs db = (Ok tt, db') ∧
    versions db'
    = filter (fun r => VersionRecord.id r ∉ map VersionRecord.id vs) (versions db) ∧
    map FileRecord.id (files db') = map FileRecord.id (files db) ∧
    files_seq db' = files_seq db ∧
    versions_seq db' = versions_seq db ∧
    (well_formed db → well_formed db').
Proof.
  revert db. induction vs as [|v vs IH]; intros db Hnd Hin; simpl.
  - exists db. split; [done|]. split; [|done].
    symmetry. apply filter_all. intros x _. apply not_elem_of_nil.
  - apply NoDup_cons in Hnd as [Hv Hnd].
    destruct (deleteVersion_spec strict_delete (VersionRecord.id v) db)
      as (db1 & -> & Hvs1 & Hids1 & _ & Hfs1 & Hvseq1 & Hwf1);
      [apply Hin; by left|].
    destruct (IH db1 Hnd) as (db2 & -> & Hvs2 & Hids2 & Hfs2 & Hvseq2 & Hwf2).
    { intros i Hi. rewrite Hvs1.
      assert (Hi' : i ∈ map VersionRecord.id (versions db)) by (apply Hin; by right).
      apply list_elem_of_fmap in Hi' as (r & -> & Hr).
      apply list_elem_of_fmap_2, list_elem_of_filter. split; [|done].
      intros Heq. apply Hv. by rewrite <- Heq. }
    exists db2. split; [done|]. split; [|split; [congruence|split; [congruence|split; [congruence|auto]]]].
    rewrite Hvs2, Hvs1. unfold Store.without. rewrite list_filter_filter.
    apply list_filter_iff. intros r. rewrite not_elem_of_cons. tauto.
Qed.

Lemma rows_of_app fileId l k :
  Store.rows_of fileId (l ++ k) = Store.rows_of fileId l ++ Store.rows_of fileId k.
Proof. apply filter_app. Qed.

Lemma rows_of_singleton_eq fileId (v : VersionRecord.t) :
  VersionRecord.file_id v = fileId → Store.rows_of fileId [v] = [v].
Proof. intros Hv. unfold Store.rows_of. by rewrite filter_cons_True, filter_nil. Qed.

Lemma rows_of_singleton_ne fileId (v : VersionRecord.t) :
  VersionRecord.file_id v ≠ fileId → Store.rows_of fileId [v] = [].
Proof. intros Hv. unfold Store.rows_of. by rewrite filter_cons_False, filter_nil. Qed.

Lemma filter_singleton_True {A} (P : A → Prop) `{!∀ x, Decision (P x)} (x : A) :
  P x → filter P [x] = [x].
Proof. intros Hx. by rewrite filter_cons_True, filter_nil. Qed.

Lemma getFileVersions_ids db fileId :
  well_formed db →
  NoDup (map VersionRecord.id (Store.getFileVersions db fileId None)) ∧
  ∀ i, i ∈ map VersionRecord.id (Store.getFileVersions db fileId None) →
       i ∈ map VersionRecord.id (versions db).
Proof.
  intros (_ & _ & Hv & _ & _). pose proof (getFileVersions_perm db fileId) as Hp. split.
  - rewrite Hp. eapply sublist_NoDup; [exact Hv|]. apply fmap_sublist, sublist_filter.
  - intros i (r & -> & Hr)%list_elem_of_fmap. rewrite Hp in Hr.
    apply list_elem_of_filter in Hr as [_ Hr]. by apply list_elem_of_fmap_2.
Qed.

Lemma annotate_spec changedFiles commitMessage autoCleanup now file db :
  well_formed db →
  FileRecord.id file ∈ map FileRecord.id (files db) →
  ∃ processed db',
    annotate changedFiles commitMessage autoCleanup now file db = (Ok processed, db') ∧
    well_formed db' ∧
    map FileRecord.id (files db') = map FileRecord.id (files db) ∧
    versions_seq db ≤ versions_seq db' ∧
    (∀ fileId, fileId ≠ FileRecord.id file →
       Store.rows_of fileId (versions db') = Store.rows_of fileId (versions db)) ∧
    (∀ latest rest,
       normalize (FileRecord.file_path file) ∈ changedFiles →
       Store.getFileVersions db (FileRecord.id file) None = latest :: rest →
       processed = true ∧
       ∃ nv, annotated commitMessage autoCleanup db db' (FileRecord.id file) latest nv) ∧
    (normalize (FileRecord.file_path file) ∉ changedFiles ∨
     Store.getFileVersions db (FileRecord.id file) None = [] →
     processed = false ∧ db' = db).
Proof.
  intros Hwf Hfile. unfold annotate.
  case_bool_decide as Hstaged; cbn [negb]; cycle 1.
  { exists false, db. do 5 (split; [done|]). split; [|done]. by intros ?? ?. }
  destruct (Store.getFileVersions db (FileRecord.id file) None) as [|latest rest] eqn:Hversions.
  { exists false, db. do 5 (split; [done|]). split; [|done]. by intros ?? ? ?. }
  destruct (createVersion_spec now (FileRecord.id file)
              (marker commitMessage +:+ VersionRecord.content latest) None db Hfile)
    as (db1 & -> & Hvs1 & Hids1 & _ & Hfs1 & Hseq1 & Hwf1).
  set (nv := VersionRecord.mk _ _ _ _ _ _) in Hvs1.
  destruct (getFileVersions_ids db (FileRecord.id file) Hwf) as [Hnd Hsub].
  rewrite Hversions in Hnd, Hsub.
  assert (Hold : ∀ r, r ∈ versions db → VersionRecord.id r ≤ versions_seq db).
  { destruct Hwf as (_ & _ & _ & Hle & _). by rewrite Forall_forall in Hle. }
  destruct autoCleanup.
  - destruct (delete_each_spec (latest :: rest) db1 Hnd)
      as (db2 & -> & Hvs2 & Hids2 & Hfs2 & Hseq2 & Hwf2).
    { intros i Hi. rewrite Hvs1, map_app. apply elem_of_app. left. by apply Hsub. }
    assert (Hfresh : VersionRecord.id nv ∉ map VersionRecord.id (latest :: rest)).
    { intros Hin. apply Hsub, list_elem_of_fmap in Hin as (r & Heq & Hr).
      apply Hold in Hr. rewrite <- Heq in Hr. simpl in Hr. lia. }
    exists true, db2. split; [done|]. split; [auto|]. split; [congruence|].
    split; [lia|]. split; [|split].
    + intros fileId Hne. rewrite Hvs2, Hvs1, filter_app, rows_of_app.
      rewrite (filter_singleton_True _ nv) by done.
      rewrite (rows_of_singleton_ne fileId nv) by (simpl; congruence).
      rewrite app_nil_r. unfold Store.rows_of. rewrite list_filter_filter.
      apply filter_ext_elem_of. intros r Hr. split; [tauto|]. intros Hfid. split; [done|].
      intros (r' & Hid & Hr')%list_elem_of_fmap.
      rewrite <- Hversions, (getFileVersions_perm db (FileRecord.id file)) in Hr'.
      apply list_elem_of_filter in Hr' as [Hfid' Hr'].
      destruct Hwf as (_ & _ & Hndv & _ & _).
      pose proof (NoDup_map_eq _ _ r r' Hndv Hr Hr' Hid). congruence.
    + intros latest' rest' _ [= <- <-]. split; [done|]. exists nv.
      split; [|split; [done|split; [done|simpl; lia]]].
      rewrite Hvs2, Hvs1, filter_app, rows_of_app.
      rewrite (filter_singleton_True _ nv) by done.
      rewrite (rows_of_singleton_eq _ nv) by done.
      f_equal. unfold Store.rows_of. rewrite list_filter_filter.
      apply filter_none. intros r Hr [Hfid Hnot]. apply Hnot.
      apply list_elem_of_fmap_2.
      rewrite <- Hversions, (getFileVersions_perm db (FileRecord.id file)).
      by apply list_elem_of_filter.
    + intros [Hno|[=]]. done.
  - exists true, db1. split; [done|]. split; [auto|]. split; [done|].
    split; [lia|]. split; [|split].
    + intros fileId Hne. rewrite Hvs1, rows_of_app.
      rewrite (rows_of_singleton_ne fileId nv) by (simpl; congruence).
      apply app_nil_r.
    + intros latest' rest' _ [= <- <-]. split; [done|]. exists nv.
      split; [|split; [done|split; [done|simpl; lia]]].
      rewrite Hvs1, rows_of_app. by rewrite (rows_of_singleton_eq _ nv).
    + intros [Hno|[=]]. done.
Qed.

Lemma commit_loop_spec changedFiles commitMessage autoCleanup now allFiles :
  ∀ processedCount db,
  NoDup (map FileRecord.id allFiles) →
  well_formed db →
  (∀ f, f ∈ allFiles → FileRecord.id f ∈ map FileRecord.id (files db)) →
  ∃ processedCount' db',
    commit_loop changedFiles commitMessage autoCleanup now allFiles processedCount db
    = (Ok processedCount', db') ∧
    well_formed db' ∧
    map FileRecord.id (files db') = map FileRecord.id (files db) ∧
    versions_seq db ≤ versions_seq db' ∧
    (∀ fileId, fileId ∉ map FileRecord.id allFiles →
       Store.rows_of fileId (versions db') = Store.rows_of fileId (versions db)) ∧
    (∀ f, f ∈ allFiles →
       (∀ latest rest,
          normalize (FileRecord.file_path f) ∈ changedFiles →
          Store.getFileVersions db (FileRecord.id f) None = latest :: rest →
          ∃ nv, annotated commitMessage autoCleanup db db' (FileRecord.id f) latest nv) ∧
       (normalize (FileRecord.file_path f) ∉ changedFiles ∨
        Store.getFileVersions db (FileRecord.id f) None = [] →
        Store.rows_of (FileRecord.id f) (versions db')
        = Store.rows_of (FileRecord.id f) (versions db))).
Proof.
  induction allFiles as [|file rest IH]; intros n db Hnd Hwf Hfiles; simpl.
  { exists n, db. do 4 (split; [done|]). split; [done|]. by intros f ?%elem_of_nil. }
  apply NoDup_cons in Hnd as [Hfresh Hnd].
  destruct (annotate_spec changedFiles commitMessage autoCleanup now file db Hwf)
    as (b & db1 & -> & Hwf1 & Hids1 & Hseq1 & Hframe1 & Hyes1 & Hno1);
    [apply Hfiles; by left|].
  destruct (IH (if b then S n else n) db1 Hnd Hwf1)
    as (n' & db2 & -> & Hwf2 & Hids2 & Hseq2 & Hframe2 & Hfiles2).
  { intros f Hf. rewrite Hids1. apply Hfiles. by right. }
  exists n', db2. split; [done|]. split; [done|]. split; [congruence|].
  split; [lia|]. split.
  { intros fileId [Hne Hnot]%not_elem_of_cons.
    rewrite Hframe2 by done. by apply Hframe1. }
  intros f [->|Hf]%elem_of_cons.
  - split.
    + intros latest more Hstaged Hversions.
      destruct (Hyes1 latest more Hstaged Hversions) as [_ (nv & Hrows & Hnv)].
      exists nv. split; [|done]. rewrite Hframe2 by done. exact Hrows.
    + intros Hskip. destruct (Hno1 Hskip) as [_ ->]. by apply Hframe2.
  - assert (Hne : FileRecord.id f ≠ FileRecord.id file).
    { intros Heq. apply Hfresh. rewrite <- Heq. by apply list_elem_of_fmap_2. }
    pose proof (Hframe1 _ Hne) as Hrows1.
    pose proof (getFileVersions_rows db db1 _ None Hrows1) as Hsame.
    destruct (Hfiles2 f Hf) as [Hyes2 Hno2]. rewrite Hsame in Hyes2, Hno2. split.
    + intros latest more Hstaged Hversions.
      destruct (Hyes2 latest more Hstaged Hversions) as (nv & Hrows & Hc & Hfid & Hid).
      exists nv. split; [by rewrite Hrows, Hrows1|]. split; [done|]. split; [done|lia].
    + intros Hskip. by rewrite Hno2.
Qed.

End CommitPass.

Lemma sort_desc_head_max l :
  match Store.sort_desc l with
  | [] => l = []
  | v :: _ =>
      v ∈ l ∧
      ∀ x, x ∈ l → VersionRecord.version_number x ≤ VersionRecord.version_number v
  end.
Proof.
  induction l as [|x l IH]; simpl; [done|].
  destruct (Store.sort_desc l) as [|y ys]; simpl.
  - subst. split; [by left|]. by intros ? ->%list_elem_of_singleton.
  - destruct IH as [Hy Hmax].
    destruct (VersionRecord.version_number y <=? VersionRecord.version_number x) eqn:Hle.
    + apply Nat.leb_le in Hle. split; [by left|].
      intros z [->|Hz]%elem_of_cons; [done|]. specialize (Hmax z Hz). lia.
    + apply Nat.leb_gt in Hle. split; [by right|].
      intros z [->|Hz]%elem_of_cons; [lia|]. by apply Hmax.
Qed.

(** The first row [getFileVersions] returns is the File's row with the
    highest [version_number]. *)
Lemma getFileVersions_latest db fileId latest rest :
  Store.getFileVersions db fileId None = latest :: rest →
  latest ∈ Store.rows_of fileId (versions db) ∧
  ∀ v, v ∈ Store.rows_of fileId (versions db) →
       VersionRecord.version_number v ≤ VersionRecord.version_number latest.
Proof.
  unfold Store.getFileVersions. intros Hsort.
  pose proof (sort_desc_head_max (Store.rows_of fileId (versions db))) as Hmax.
  by rewrite Hsort in Hmax.
Qed.

Section CommitRound.

Context `{Host}.

Lemma annotated_created commitMessage autoCleanup db db' fileId latest nv :
  well_formed db →
  annotated commitMessage autoCleanup db db' fileId latest nv →
  created db db' fileId = [nv].
Proof.
  intros (_ & _ & _ & Hle & _) (Hrows & _ & _ & Hid). unfold created.
  rewrite Forall_forall in Hle.
  rewrite Hrows, filter_app, filter_singleton_True.
  - rewrite filter_none; [done|]. intros r Hr Hnot. apply Hnot.
    destruct autoCleanup; [by apply elem_of_nil in Hr|].
    apply list_elem_of_filter in Hr as [_ Hr]. by apply list_elem_of_fmap_2.
  - intros (r & Heq & Hr)%list_elem_of_fmap. apply Hle in Hr. lia.
Qed.

Lemma unchanged_created db db' fileId :
  Store.rows_of fileId (versions db') = Store.rows_of fileId (versions db) →
  created db db' fileId = [].
Proof.
  intros Hrows. unfold created. rewrite Hrows. apply filter_none.
  intros r Hr Hnot. apply Hnot.
  apply list_elem_of_filter in Hr as [_ Hr]. by apply list_elem_of_fmap_2.
Qed.

Lemma getLatestCommitMessage_Ok env stdout :
  git_log env = Ok stdout → getLatestCommitMessage env = trim stdout.
Proof. unfold getLatestCommitMessage. by intros ->. Qed.

(** The store after a round that detects a commit is the store after the
    loop of [handleGitCommit]. *)
Lemma onDidChange_commit repository env w commit paths stdout autoCleanup :
  isProcessingCommit w = false →
  HEAD_commit repository = Some commit →
  commit ≠ EmptyString →
  lastCommitByRepo w !! rootUri_fsPath repository ≠ Some commit →
  indexChanges repository = Ok paths →
  stagedFiles paths ≠ ∅ →
  git_log env = Ok stdout →
  trim stdout ≠ EmptyString →
  autoCleanupAfterCommit env = Ok autoCleanup →
  fileVersionDB (onDidChange repository env w)
  = snd (commit_loop (stagedFiles paths) (trim stdout) autoCleanup (now env)
           (Store.getAllFiles (fileVersionDB w)) 0 (fileVersionDB w)).
Proof.
  intros Hguard Hhead Hcommit Hlast Hindex Hstaged Hlog Htrim Hauto.
  unfold onDidChange. rewrite Hguard, Hhead, Hindex.
  apply truthy_Some in Hcommit as ->. cbn [negb].
  cbn [lastCommitByRepo with_staged with_guard with_lastCommit stagedChangesMap].
  rewrite bool_decide_eq_true_2 by done.
  rewrite (getLatestCommitMessage_Ok _ _ Hlog).
  apply truthy_Some in Htrim as Htruthy. rewrite Htruthy. cbn [negb].
  rewrite lookup_insert_eq. cbn [StagedInfo.files].
  assert (Hsize : (0 <? size (stagedFiles paths)) = true).
  { apply Nat.ltb_lt. destruct (decide (size (stagedFiles paths) = 0)) as [H0|]; [|lia].
    destruct Hstaged. apply leibniz_equiv. by apply size_empty_iff. }
  rewrite Hsize. unfold handleGitCommit. rewrite Htruthy, Htruthy. cbn [negb orb].
  rewrite trim_idem, bool_decide_eq_false_2 by done. rewrite Hauto.
  unfold commit_pass. cbn [fileVersionDB].
  destruct (commit_loop _ _ _ _ _ _ _) as [[n|e] db']; [|done].
  by destruct (0 <? n).
Qed.

End CommitRound.

Section CommitClaims.

Context `{Host}.

(** C1: when a commit is detected (the guard is clear, HEAD has a new
    hash, the commit message is not empty and the staged set is not
    empty), every File whose normalized path is staged and which has a
    Version gets exactly one new Version, whose content is the marker line
    with the commit message followed by the content of its prior latest
    Version; a File that is not staged, or has no Version, gets no new
    Version (and keeps the Versions it had). *)
Theorem C1_commit_annotates_staged_files
    repository env w commit paths stdout autoCleanup :
  well_formed (fileVersionDB w) →
  isProcessingCommit w = false →
  HEAD_commit repository = Some commit →
  commit ≠ EmptyString →
  lastCommitByRepo w !! rootUri_fsPath repository ≠ Some commit →
  indexChanges repository = Ok paths →
  stagedFiles paths ≠ ∅ →
  git_log env = Ok stdout →
  trim stdout ≠ EmptyString →
  autoCleanupAfterCommit env = Ok autoCleanup →
  ∀ f, f ∈ Store.getAllFiles (fileVersionDB w) →
    (∀ latest rest,
       normalize (FileRecord.file_path f) ∈ stagedFiles paths →
       Store.getFileVersions (fileVersionDB w) (FileRecord.id f) None = latest :: rest →
       ∃ nv,
         created (fileVersionDB w) (fileVersionDB (onDidChange repository env w))
           (FileRecord.id f) = [nv] ∧
         VersionRecord.content nv
         = "/* Git commit: " +:+ trim stdout +:+ " */" +:+ NL
           +:+ VersionRecord.content latest) ∧
    (normalize (FileRecord.file_path f) ∉ stagedFiles paths ∨
     Store.getFileVersions (fileVersionDB w) (FileRecord.id f) None = [] →
     created (fileVersionDB w) (fileVersionDB (onDidChange repository env w))
       (FileRecord.id f) = [] ∧
     Store.getFileVersions (fileVersionDB (onDidChange repository env w))
       (FileRecord.id f) None
     = Store.getFileVersions (fileVersionDB w) (FileRecord.id f) None).
Proof.
  intros Hwf Hguard Hhead Hcommit Hlast Hindex Hstaged Hlog Htrim Hauto f Hf.
  rewrite (onDidChange_commit repository env w commit paths stdout autoCleanup) by done.
  destruct (commit_loop_spec (stagedFiles paths) (trim stdout) autoCleanup (now env)
              (Store.getAllFiles (fileVersionDB w)) 0 (fileVersionDB w))
    as (n & db' & -> & _ & _ & _ & _ & Hfiles).
  - by destruct Hwf.
  - done.
  - intros g Hg. by apply list_elem_of_fmap_2.
  - destruct (Hfiles f Hf) as [Hyes Hno]. cbn [snd]. split.
    + intros latest rest Hin Hversions.
      destruct (Hyes latest rest Hin Hversions) as (nv & Hnv).
      exists nv. split; [by eapply annotated_created|].
      destruct Hnv as (_ & -> & _). apply marker_app.
    + intros Hskip. specialize (Hno Hskip). split.
      * by apply unchanged_created.
      * by apply getFileVersions_rows.
Qed.

(** C2: with the auto-cleanup setting enabled, after a commit-annotation
    pass every processed File (staged, with at least one prior Version)
    has exactly one Version left, the newly created annotated one; every
    Version it had before is gone from the store. *)
Theorem C2_auto_cleanup_collapses_history
    repository env w commit paths stdout :
  well_formed (fileVersionDB w) →
  isProcessingCommit w = false →
  HEAD_commit repository = Some commit →
  commit ≠ EmptyString →
  lastCommitByRepo w !! rootUri_fsPath repository ≠ Some commit →
  indexChanges repository = Ok paths →
  stagedFiles paths ≠ ∅ →
  git_log env = Ok stdout →
  trim stdout ≠ EmptyString →
  autoCleanupAfterCommit env = Ok true →
  ∀ f latest rest,
    f ∈ Store.getAllFiles (fileVersionDB w) →
    normalize (FileRecord.file_path f) ∈ stagedFiles paths →
    Store.getFileVersions (fileVersionDB w) (FileRecord.id f) None = latest :: rest →
    ∃ nv,
      Store.getFileVersions (fileVersionDB (onDidChange repository env w))
        (FileRecord.id f) None = [nv] ∧
      VersionRecord.content nv
      = "/* Git commit: " +:+ trim stdout +:+ " */" +:+ NL
        +:+ VersionRecord.content latest ∧
      (VersionRecord.id nv ∉ map VersionRecord.id (versions (fileVersionDB w))) ∧
      (∀ v, v ∈ Store.getFileVersions (fileVersionDB w) (FileRecord.id f) None →
            v ∉ versions (fileVersionDB (onDidChange repository env w))).
Proof.
  intros Hwf Hguard Hhead Hcommit Hlast Hindex Hstaged Hlog Htrim Hauto
    f latest rest Hf Hin Hversions.
  rewrite (onDidChange_commit repository env w commit paths stdout true) by done.
  destruct (commit_loop_spec (stagedFiles paths) (trim stdout) true (now env)
              (Store.getAllFiles (fileVersionDB w)) 0 (fileVersionDB w))
    as (n & db' & -> & _ & _ & _ & _ & Hfiles).
  - by destruct Hwf.
  - done.
  - intros g Hg. by apply list_elem_of_fmap_2.
  - destruct (Hfiles f Hf) as [Hyes _]. cbn [snd].
    destruct (Hyes latest rest Hin Hversions) as (nv & Hrows & Hcontent & Hfid & Hid).
    assert (Hold : ∀ r, r ∈ versions (fileVersionDB w) →
                        VersionRecord.id r ≤ versions_seq (fileVersionDB w)).
    { destruct Hwf as (_ & _ & _ & Hle & _). by rewrite Forall_forall in Hle. }
    exists nv. split; [|split; [by rewrite Hcontent, marker_app|split]].
    + unfold Store.getFileVersions. by rewrite Hrows.
    + intros (r & Heq & Hr)%list_elem_of_fmap. apply Hold in Hr. lia.
    + intros v Hv Hv'.
      rewrite (getFileVersions_perm (fileVersionDB w) (FileRecord.id f)) in Hv.
      apply list_elem_of_filter in Hv as [Hvf Hv].
      assert (Hv'' : v ∈ Store.rows_of (FileRecord.id f) (versions db'))
        by (by apply list_elem_of_filter).
      rewrite Hrows in Hv''. apply list_elem_of_singleton in Hv'' as ->.
      apply Hold in Hv. lia.
Qed.

End CommitClaims.

Lemma exampleDB_well_formed : well_formed exampleDB.
Proof. repeat split; compute_done. Qed.

Lemma C1_witness :
  ∃ nv,
    created exampleDB
      (fileVersionDB (onDidChange (H:=exampleHost) exampleRepository (exampleEnv false)
                        exampleWorld)) 1 = [nv] ∧
    VersionRecord.content nv = "/* Git commit: fix bug */" +:+ NL +:+ "two".
Proof.
  destruct (C1_commit_annotates_staged_files (H:=exampleHost)
              exampleRepository (exampleEnv false) exampleWorld
              "h2" ["a.txt"; "b.txt"; "d.txt"] ("fix bug" +:+ NL) false)
    with (f := FileRecord.mk 1 "a.txt" (Some 2)) as [Hyes _].
  - exact exampleDB_well_formed.
  - reflexivity.
  - reflexivity.
  - discriminate.
  - vm_compute. discriminate.
  - reflexivity.
  - apply (bool_decide_unpack _). vm_compute. exact I.
  - reflexivity.
  - vm_compute. discriminate.
  - reflexivity.
  - vm_compute. left.
  - apply (Hyes (VersionRecord.mk 2 1 "two" "t1" 2 None)
                [VersionRecord.mk 1 1 "one" "t0" 1 None]).
    + apply (bool_decide_unpack _). vm_compute. exact I.
    + reflexivity.
Defined.

(** ** The repository watcher *)

Section Watcher.

Context `{Host}.

Lemma commit_pass_frame changedFiles commitMessage autoCleanup now w :
  let w' := fst (commit_pass changedFiles commitMessage autoCleanup now w) in
  isProcessingCommit w' = isProcessingCommit w ∧
  lastCommitByRepo w' = lastCommitByRepo w ∧
  stagedChangesMap w' = stagedChangesMap w.
Proof.
  unfold commit_pass.
  destruct (commit_loop _ _ _ _ _ _ _) as [[n|e] db']; [|done].
  by destruct (0 <? n).
Qed.

Lemma handleGitCommit_frame changedFiles commitMessage env w :
  let w' := handleGitCommit changedFiles commitMessage env w in
  isProcessingCommit w' = isProcessingCommit w ∧
  lastCommitByRepo w' = lastCommitByRepo w ∧
  stagedChangesMap w' = stagedChangesMap w.
Proof.
  unfold handleGitCommit.
  destruct (if truthy commitMessage then commitMessage
            else Some (getLatestCommitMessage env)) as [message|]; [|done].
  destruct (negb (truthy (Some message)) || bool_decide (trim message = EmptyString));
    [done|].
  destruct (autoCleanupAfterCommit env); [|done]. apply commit_pass_frame.
Qed.

Lemma handleGitCommit_Some changedFiles message env w :
  truthy (Some message) = true →
  handleGitCommit changedFiles (Some message) env w
  = if bool_decide (trim message = EmptyString) then w
    else match autoCleanupAfterCommit env with
         | Err _ => w
         | Ok autoCleanup =>
             fst (commit_pass changedFiles message autoCleanup (now env) w)
         end.
Proof. intros Htruthy. unfold handleGitCommit. by rewrite !Htruthy. Qed.

(** The turns of a round, taken one after the other, are the handler run
    to completion. *)
Lemma onDidChange_turns repository env w :
  onDidChange repository env w = complete env (notify repository w).
Proof.
  unfold onDidChange, notify.
  destruct (isProcessingCommit w) eqn:Hguard; [done|].
  destruct (HEAD_commit repository) as [commit|]; [|done].
  destruct (negb (truthy (Some commit))); [done|].
  destruct (indexChanges repository) as [paths|]; [|done].
  case_bool_decide; [|done].
  cbn [complete resume].
  destruct (negb (truthy (Some (getLatestCommitMessage env)))) eqn:Hmsg; [done|].
  destruct (stagedChangesMap _ !! _) as [stagedInfo|]; [|done].
  destruct (0 <? size (StagedInfo.files stagedInfo)); [|done].
  apply negb_false_iff in Hmsg. rewrite (handleGitCommit_Some _ _ _ _ Hmsg).
  case_bool_decide; [done|].
  cbn [resume].
  destruct (autoCleanupAfterCommit env) as [autoCleanup|]; [|done].
  destruct (commit_pass _ _ _ _ _) as [w' []]; done.
Qed.

Lemma notify_guard repository w w' p :
  isProcessingCommit w = false →
  notify repository w = (w', p) →
  isProcessingCommit w' = bool_decide (p ≠ None).
Proof.
  intros Hguard. unfold notify. rewrite Hguard.
  destruct (HEAD_commit repository) as [commit|]; [|by intros [= <- <-]].
  destruct (negb (truthy (Some commit))); [by intros [= <- <-]|].
  destruct (indexChanges repository) as [paths|]; [|by intros [= <- <-]].
  case_bool_decide; by intros [= <- <-].
Qed.

Lemma resume_guard p env w w' p' :
  resume p env w = (w', p') →
  isProcessingCommit w' = match p' with Some _ => isProcessingCommit w | None => false end.
Proof.
  destruct p as [repoPath|repoPath changedFiles commitMessage|repoPath]; cbn [resume].
  - destruct (negb (truthy (Some (getLatestCommitMessage env)))); [by intros [= <- <-]|].
    destruct (stagedChangesMap w !! repoPath) as [stagedInfo|]; [|by intros [= <- <-]].
    destruct (0 <? size (StagedInfo.files stagedInfo)); [|by intros [= <- <-]].
    case_bool_decide; by intros [= <- <-].
  - destruct (autoCleanupAfterCommit env) as [autoCleanup|]; [|by intros [= <- <-]].
    pose proof (commit_pass_frame changedFiles commitMessage autoCleanup (now env) w)
      as [Hg _].
    destruct (commit_pass _ _ _ _ _) as [w1 []]; by intros [= <- <-].
  - by intros [= <- <-].
Qed.

Lemma onWillSaveTextDocument_frame e env w :
  let w' := onWillSaveTextDocument e env w in
  isProcessingCommit w' = isProcessingCommit w ∧
  lastCommitByRepo w' = lastCommitByRepo w ∧
  stagedChangesMap w' = stagedChangesMap w.
Proof.
  unfold onWillSaveTextDocument.
  destruct (match Store.getFile _ _ with Some _ => _ | None => _ end) as [[file|] db1];
    [|done].
  destruct (getSaveAllChanges env) as [saveAllChanges|]; [|done].
  destruct (match Store.getFileVersions db1 _ _ with [] => false | _ => _ end); [done|].
  destruct (if negb saveAllChanges then _ else _); [done|].
  by destruct (Store.createVersion _ _ _ _ _) as [[] ?].
Qed.

Lemma step_guard_held c ev : guard_held c → guard_held (step c ev).
Proof.
  destruct c as [w ps]. unfold guard_held. cbn [inflight world].
  destruct ev as [repository|i env|e env]; cbn [step inflight world].
  - destruct ps as [|p [|]]; [| |done]; intros Hguard.
    + destruct (notify repository w) as [w' p'] eqn:Hnotify.
      pose proof (notify_guard _ _ _ _ Hguard Hnotify) as Hg. by destruct p'.
    + unfold notify. by rewrite Hguard.
  - destruct ps as [|p [|]]; [| |done]; intros Hguard.
    + done.
    + destruct i as [|i]; [|done]. cbn [lookup list_lookup].
      destruct (resume p env w) as [w' p'] eqn:Hresume.
      pose proof (resume_guard _ _ _ _ _ Hresume) as Hg.
      destruct p'; cbn; congruence.
  - pose proof (onWillSaveTextDocument_frame e env w) as [Hg _]. cbn zeta in Hg.
    rewrite Hg. by destruct ps as [|p [|]].
Qed.

Lemma run_guard_held c evs : guard_held c → guard_held (run c evs).
Proof.
  revert c. induction evs as [|ev evs IH]; intros c Hc; [done|].
  apply IH, step_guard_held, Hc.
Qed.

End Watcher.

Section WatcherClaims.

Context `{Host}.

(** C3: a state-change notification that arrives while the guard
    [isProcessingCommit] is set is a complete no-op: the handler ends in
    its first turn, the world (the store, [lastCommitByRepo],
    [stagedChangesMap], the guard) is what it was, nothing is left in
    flight, and whatever happens afterwards happens as if the notification
    had not been delivered; so no second annotated Version can come from
    it. *)
Theorem C3_notification_ignored_while_processing repository env w :
  isProcessingCommit w = true →
  notify repository w = (w, None) ∧
  onDidChange repository env w = w ∧
  ∀ pending evs,
    run (mkConfig w pending) (Notification repository :: evs)
    = run (mkConfig w pending) evs.
Proof.
  intros Hguard. split; [|split].
  - unfold notify. by rewrite Hguard.
  - unfold onDidChange. by rewrite Hguard.
  - intros pending evs. unfold run. cbn [foldl step world inflight].
    unfold notify. rewrite Hguard. cbn [option_list]. by rewrite app_nil_r.
Qed.

Lemma onDidChange_guard repository env w :
  isProcessingCommit w = false →
  isProcessingCommit (onDidChange repository env w) = false.
Proof.
  intros Hguard. unfold onDidChange. rewrite Hguard.
  destruct (HEAD_commit repository) as [commit|]; [|done].
  destruct (negb (truthy (Some commit))); [done|].
  destruct (indexChanges repository) as [paths|]; [|done].
  by case_bool_decide.
Qed.

(** C4 (amended): an invocation of the handler that is not ignored by the
    guard leaves the guard clear when it completes, whether it ends
    normally, aborts early or an error is thrown: this holds of the
    handler run to completion, of a first turn that ends the invocation,
    and of every later turn that ends it.  An invocation ignored by the
    guard leaves the guard as it found it.  In every interleaving of
    notifications, resumptions and saves, the guard is set exactly while a
    round is suspended, so it never remains stuck. *)
Theorem C4_guard_cleared_by_every_round :
  (∀ repository env w,
     isProcessingCommit w = false →
     isProcessingCommit (onDidChange repository env w) = false) ∧
  (∀ repository w w',
     isProcessingCommit w = false →
     notify repository w = (w', None) →
     isProcessingCommit w' = false) ∧
  (∀ p env w w',
     resume p env w = (w', None) →
     isProcessingCommit w' = false) ∧
  (∀ repository w, isProcessingCommit w = true → notify repository w = (w, None)) ∧
  (∀ w evs,
     isProcessingCommit (world (run (idle w) evs)) = true
     ↔ inflight (run (idle w) evs) ≠ []).
Proof.
  split; [exact onDidChange_guard|]. split; [|split; [|split]].
  - intros repository w w' Hguard Hnotify.
    by rewrite (notify_guard _ _ _ _ Hguard Hnotify).
  - intros p env w w' Hresume. by rewrite (resume_guard _ _ _ _ _ Hresume).
  - intros repository w Hguard. unfold notify. by rewrite Hguard.
  - intros w evs.
    assert (Hinv : guard_held (run (idle w) evs)) by by apply run_guard_held.
    unfold guard_held in Hinv.
    destruct (inflight (run (idle w) evs)) as [|p [|]]; [| |done].
    + rewrite Hinv. split; [done|]. by intros [].
    + by rewrite Hinv.
Qed.

(** C5 (amended): on every notification that is not ignored by the guard
    and where a HEAD commit exists, the handler overwrites the staged set
    recorded for the repository with the currently staged paths [paths]
    (relative to the workspace and normalized) in its first turn, before
    the hashes are compared and whatever the comparison gives; when the
    HEAD hash is the one already recorded, that is all the handler does:
    the store, [lastCommitByRepo] and the guard are what they were and the
    handler does not suspend. *)
Theorem C5_staged_set_overwritten_before_comparison repository env w commit paths :
  isProcessingCommit w = false →
  HEAD_commit repository = Some commit →
  commit ≠ EmptyString →
  indexChanges repository = Ok paths →
  stagedChangesMap (fst (notify repository w))
  = <[rootUri_fsPath repository := StagedInfo.mk (stagedFiles paths) EmptyString]>
      (stagedChangesMap w) ∧
  (lastCommitByRepo w !! rootUri_fsPath repository = Some commit →
   notify repository w
   = (with_staged
        (<[rootUri_fsPath repository := StagedInfo.mk (stagedFiles paths) EmptyString]>
           (stagedChangesMap w)) w, None) ∧
   onDidChange repository env w
   = with_staged
       (<[rootUri_fsPath repository := StagedInfo.mk (stagedFiles paths) EmptyString]>
          (stagedChangesMap w)) w).
Proof.
  intros Hguard Hhead Hcommit Hindex.
  apply truthy_Some in Hcommit as Htruthy.
  assert (Hnotify : ∀ b : bool, b = bool_decide
            (lastCommitByRepo w !! rootUri_fsPath repository ≠ Some commit) →
          notify repository w
          = if b then
              (with_lastCommit
                 (<[rootUri_fsPath repository := commit]> (lastCommitByRepo w))
                 (with_guard true
                    (with_staged
                       (<[rootUri_fsPath repository :=
                            StagedInfo.mk (stagedFiles paths) EmptyString]>
                          (stagedChangesMap w)) w)),
               Some (AwaitCommitMessage (rootUri_fsPath repository)))
            else
              (with_staged
                 (<[rootUri_fsPath repository :=
                      StagedInfo.mk (stagedFiles paths) EmptyString]>
                    (stagedChangesMap w)) w, None)).
  { intros b ->. unfold notify. by rewrite Hguard, Hhead, Hindex, Htruthy. }
  split.
  - rewrite (Hnotify _ eq_refl). by case_bool_decide.
  - intros Hsame.
    assert (Hn : notify repository w
                 = (with_staged
                      (<[rootUri_fsPath repository :=
                           StagedInfo.mk (stagedFiles paths) EmptyString]>
                         (stagedChangesMap w)) w, None)).
    { rewrite (Hnotify _ eq_refl). rewrite bool_decide_eq_false_2; [done|]. by intros []. }
    split; [done|]. by rewrite onDidChange_turns, Hn.
Qed.

(** What the handler does when a new HEAD hash comes without a usable
    commit message. *)
Lemma onDidChange_no_message repository env w commit paths :
  isProcessingCommit w = false →
  HEAD_commit repository = Some commit →
  commit ≠ EmptyString →
  lastCommitByRepo w !! rootUri_fsPath repository ≠ Some commit →
  indexChanges repository = Ok paths →
  getLatestCommitMessage env = EmptyString →
  onDidChange repository env w
  = mkWorld (fileVersionDB w)
      (<[rootUri_fsPath repository := commit]> (lastCommitByRepo w))
      (<[rootUri_fsPath repository := StagedInfo.mk (stagedFiles paths) EmptyString]>
         (stagedChangesMap w))
      false (refreshes w).
Proof.
  intros Hguard Hhead Hcommit Hlast Hindex Hmsg.
  apply truthy_Some in Hcommit as Htruthy.
  unfold onDidChange. rewrite Hguard, Hhead, Hindex, Htruthy, Hmsg. cbn [negb truthy].
  cbn [lastCommitByRepo with_staged]. by rewrite bool_decide_eq_true_2.
Qed.

(** C6: when a new commit hash is detected but the commit-message query
    gives an empty message (or fails), the round ends with the store as it
    was (no Version created or deleted for any File), the guard clear, and
    the staged set recorded at this notification still in place: it is
    not cleared. *)
Theorem C6_empty_message_aborts_round repository env w commit paths :
  isProcessingCommit w = false →
  HEAD_commit repository = Some commit →
  commit ≠ EmptyString →
  lastCommitByRepo w !! rootUri_fsPath repository ≠ Some commit →
  indexChanges repository = Ok paths →
  getLatestCommitMessage env = EmptyString →
  fileVersionDB (onDidChange repository env w) = fileVersionDB w ∧
  isProcessingCommit (onDidChange repository env w) = false ∧
  stagedChangesMap (onDidChange repository env w) !! rootUri_fsPath repository
  = Some (StagedInfo.mk (stagedFiles paths) EmptyString) ∧
  refreshes (onDidChange repository env w) = refreshes w.
Proof.
  intros Hguard Hhead Hcommit Hlast Hindex Hmsg.
  rewrite (onDidChange_no_message repository env w commit paths) by done.
  cbn [fileVersionDB isProcessingCommit stagedChangesMap refreshes].
  by rewrite lookup_insert_eq.
Qed.

(** A notification whose HEAD hash is the recorded one changes neither
    the store, nor the recorded hash, nor the guard. *)
Lemma onDidChange_same_head repository env w commit :
  HEAD_commit repository = Some commit →
  lastCommitByRepo w !! rootUri_fsPath repository = Some commit →
  fileVersionDB (onDidChange repository env w) = fileVersionDB w ∧
  lastCommitByRepo (onDidChange repository env w) = lastCommitByRepo w ∧
  isProcessingCommit (onDidChange repository env w) = isProcessingCommit w.
Proof.
  intros Hhead Hsame. unfold onDidChange. rewrite Hhead.
  destruct (isProcessingCommit w) eqn:Hguard; [done|].
  destruct (negb (truthy (Some commit))); [done|].
  destruct (indexChanges repository) as [paths|]; [|done].
  cbn [lastCommitByRepo with_staged]. rewrite bool_decide_eq_false_2; [done|].
  by intros [].
Qed.


End WatcherClaims.

Lemma C2_witness :
  ∃ nv,
    Store.getFileVersions
      (fileVersionDB (onDidChange (H:=exampleHost) exampleRepository (exampleEnv true)
                        exampleWorld)) 1 None = [nv] ∧
    VersionRecord.content nv = "/* Git commit: fix bug */" +:+ NL +:+ "two".
Proof.
  destruct (C2_auto_cleanup_collapses_history (H:=exampleHost)
              exampleRepository (exampleEnv true) exampleWorld
              "h2" ["a.txt"; "b.txt"; "d.txt"] ("fix bug" +:+ NL))
    with (f := FileRecord.mk 1 "a.txt" (Some 2))
         (latest := VersionRecord.mk 2 1 "two" "t1" 2 None)
         (rest := [VersionRecord.mk 1 1 "one" "t0" 1 None])
    as (nv & Hversions & Hcontent & _).
  - exact exampleDB_well_formed.
  - reflexivity.
  - reflexivity.
  - discriminate.
  - vm_compute. discriminate.
  - reflexivity.
  - apply (bool_decide_unpack _). vm_compute. exact I.
  - reflexivity.
  - vm_compute. discriminate.
  - reflexivity.
  - vm_compute. left.
  - apply (bool_decide_unpack _). vm_compute. exact I.
  - reflexivity.
  - exists nv. split; [exact Hversions|exact Hcontent].
Defined.

Lemma C3_witness :
  onDidChange (H:=exampleHost) exampleRepository (exampleEnv false)
    (with_guard true exampleWorld)
  = with_guard true exampleWorld.
Proof.
  apply (C3_notification_ignored_while_processing (H:=exampleHost)
           exampleRepository (exampleEnv false) (with_guard true exampleWorld)).
  reflexivity.
Defined.

(** The same notification delivered twice, the second time while the round
    of the first is suspended: the round annotates [a.txt] once. *)
Example duplicate_notification_annotates_once :
  length
    (created exampleDB
       (fileVersionDB
          (world
             (run (H:=exampleHost) (idle exampleWorld)
                [ Notification exampleRepository;
                  Notification exampleRepository;
                  Resumption 0 (exampleEnv false);
                  Resumption 0 (exampleEnv false);
                  Resumption 0 (exampleEnv false) ])))
       1)
  = 1 ∧
  inflight
    (run (H:=exampleHost) (idle exampleWorld)
       [ Notification exampleRepository;
         Notification exampleRepository;
         Resumption 0 (exampleEnv false);
         Resumption 0 (exampleEnv false);
         Resumption 0 (exampleEnv false) ])
  = [].
Proof. split; reflexivity. Qed.

(** C4, as stated, fails: a notification delivered while a round is
    suspended is handled to its end at once and leaves the guard set. *)
Lemma C4_counterexample :
  notify (H:=exampleHost) exampleRepository_later (world suspendedConfig)
  = (world suspendedConfig, None) ∧
  isProcessingCommit (world suspendedConfig) = true.
Proof. split; reflexivity. Qed.

Lemma C4_witness :
  isProcessingCommit
    (onDidChange (H:=exampleHost) exampleRepository (exampleEnv true) exampleWorld)
  = false.
Proof.
  apply (proj1 (C4_guard_cleared_by_every_round (H:=exampleHost))). reflexivity.
Defined.

(** C5, as stated, fails: a notification delivered while a round is
    suspended finds a HEAD commit and does not overwrite the staged set. *)
Lemma C5_counterexample :
  HEAD_commit exampleRepository_later = Some "h2" ∧
  indexChanges exampleRepository_later = Ok ["c.txt"] ∧
  stagedChangesMap
    (fst (notify (H:=exampleHost) exampleRepository_later (world suspendedConfig)))
  !! "/repo"
  = Some (StagedInfo.mk (stagedFiles (H:=exampleHost) ["a.txt"; "b.txt"; "d.txt"])
            EmptyString) ∧
  stagedFiles (H:=exampleHost) ["a.txt"; "b.txt"; "d.txt"]
  ≠ stagedFiles (H:=exampleHost) ["c.txt"].
Proof.
  split; [reflexivity|]. split; [reflexivity|]. split; [reflexivity|].
  apply (bool_decide_unpack _). vm_compute. exact I.
Qed.

Lemma C5_witness :
  onDidChange (H:=exampleHost) exampleRepository_later (exampleEnv true)
    (mkWorld exampleDB {[ "/repo" := "h2" ]} ∅ false 0)
  = mkWorld exampleDB {[ "/repo" := "h2" ]}
      {[ "/repo" := StagedInfo.mk (stagedFiles (H:=exampleHost) ["c.txt"]) EmptyString ]}
      false 0.
Proof.
  destruct (C5_staged_set_overwritten_before_comparison (H:=exampleHost)
              exampleRepository_later (exampleEnv true)
              (mkWorld exampleDB {[ "/repo" := "h2" ]} ∅ false 0) "h2" ["c.txt"])
    as [_ Hsame].
  - reflexivity.
  - reflexivity.
  - discriminate.
  - reflexivity.
  - destruct Hsame as [_ ->]; reflexivity.
Defined.

Lemma C6_witness :
  fileVersionDB (onDidChange (H:=exampleHost) exampleRepository exampleEnv_blank_message
                   exampleWorld) = exampleDB ∧
  isProcessingCommit (onDidChange (H:=exampleHost) exampleRepository exampleEnv_blank_message
                        exampleWorld) = false.
Proof.
  destruct (C6_empty_message_aborts_round (H:=exampleHost)
              exampleRepository exampleEnv_blank_message exampleWorld
              "h2" ["a.txt"; "b.txt"; "d.txt"])
    as (Hdb & Hguard & _).
  - reflexivity.
  - reflexivity.
  - discriminate.
  - vm_compute. discriminate.
  - reflexivity.
  - reflexivity.
  - split; [exact Hdb|exact Hguard].
Defined.



(** ** The save handler *)

Lemma getFile_Some db path f :
  Store.getFile db path = Some f → f ∈ files db ∧ FileRecord.file_path f = path.
Proof.
  unfold Store.getFile. intros [Hin Hpath]%find_some.
  split; [by apply list_elem_of_In|]. by apply bool_decide_eq_true in Hpath.
Qed.

Lemma getFile_is_Some db path :
  is_Some (Store.getFile db path) ↔ path ∈ map FileRecord.file_path (files db).
Proof.
  unfold Store.getFile. induction (files db) as [|g fs IH]; simpl.
  - split; [by intros [? [=]]|by intros ?%elem_of_nil].
  - case_bool_decide as Hg.
    + split; [|by eauto]. intros _. rewrite Hg. by left.
    + rewrite IH, elem_of_cons. split; [by right|]. by intros [?|?].
Qed.

Lemma getFileVersions_limit db fileId :
  Store.getFileVersions db fileId (Some 1)
  = match Store.getFileVersions db fileId None with
    | [] => []
    | v :: _ => [v]
    end.
Proof. unfold Store.getFileVersions. by destruct (Store.sort_desc _). Qed.

(** A File that has just been created has no Version. *)
Lemma createFile_no_versions db path :
  well_formed db →
  Store.getFile db path = None →
  Store.getFileVersions (snd (Store.createFile path db)) (S (files_seq db)) None = [].
Proof.
  intros (_ & Hfs & _ & _ & Hfk) Hnone. rewrite createFile_spec by done.
  unfold Store.getFileVersions. cbn [snd versions].
  unfold Store.rows_of. rewrite filter_none; [done|].
  intros v Hv Hfid. rewrite Forall_forall in Hfk. rewrite Forall_forall in Hfs.
  apply Hfk, list_elem_of_fmap in Hv as (f & Heq & Hf). apply Hfs in Hf. lia.
Qed.

(** *** The unified diff format *)

Lemma occurrences_app c (a b : string) :
  occurrences c (a +:+ b) = occurrences c a + occurrences c b.
Proof.
  induction a as [|x a IH]; [done|].
  rewrite string_app_cons. cbn [occurrences]. rewrite IH. lia.
Qed.

Lemma split_line sep (line rest : string) :
  occurrences sep line = 0 →
  split sep (line +:+ String sep rest) = line :: split sep rest.
Proof.
  induction line as [|c line IH].
  - intros _. rewrite string_app_nil. cbn [split]. by rewrite Ascii.eqb_refl.
  - rewrite string_app_cons. cbn [split occurrences].
    destruct (Ascii.eqb c sep); [done|]. intros Hline. by rewrite IH.
Qed.

Lemma split_join_lines (line : string) (rest : list string) :
  Forall (fun line => occurrences nl line = 0) (line :: rest) →
  split nl (join NL (line :: rest) +:+ NL) = (line :: rest) ++ [EmptyString].
Proof.
  revert line. induction rest as [|line' rest IH]; intros line Hlines.
  - apply Forall_cons in Hlines as [Hline _].
    cbn [join app]. unfold NL. by rewrite split_line.
  - apply Forall_cons in Hlines as [Hline Hrest].
    change (join NL (line :: line' :: rest))
      with (line +:+ NL +:+ join NL (line' :: rest)).
    rewrite !string_app_assoc. unfold NL at 1. rewrite string_app_cons, string_app_nil.
    rewrite split_line by done. by rewrite IH.
Qed.

Lemma print_line_no_newline l :
  occurrences nl (line_text l) = 0 → occurrences nl (print_line l) = 0.
Proof.
  destruct l as [range|text|text|text|]; cbn [print_line line_text]; intros Htext;
    rewrite ?occurrences_app, ?Htext; reflexivity.
Qed.

(** The lines of a printed patch. *)
Lemma split_formatPatch fileName body :
  occurrences nl fileName = 0 →
  Forall (fun l => occurrences nl (line_text l) = 0) body →
  split nl (formatPatch fileName body)
  = [ "Index: " +:+ fileName;
      "===================================================================";
      "--- " +:+ fileName;
      "+++ " +:+ fileName ]
    ++ map print_line body ++ [EmptyString].
Proof.
  intros Hname Hbody. unfold formatPatch. cbn [app]. rewrite split_join_lines; [done|].
  repeat (apply Forall_cons; split;
          [rewrite ?occurrences_app, ?Hname; reflexivity|]).
  apply Forall_fmap. eapply Forall_impl; [exact Hbody|].
  intros l. apply print_line_no_newline.
Qed.

Lemma startsWith_mark c (text : string) :
  startsWith (String c EmptyString) (String c EmptyString +:+ text) = true.
Proof.
  unfold startsWith. rewrite string_app_cons, string_app_nil. cbn [String.prefix].
  destruct (ascii_dec c c); [|done]. by destruct text.
Qed.

Lemma startsWith_three_marks c (text : string) :
  startsWith (String c (String c (String c EmptyString))) (String c EmptyString +:+ text)
  = startsWith (String c (String c EmptyString)) text.
Proof.
  unfold startsWith. rewrite string_app_cons, string_app_nil. cbn [String.prefix].
  by destruct (ascii_dec c c).
Qed.

(** Of the body of a patch, [changes] keeps the lines that are [counted]. *)
Lemma changes_body body :
  List.filter (fun line => negb (startsWith "+++" line) && negb (startsWith "---" line))
    (List.filter (fun line => startsWith "+" line || startsWith "-" line)
       (map print_line body ++ [EmptyString]))
  = map print_line (List.filter counted body).
Proof.
  induction body as [|l body IH]; [done|].
  destruct l as [range|text|text|text|]; cbn [map app]; try exact IH.
  - cbn [List.filter print_line counted].
    rewrite (startsWith_mark "-"), orb_true_r. cbn [List.filter].
    rewrite (startsWith_three_marks "-"), IH.
    by destruct (startsWith "--" text).
  - cbn [List.filter print_line counted].
    rewrite (startsWith_mark "+"). cbn [orb List.filter].
    rewrite (startsWith_three_marks "+"), IH.
    by destruct (startsWith "++" text).
Qed.

Lemma marked_body body :
  List.filter (fun line => startsWith "+" line || startsWith "-" line)
    (map print_line body ++ [EmptyString])
  = map print_line (List.filter marked body).
Proof.
  induction body as [|l body IH]; [done|].
  destruct l as [range|text|text|text|]; cbn [map app]; try exact IH.
  - cbn [List.filter print_line marked].
    by rewrite (startsWith_mark "-"), orb_true_r, IH.
  - cbn [List.filter print_line marked].
    rewrite (startsWith_mark "+"). cbn [orb]. by rewrite IH.
Qed.

Section PatchFormat.

Variable fileName : string.
Variable body : list PatchLine.
Hypothesis fileName_line : occurrences nl fileName = 0.
Hypothesis body_lines : Forall (fun l => occurrences nl (line_text l) = 0) body.

(** On a printed patch, the count of the spec is the number of marked
    lines of the body. *)
Lemma marked_lines_formatPatch :
  marked_lines_excluding_headers (formatPatch fileName body)
  = length (List.filter marked body).
Proof using fileName_line body_lines.
  unfold marked_lines_excluding_headers. rewrite split_formatPatch by done.
  rewrite List.filter_app, marked_body, length_app, length_map.
  change (List.filter _ [_; _; _; _])
    with ["--- " +:+ fileName; "+++ " +:+ fileName].
  cbn [length]. lia.
Qed.

(** On a printed patch, [changes] keeps the counted lines of the body, and
    drops the marked lines whose text begins with two more of their mark. *)
Lemma changes_formatPatch :
  changes (formatPatch fileName body) = map print_line (List.filter counted body).
Proof using fileName_line body_lines.
  unfold changes. rewrite split_formatPatch by done.
  rewrite (List.filter_app _ [_; _; _; _] (map print_line body ++ [EmptyString])).
  rewrite (List.filter_app _ (List.filter _ [_; _; _; _])).
  by rewrite changes_body.
Qed.

(** The count of the code never exceeds the count of the spec. *)
Lemma changes_le_marked_lines :
  length (changes (formatPatch fileName body))
  ≤ marked_lines_excluding_headers (formatPatch fileName body).
Proof using fileName_line body_lines.
  rewrite changes_formatPatch, marked_lines_formatPatch, length_map.
  clear. induction body as [|l rest IH]; [done|].
  destruct l; cbn [List.filter counted marked]; try done;
    destruct (negb _); cbn [length]; lia.
Qed.

End PatchFormat.

Example patch_increments_printed :
  patch_increments
  = formatPatch "file"
      [Hunk "-1,1 +1,3"; Removed "x"; Added "++a;"; Added "++b;"; Added "++c;"].
Proof. reflexivity. Qed.

Example patch_axc_printed :
  patch_axc
  = formatPatch "file"
      [Hunk "-1,3 +1,3"; Unchanged "a"; Removed "b"; Added "x"; Unchanged "c"; NoNewline].
Proof. reflexivity. Qed.

Section SaveHandler.

Context `{Host}.

(** The decision of lines 222-245, once the File is at hand: with [prior]
    the latest Version (if any), the save is skipped when the content is
    that of [prior], or when not everything is saved and the change is
    small. *)
Lemma onWillSaveTextDocument_decision e env w file db1 saveAllChanges :
  match Store.getFile (fileVersionDB w) (relativePath e) with
  | Some file => (Ok file, fileVersionDB w)
  | None => Store.createFile (relativePath e) (fileVersionDB w)
  end = (Ok file, db1) →
  getSaveAllChanges env = Ok saveAllChanges →
  FileRecord.id file ∈ map FileRecord.id (files db1) →
  let skip :=
    match Store.getFileVersions db1 (FileRecord.id file) None with
    | [] => negb saveAllChanges && (length (split nl (getText e)) <=? 1)
    | v :: _ =>
        bool_decide (VersionRecord.content v = getText e) ||
        (negb saveAllChanges &&
         (length (changes (createPatch "file" (VersionRecord.content v) (getText e)))
          <=? 2))
    end in
  if skip then onWillSaveTextDocument e env w = with_db db1 w
  else
    ∃ row db2,
      onWillSaveTextDocument e env w = refresh (with_db db2 w) ∧
      versions db2 = versions db1 ++ [row] ∧
      VersionRecord.content row = getText e ∧
      VersionRecord.file_id row = FileRecord.id file ∧
      map FileRecord.file_path (files db2) = map FileRecord.file_path (files db1).
Proof.
  intros Hfile Hsetting Hid. unfold onWillSaveTextDocument.
  rewrite Hfile, Hsetting, getFileVersions_limit.
  destruct (createVersion_spec (save_now env) (FileRecord.id file) (getText e) None db1 Hid)
    as (db2 & Hcreate & Hvs & _ & Hpaths & _).
  destruct (Store.getFileVersions db1 (FileRecord.id file) None) as [|v rest];
    cbn zeta.
  - destruct saveAllChanges; cbn [negb andb].
    + rewrite Hcreate. eauto 10.
    + destruct (length (split nl (getText e)) <=? 1); [done|].
      rewrite Hcreate. eauto 10.
  - case_bool_decide; [done|]. cbn [orb].
    destruct saveAllChanges; cbn [negb andb].
    + rewrite Hcreate. eauto 10.
    + destruct (length (changes _) <=? 2); [done|].
      rewrite Hcreate. eauto 10.
Qed.

(** The rule of lines 234-244 as the code has it: with a prior Version
    whose content differs from the candidate, the save is skipped when not
    everything is saved and [changes] has at most two lines, and persisted
    otherwise. *)
Lemma save_rule_with_prior_version e env w f v rest saveAllChanges :
  Store.getFile (fileVersionDB w) (relativePath e) = Some f →
  Store.getFileVersions (fileVersionDB w) (FileRecord.id f) None = v :: rest →
  VersionRecord.content v ≠ getText e →
  getSaveAllChanges env = Ok saveAllChanges →
  (saveAllChanges = false →
   length (changes (createPatch "file" (VersionRecord.content v) (getText e))) ≤ 2 →
   skipped w (onWillSaveTextDocument e env w)) ∧
  (saveAllChanges = true ∨
   2 < length (changes (createPatch "file" (VersionRecord.content v) (getText e))) →
   persisted (getText e) w (onWillSaveTextDocument e env w)).
Proof.
  intros Hfile Hversions Hdiff Hsetting.
  pose proof (onWillSaveTextDocument_decision e env w f (fileVersionDB w) saveAllChanges)
    as Hdecision.
  rewrite Hfile, Hversions in Hdecision. cbn zeta in Hdecision.
  rewrite bool_decide_eq_false_2 in Hdecision by done. cbn [orb] in Hdecision.
  specialize (Hdecision eq_refl Hsetting).
  apply getFile_Some in Hfile as [Hin _].
  specialize (Hdecision (list_elem_of_fmap_2 _ _ _ Hin)).
  split.
  - intros -> Hle. apply Nat.leb_le in Hle. rewrite Hle in Hdecision.
    cbn [negb andb] in Hdecision. rewrite Hdecision. done.
  - intros Hpersist.
    assert (Hskip : negb saveAllChanges &&
              (length (changes (createPatch "file" (VersionRecord.content v) (getText e)))
               <=? 2) = false).
    { destruct Hpersist as [->|Hlt]; [done|].
      apply Nat.leb_gt in Hlt. rewrite Hlt. apply andb_false_r. }
    rewrite Hskip in Hdecision. destruct Hdecision as (row & db2 & -> & Hvs & Hc & _).
    exists row. done.
Qed.

(** The rule of lines 234-244 on a printed patch: the lines that count
    are the marked lines of the body, except those whose text begins with
    two more of their mark. *)
Lemma save_rule_on_printed_patch e env w f v rest saveAllChanges body :
  Store.getFile (fileVersionDB w) (relativePath e) = Some f →
  Store.getFileVersions (fileVersionDB w) (FileRecord.id f) None = v :: rest →
  VersionRecord.content v ≠ getText e →
  getSaveAllChanges env = Ok saveAllChanges →
  createPatch "file" (VersionRecord.content v) (getText e) = formatPatch "file" body →
  Forall (fun l => occurrences nl (line_text l) = 0) body →
  (saveAllChanges = false →
   length (List.filter counted body) ≤ 2 →
   skipped w (onWillSaveTextDocument e env w)) ∧
  (saveAllChanges = true ∨ 2 < length (List.filter counted body) →
   persisted (getText e) w (onWillSaveTextDocument e env w)).
Proof.
  intros Hfile Hversions Hdiff Hsetting Hpatch Hbody.
  pose proof (save_rule_with_prior_version e env w f v rest saveAllChanges
                Hfile Hversions Hdiff Hsetting) as Hrule.
  rewrite Hpatch, changes_formatPatch, length_map in Hrule by done.
  exact Hrule.
Qed.

(** The example of the spec: one line changed.  The patch has one removed
    and one added line, [changes] keeps both, and the save is skipped
    unless everything is saved. *)
Lemma save_single_changed_line path env w f v rest saveAllChanges :
  Store.getFile (fileVersionDB w) path = Some f →
  Store.getFileVersions (fileVersionDB w) (FileRecord.id f) None = v :: rest →
  VersionRecord.content v = previous_abc →
  getSaveAllChanges env = Ok saveAllChanges →
  createPatch "file" previous_abc candidate_axc = patch_axc →
  marked_lines_excluding_headers patch_axc = 2 ∧
  length (changes patch_axc) = 2 ∧
  if saveAllChanges
  then persisted candidate_axc w
         (onWillSaveTextDocument (mkSaveEvent path candidate_axc) env w)
  else skipped w (onWillSaveTextDocument (mkSaveEvent path candidate_axc) env w).
Proof.
  intros Hfile Hversions Hcontent Hsetting Hpatch.
  split; [reflexivity|]. split; [reflexivity|].
  destruct (save_rule_with_prior_version (mkSaveEvent path candidate_axc)
              env w f v rest saveAllChanges) as [Hskip Hpersist]; try done.
  { rewrite Hcontent. discriminate. }
  destruct saveAllChanges.
  - apply Hpersist. by left.
  - apply Hskip; [done|]. cbn [getText]. rewrite Hcontent, Hpatch. compute_done.
Qed.

(** C7 (the code at the failing input): the prior Version holds the line
    [x]; the candidate replaces it by three lines that begin with [++].
    The patch marks one line removed and three added: four changed lines,
    not counting the two header lines.  Yet [changes] keeps only one of
    them, since the second filter also drops the added lines, which begin
    with [+++] in the patch; and the save is skipped although the edit
    changes more than two lines. *)
Theorem C7_lines_beginning_with_marks_are_not_counted path env w f v rest :
  Store.getFile (fileVersionDB w) path = Some f →
  Store.getFileVersions (fileVersionDB w) (FileRecord.id f) None = v :: rest →
  VersionRecord.content v = previous_x →
  getSaveAllChanges env = Ok false →
  createPatch "file" previous_x candidate_increments = patch_increments →
  marked_lines_excluding_headers patch_increments = 4 ∧
  length (changes patch_increments) = 1 ∧
  skipped w (onWillSaveTextDocument (mkSaveEvent path candidate_increments) env w).
Proof.
  intros Hfile Hversions Hcontent Hsetting Hpatch.
  split; [reflexivity|]. split; [reflexivity|].
  apply (save_rule_with_prior_version (mkSaveEvent path candidate_increments)
           env w f v rest false); try done.
  - rewrite Hcontent. discriminate.
  - cbn [getText]. rewrite Hcontent, Hpatch. compute_done.
Qed.

(** C8 (amended): a File row is created on the first observed save of its
    path, before the significance filter is consulted: for every save
    event on a path with no existing File, a File row exists for that path
    after the handler completes, whether the filter accepts the content
    or rejects it. *)
Theorem C8_file_row_created_on_first_observed_save e env w :
  Store.getFile (fileVersionDB w) (relativePath e) = None →
  ∃ f, Store.getFile (fileVersionDB (onWillSaveTextDocument e env w)) (relativePath e)
       = Some f.
Proof.
  intros Hnone. apply getFile_is_Some.
  assert (Hpath : ∀ db2,
            map FileRecord.file_path (files db2)
            = map FileRecord.file_path
                (files (fileVersionDB w)
                 ++ [FileRecord.mk (S (files_seq (fileVersionDB w))) (relativePath e) None]) →
            relativePath e ∈ map FileRecord.file_path (files db2)).
  { intros db2 ->. rewrite map_app. apply elem_of_app. right. by left. }
  destruct (getSaveAllChanges env) as [saveAllChanges|err] eqn:Hsetting.
  - pose proof (onWillSaveTextDocument_decision e env w
                  (FileRecord.mk (S (files_seq (fileVersionDB w))) (relativePath e) None)
                  (mkDB (files (fileVersionDB w)
                         ++ [FileRecord.mk (S (files_seq (fileVersionDB w)))
                               (relativePath e) None])
                        (versions (fileVersionDB w)) (S (files_seq (fileVersionDB w)))
                        (versions_seq (fileVersionDB w)))
                  saveAllChanges) as Hdecision.
    rewrite Hnone, createFile_spec in Hdecision by done.
    specialize (Hdecision eq_refl Hsetting). cbn [files FileRecord.id] in Hdecision.
    cbn zeta in Hdecision.
    destruct (match Store.getFileVersions _ _ _ with [] => _ | _ => _ end).
    + rewrite Hdecision; [by apply Hpath|].
      rewrite map_app. apply elem_of_app. right. by left.
    + destruct Hdecision as (row & db2 & -> & _ & _ & _ & Hpaths).
      { rewrite map_app. apply elem_of_app. right. by left. }
      by apply Hpath.
  - unfold onWillSaveTextDocument. rewrite Hnone, createFile_spec, Hsetting by done.
    by apply Hpath.
Qed.

(** C10: in the first-save rule (no prior Version, not everything saved)
    the candidate is split on the newline character, which gives one piece
    more than it has newline characters; the save is skipped only when
    this gives at most one piece, that is, when the candidate has no
    newline character; a candidate with at least one newline character,
    such as a single line ended by a newline, is persisted. *)
Theorem C10_first_save_persisted_iff_newline e env w :
  well_formed (fileVersionDB w) →
  getSaveAllChanges env = Ok false →
  (∀ f, Store.getFile (fileVersionDB w) (relativePath e) = Some f →
        Store.getFileVersions (fileVersionDB w) (FileRecord.id f) None = []) →
  length (split nl (getText e)) = S (occurrences nl (getText e)) ∧
  (occurrences nl (getText e) = 0 → skipped w (onWillSaveTextDocument e env w)) ∧
  (0 < occurrences nl (getText e) →
   persisted (getText e) w (onWillSaveTextDocument e env w)).
Proof.
  intros Hwf Hsetting Hprior. split; [apply length_split|].
  assert (Hfile : ∃ file db1,
            match Store.getFile (fileVersionDB w) (relativePath e) with
            | Some file => (Ok file, fileVersionDB w)
            | None => Store.createFile (relativePath e) (fileVersionDB w)
            end = (Ok file, db1) ∧
            FileRecord.id file ∈ map FileRecord.id (files db1) ∧
            Store.getFileVersions db1 (FileRecord.id file) None = [] ∧
            versions db1 = versions (fileVersionDB w)).
  { destruct (Store.getFile (fileVersionDB w) (relativePath e)) as [f|] eqn:Hget.
    - exists f, (fileVersionDB w). split; [done|].
      apply getFile_Some in Hget as [Hin _].
      split; [by apply list_elem_of_fmap_2|]. split; [by apply Hprior|done].
    - pose proof (createFile_no_versions _ _ Hwf Hget) as Hnone.
      rewrite createFile_spec in Hnone |- * by done. cbn [snd] in Hnone.
      eexists _, _. split; [done|]. cbn [FileRecord.id files versions].
      split; [|done]. rewrite map_app. apply elem_of_app. right. by left. }
  destruct Hfile as (file & db1 & Hfile & Hid & Hnone & Hvs).
  pose proof (onWillSaveTextDocument_decision e env w file db1 false Hfile Hsetting Hid)
    as Hdecision.
  rewrite Hnone in Hdecision. cbn zeta in Hdecision. cbn [negb andb] in Hdecision.
  rewrite length_split in Hdecision. split.
  - intros Hzero. rewrite Hzero in Hdecision. cbn in Hdecision.
    rewrite Hdecision. unfold skipped. by cbn.
  - intros Hpos. destruct (occurrences nl (getText e)) as [|n]; [lia|].
    cbn in Hdecision. destruct Hdecision as (row & db2 & -> & Hvs2 & Hc & _).
    exists row. split; [|done]. cbn. by rewrite Hvs2, Hvs.
Qed.

End SaveHandler.

Lemma C7_witness :
  skipped exampleWorld
    (onWillSaveTextDocument (H:=exampleHost) (mkSaveEvent "c.txt" candidate_increments)
       (exampleSaveEnv false) exampleWorld).
Proof.
  apply (C7_lines_beginning_with_marks_are_not_counted (H:=exampleHost)
           "c.txt" (exampleSaveEnv false) exampleWorld
           (FileRecord.mk 3 "c.txt" (Some 4))
           (VersionRecord.mk 4 3 previous_x "t3" 1 None) []).
  - reflexivity.
  - reflexivity.
  - reflexivity.
  - reflexivity.
  - reflexivity.
Defined.

(** C8, as stated, fails: the first save of [a.txt] holds a single line
    and is rejected by the filter (no Version is created), yet the File
    row exists afterwards. *)
Lemma C8_counterexample :
  Store.getFile (fileVersionDB initialWorld) "a.txt" = None ∧
  skipped initialWorld
    (onWillSaveTextDocument (H:=exampleHost) (mkSaveEvent "a.txt" "x")
       (exampleSaveEnv false) initialWorld) ∧
  Store.getFile
    (fileVersionDB
       (onWillSaveTextDocument (H:=exampleHost) (mkSaveEvent "a.txt" "x")
          (exampleSaveEnv false) initialWorld)) "a.txt"
  = Some (FileRecord.mk 1 "a.txt" None).
Proof. split; [reflexivity|]. split; reflexivity. Qed.

Lemma C8_witness :
  ∃ f,
    Store.getFile
      (fileVersionDB
         (onWillSaveTextDocument (H:=exampleHost) (mkSaveEvent "a.txt" "x")
            (exampleSaveEnv false) initialWorld)) "a.txt"
    = Some f.
Proof.
  apply (C8_file_row_created_on_first_observed_save (H:=exampleHost)
           (mkSaveEvent "a.txt" "x") (exampleSaveEnv false) initialWorld).
  reflexivity.
Defined.

Lemma C10_witness :
  persisted ("x" +:+ NL) exampleWorld
    (onWillSaveTextDocument (H:=exampleHost) (mkSaveEvent "d.txt" ("x" +:+ NL))
       (exampleSaveEnv false) exampleWorld).
Proof.
  destruct (C10_first_save_persisted_iff_newline (H:=exampleHost)
              (mkSaveEvent "d.txt" ("x" +:+ NL)) (exampleSaveEnv false) exampleWorld)
    as (_ & _ & Hpersisted).
  - exact exampleDB_well_formed.
  - reflexivity.
  - intros f Hf. vm_compute in Hf. injection Hf as <-. reflexivity.
  - apply Hpersisted. vm_compute. lia.
Defined.

(** ** Reachable stores are well formed *)

Section Reachable.

Context `{Host}.

Lemma commit_pass_well_formed changedFiles commitMessage autoCleanup now w :
  well_formed (fileVersionDB w) →
  well_formed (fileVersionDB (fst (commit_pass changedFiles commitMessage autoCleanup now w))).
Proof.
  intros Hwf. unfold commit_pass.
  destruct (commit_loop_spec changedFiles commitMessage autoCleanup now
              (Store.getAllFiles (fileVersionDB w)) 0 (fileVersionDB w))
    as (n & db' & -> & Hwf' & _).
  - by destruct Hwf.
  - done.
  - intros f Hf. by apply list_elem_of_fmap_2.
  - by destruct (0 <? n).
Qed.

Lemma resume_well_formed p env w :
  well_formed (fileVersionDB w) →
  well_formed (fileVersionDB (fst (resume p env w))).
Proof.
  intros Hwf.
  destruct p as [repoPath|repoPath changedFiles commitMessage|repoPath]; cbn [resume].
  - destruct (negb (truthy (Some (getLatestCommitMessage env)))); [done|].
    destruct (stagedChangesMap w !! repoPath) as [stagedInfo|]; [|done].
    destruct (0 <? size (StagedInfo.files stagedInfo)); [|done].
    by case_bool_decide.
  - destruct (autoCleanupAfterCommit env) as [autoCleanup|]; [|done].
    pose proof (commit_pass_well_formed changedFiles commitMessage autoCleanup
                  (now env) w Hwf) as Hpass.
    by destruct (commit_pass _ _ _ _ _) as [w' []].
  - done.
Qed.

Lemma notify_store repository w :
  fileVersionDB (fst (notify repository w)) = fileVersionDB w.
Proof.
  unfold notify. destruct (isProcessingCommit w); [done|].
  destruct (HEAD_commit repository) as [commit|]; [|done].
  destruct (negb (truthy (Some commit))); [done|].
  destruct (indexChanges repository) as [paths|]; [|done].
  by case_bool_decide.
Qed.

Lemma onWillSaveTextDocument_well_formed e env w :
  well_formed (fileVersionDB w) →
  well_formed (fileVersionDB (onWillSaveTextDocument e env w)).
Proof.
  intros Hwf.
  destruct (match Store.getFile (fileVersionDB w) (relativePath e) with
            | Some file => (Ok file, fileVersionDB w)
            | None => Store.createFile (relativePath e) (fileVersionDB w)
            end) as [r db1] eqn:Hfile.
  assert (Hwf1 : well_formed db1).
  { destruct (Store.getFile _ _); [by injection Hfile as _ <-|].
    by eapply createFile_well_formed. }
  assert (Hid : ∀ file, r = Ok file → FileRecord.id file ∈ map FileRecord.id (files db1)).
  { intros file ->. destruct (Store.getFile _ _) as [f|] eqn:Hget.
    - injection Hfile as <- <-. apply getFile_Some in Hget as [Hin _].
      by apply list_elem_of_fmap_2.
    - rewrite createFile_spec in Hfile by done. injection Hfile as <- <-.
      cbn [files FileRecord.id]. rewrite map_app. apply elem_of_app. right. by left. }
  unfold onWillSaveTextDocument. rewrite Hfile.
  destruct r as [file|]; [|done].
  destruct (getSaveAllChanges env) as [saveAllChanges|]; [|done].
  destruct (match Store.getFileVersions db1 _ _ with [] => false | _ => _ end); [done|].
  destruct (if negb saveAllChanges then _ else _); [done|].
  destruct (createVersion_spec (save_now env) (FileRecord.id file) (getText e) None db1
              (Hid file eq_refl)) as (db2 & -> & _ & _ & _ & _ & _ & Hwf2).
  by apply Hwf2.
Qed.

Lemma step_well_formed c ev :
  well_formed (fileVersionDB (world c)) →
  well_formed (fileVersionDB (world (step c ev))).
Proof.
  intros Hwf. destruct ev as [repository|i env|e env]; cbn [step].
  - pose proof (notify_store repository (world c)) as Hstore.
    destruct (notify repository (world c)) as [w' p]. cbn [world fst] in *. by rewrite Hstore.
  - destruct (inflight c !! i) as [p|]; [|done].
    pose proof (resume_well_formed p env (world c) Hwf) as Hresume.
    by destruct (resume p env (world c)) as [w' p'].
  - by apply onWillSaveTextDocument_well_formed.
Qed.

(** Every store reached from the empty one, by any interleaving of
    notifications, resumptions and saves, is well formed. *)
Lemma run_well_formed c evs :
  well_formed (fileVersionDB (world c)) →
  well_formed (fileVersionDB (world (run c evs))).
Proof.
  revert c. induction evs as [|ev evs IH]; intros c Hc; [done|].
  apply IH, step_well_formed, Hc.
Qed.

Lemma emptyDB_well_formed : well_formed emptyDB.
Proof. repeat split; constructor. Qed.

Lemma onDidChange_well_formed repository env w :
  well_formed (fileVersionDB w) →
  well_formed (fileVersionDB (onDidChange repository env w)).
Proof.
  intros Hwf. rewrite onDidChange_turns.
  pose proof (notify_store repository w) as Hstore.
  destruct (notify repository w) as [w0 [p|]]; cbn [fst complete] in *; [|by rewrite Hstore].
  rewrite <- Hstore in Hwf.
  pose proof (resume_well_formed p env w0 Hwf) as Hwf1.
  destruct (resume p env w0) as [w1 [p1|]]; [|done]. cbn [fst] in Hwf1.
  pose proof (resume_well_formed p1 env w1 Hwf1) as Hwf2.
  destruct (resume p1 env w1) as [w2 [p2|]]; [|done]. cbn [fst] in Hwf2.
  by apply resume_well_formed.
Qed.

End Reachable.

(** * Further properties *)

(** ** What the store operations leave alone *)

Lemma createVersion_frame now fileId content label db :
  map FileRecord.id (files (snd (Store.createVersion now fileId content label db)))
  = map FileRecord.id (files db) ∧
  map FileRecord.file_path (files (snd (Store.createVersion now fileId content label db)))
  = map FileRecord.file_path (files db) ∧
  versions db `prefix_of` versions (snd (Store.createVersion now fileId content label db)).
Proof.
  unfold Store.createVersion. destruct (Store.getFileById db fileId); cbn [snd files versions].
  - split; [apply map_id_set_current|]. split; [apply map_path_set_current|].
    by apply prefix_app_r.
  - done.
Qed.

Lemma deleteVersion_frame strict versionId db :
  map FileRecord.id (files (snd (Store.deleteVersion strict versionId db)))
  = map FileRecord.id (files db) ∧
  map FileRecord.file_path (files (snd (Store.deleteVersion strict versionId db)))
  = map FileRecord.file_path (files db).
Proof.
  unfold Store.deleteVersion. destruct (List.find _ _); cbn [snd files]; [|done].
  split; [apply map_id_set_current|apply map_path_set_current].
Qed.

Section PassFrame.

Context `{Host}.

Lemma delete_each_frame vs db :
  map FileRecord.id (files (snd (delete_each vs db))) = map FileRecord.id (files db) ∧
  map FileRecord.file_path (files (snd (delete_each vs db)))
  = map FileRecord.file_path (files db).
Proof.
  revert db. induction vs as [|v vs IH]; intros db; cbn [delete_each]; [done|].
  pose proof (deleteVersion_frame strict_delete (VersionRecord.id v) db) as [Hid Hpath].
  destruct (Store.deleteVersion _ _ _) as [[[]|e] db1]; cbn [snd] in *; [|done].
  destruct (IH db1) as [Hid' Hpath']. split; congruence.
Qed.

Lemma annotate_frame changedFiles commitMessage autoCleanup now file db :
  map FileRecord.id
    (files (snd (annotate changedFiles commitMessage autoCleanup now file db)))
  = map FileRecord.id (files db) ∧
  map FileRecord.file_path
    (files (snd (annotate changedFiles commitMessage autoCleanup now file db)))
  = map FileRecord.file_path (files db) ∧
  (autoCleanup = false →
   versions db
   `prefix_of` versions (snd (annotate changedFiles commitMessage autoCleanup now file db))).
Proof.
  unfold annotate. destruct (negb _); [done|].
  destruct (Store.getFileVersions db (FileRecord.id file) None) as [|latest rest]; [done|].
  pose proof (createVersion_frame now (FileRecord.id file)
                (marker commitMessage +:+ VersionRecord.content latest) None db)
    as (Hid & Hpath & Hprefix).
  destruct (Store.createVersion _ _ _ _ _) as [[row|e] db1]; cbn [snd] in *; [|done].
  destruct autoCleanup; [|done].
  pose proof (delete_each_frame (latest :: rest) db1) as [Hid' Hpath'].
  destruct (delete_each _ _) as [[[]|e] db2]; cbn [snd] in *;
    (split; [congruence|]; split; [congruence|done]).
Qed.

Lemma commit_loop_frame changedFiles commitMessage autoCleanup now allFiles :
  ∀ processedCount db,
  map FileRecord.id
    (files (snd (commit_loop changedFiles commitMessage autoCleanup now allFiles
                   processedCount db)))
  = map FileRecord.id (files db) ∧
  map FileRecord.file_path
    (files (snd (commit_loop changedFiles commitMessage autoCleanup now allFiles
                   processedCount db)))
  = map FileRecord.file_path (files db) ∧
  (autoCleanup = false →
   versions db
   `prefix_of` versions (snd (commit_loop changedFiles commitMessage autoCleanup now
                                allFiles processedCount db))).
Proof.
  induction allFiles as [|file rest IH]; intros n db; cbn [commit_loop]; [done|].
  pose proof (annotate_frame changedFiles commitMessage autoCleanup now file db)
    as (Hid & Hpath & Hprefix).
  destruct (annotate _ _ _ _ _ _) as [[processed|e] db1]; cbn [snd] in *; [|done].
  destruct (IH (if processed then S n else n) db1) as (Hid' & Hpath' & Hprefix').
  split; [congruence|]. split; [congruence|].
  intros Hno. etrans; [by apply Hprefix|by apply Hprefix'].
Qed.

Lemma commit_pass_store changedFiles commitMessage autoCleanup now w :
  fileVersionDB (fst (commit_pass changedFiles commitMessage autoCleanup now w))
  = snd (commit_loop changedFiles commitMessage autoCleanup now
           (Store.getAllFiles (fileVersionDB w)) 0 (fileVersionDB w)).
Proof.
  unfold commit_pass. destruct (commit_loop _ _ _ _ _ _ _) as [[n|e] db']; [|done].
  by destruct (0 <? n).
Qed.

(** The store after [handleGitCommit] is the store it found, or the store
    after the loop over all files. *)
Lemma handleGitCommit_store changedFiles commitMessage env w :
  fileVersionDB (handleGitCommit changedFiles commitMessage env w) = fileVersionDB w ∨
  ∃ message autoCleanup,
    autoCleanupAfterCommit env = Ok autoCleanup ∧
    fileVersionDB (handleGitCommit changedFiles commitMessage env w)
    = snd (commit_loop changedFiles message autoCleanup (now env)
             (Store.getAllFiles (fileVersionDB w)) 0 (fileVersionDB w)).
Proof.
  unfold handleGitCommit.
  destruct (if truthy commitMessage then commitMessage
            else Some (getLatestCommitMessage env)) as [message|]; [|by left].
  destruct (negb (truthy (Some message)) || bool_decide (trim message = EmptyString));
    [by left|].
  destruct (autoCleanupAfterCommit env) as [autoCleanup|]; [|by left].
  right. exists message, autoCleanup. split; [done|]. apply commit_pass_store.
Qed.

(** The store after a watcher round is the store it found, or the store
    after the loop of [handleGitCommit]. *)
Lemma onDidChange_store repository env w :
  fileVersionDB (onDidChange repository env w) = fileVersionDB w ∨
  ∃ changedFiles message autoCleanup,
    autoCleanupAfterCommit env = Ok autoCleanup ∧
    fileVersionDB (onDidChange repository env w)
    = snd (commit_loop changedFiles message autoCleanup (now env)
             (Store.getAllFiles (fileVersionDB w)) 0 (fileVersionDB w)).
Proof.
  unfold onDidChange. destruct (isProcessingCommit w); [by left|].
  destruct (HEAD_commit repository) as [commit|]; [|by left].
  destruct (negb (truthy (Some commit))); [by left|].
  destruct (indexChanges repository) as [paths|]; [|by left].
  case_bool_decide; [|by left].
  destruct (negb (truthy (Some (getLatestCommitMessage env)))); [by left|].
  destruct (stagedChangesMap _ !! _) as [stagedInfo|]; [|by left].
  destruct (0 <? size (StagedInfo.files stagedInfo)); [|by left].
  cbn [fileVersionDB with_guard with_staged].
  destruct (handleGitCommit_store (StagedInfo.files stagedInfo)
              (Some (getLatestCommitMessage env)) env
              (with_lastCommit
                 (<[rootUri_fsPath repository:=commit]>
                    (lastCommitByRepo
                       (with_guard true
                          (with_staged
                             (<[rootUri_fsPath repository:=
                                  StagedInfo.mk (stagedFiles paths) EmptyString]>
                                (stagedChangesMap w)) w))))
                 (with_guard true
                    (with_staged
                       (<[rootUri_fsPath repository:=
                            StagedInfo.mk (stagedFiles paths) EmptyString]>
                          (stagedChangesMap w)) w))))
    as [Hsame|(message & autoCleanup & Hauto & Hloop)].
  - left. exact Hsame.
  - right. exists (StagedInfo.files stagedInfo), message, autoCleanup. split; [done|].
    exact Hloop.
Qed.

(** X1: a watcher round never creates, deletes or renames a File: after
    the handler, whatever the notification, the answers of the external
    calls and the state of the store, the File rows have the ids and the
    paths they had, in the same order. *)
Theorem X1_watcher_keeps_files repository env w :
  map FileRecord.id (files (fileVersionDB (onDidChange repository env w)))
  = map FileRecord.id (files (fileVersionDB w)) ∧
  map FileRecord.file_path (files (fileVersionDB (onDidChange repository env w)))
  = map FileRecord.file_path (files (fileVersionDB w)).
Proof.
  destruct (onDidChange_store repository env w)
    as [->|(changedFiles & message & autoCleanup & _ & ->)]; [done|].
  destruct (commit_loop_frame changedFiles message autoCleanup (now env)
              (Store.getAllFiles (fileVersionDB w)) 0 (fileVersionDB w))
    as (Hid & Hpath & _).
  by split.
Qed.

(** X2: with the auto-cleanup setting off (or unreadable), a watcher round
    only appends to the Versions: every Version that existed before the
    round is still there afterwards, unchanged and in the same place,
    whatever the notification and the state of the store. *)
Theorem X2_watcher_only_appends_without_cleanup repository env w :
  autoCleanupAfterCommit env ≠ Ok true →
  versions (fileVersionDB w)
  `prefix_of` versions (fileVersionDB (onDidChange repository env w)).
Proof.
  intros Hoff.
  destruct (onDidChange_store repository env w)
    as [->|(changedFiles & message & autoCleanup & Hauto & ->)]; [done|].
  destruct (commit_loop_frame changedFiles message autoCleanup (now env)
              (Store.getAllFiles (fileVersionDB w)) 0 (fileVersionDB w))
    as (_ & _ & Hprefix).
  apply Hprefix. destruct autoCleanup; [|done]. by destruct Hoff.
Qed.

End PassFrame.

Lemma X2_witness :
  versions exampleDB
  `prefix_of`
  versions (fileVersionDB (onDidChange (H:=exampleHost) exampleRepository (exampleEnv false)
                             exampleWorld)).
Proof.
  apply (X2_watcher_only_appends_without_cleanup (H:=exampleHost)
           exampleRepository (exampleEnv false) exampleWorld).
  discriminate.
Defined.

(** ** The state of the watcher after a round *)

Section WatcherState.

Context `{Host}.

(** The handler on a notification that passes the guard and brings a new
    HEAD hash. *)
Lemma onDidChange_detected repository env w commit paths :
  isProcessingCommit w = false →
  HEAD_commit repository = Some commit →
  commit ≠ EmptyString →
  lastCommitByRepo w !! rootUri_fsPath repository ≠ Some commit →
  indexChanges repository = Ok paths →
  onDidChange repository env w
  = with_guard false
      (let w3 :=
         mkWorld (fileVersionDB w)
           (<[rootUri_fsPath repository := commit]> (lastCommitByRepo w))
           (<[rootUri_fsPath repository := StagedInfo.mk (stagedFiles paths) EmptyString]>
              (stagedChangesMap w))
           true (refreshes w) in
       if negb (truthy (Some (getLatestCommitMessage env))) then w3
       else if 0 <? size (stagedFiles paths) then
              with_staged
                (delete (rootUri_fsPath repository)
                   (stagedChangesMap
                      (handleGitCommit (stagedFiles paths)
                         (Some (getLatestCommitMessage env)) env w3)))
                (handleGitCommit (stagedFiles paths)
                   (Some (getLatestCommitMessage env)) env w3)
            else w3).
Proof.
  intros Hguard Hhead Hcommit Hlast Hindex.
  apply truthy_Some in Hcommit as Htruthy.
  unfold onDidChange. rewrite Hguard, Hhead, Hindex, Htruthy. cbn [negb].
  cbn [lastCommitByRepo with_staged with_guard with_lastCommit stagedChangesMap
       fileVersionDB refreshes].
  rewrite bool_decide_eq_true_2 by done. rewrite lookup_insert_eq.
  cbn [StagedInfo.files]. done.
Qed.

(** X3: after a round of the handler that passes the guard and finds a
    HEAD commit, the hash recorded for the repository is that commit,
    whatever the round did: also when the commit message was empty, the
    staged set was empty, or [handleGitCommit] failed inside. *)
Theorem X3_recorded_hash_is_head repository env w commit paths :
  isProcessingCommit w = false →
  HEAD_commit repository = Some commit →
  commit ≠ EmptyString →
  indexChanges repository = Ok paths →
  lastCommitByRepo (onDidChange repository env w) !! rootUri_fsPath repository
  = Some commit.
Proof.
  intros Hguard Hhead Hcommit Hindex.
  destruct (decide (lastCommitByRepo w !! rootUri_fsPath repository = Some commit))
    as [Hsame|Hnew].
  - destruct (onDidChange_same_head repository env w commit Hhead Hsame) as (_ & -> & _).
    exact Hsame.
  - rewrite (onDidChange_detected repository env w commit paths) by done.
    cbn zeta. destruct (negb _); [apply lookup_insert_eq|].
    destruct (0 <? _); [|apply lookup_insert_eq].
    cbn [lastCommitByRepo with_guard with_staged].
    destruct (handleGitCommit_frame (stagedFiles paths)
                (Some (getLatestCommitMessage env)) env
                (mkWorld (fileVersionDB w)
                   (<[rootUri_fsPath repository := commit]> (lastCommitByRepo w))
                   (<[rootUri_fsPath repository :=
                        StagedInfo.mk (stagedFiles paths) EmptyString]>
                      (stagedChangesMap w))
                   true (refreshes w)))
      as (_ & -> & _).
    apply lookup_insert_eq.
Qed.

(** X4: the handler of one repository never touches what is recorded for
    another: for every key other than the repository's path, the recorded
    hash and the recorded staged set are what they were, whatever the
    notification and the answers of the external calls. *)
Theorem X4_other_repositories_untouched repository env w key :
  key ≠ rootUri_fsPath repository →
  lastCommitByRepo (onDidChange repository env w) !! key = lastCommitByRepo w !! key ∧
  stagedChangesMap (onDidChange repository env w) !! key = stagedChangesMap w !! key.
Proof.
  intros Hkey. unfold onDidChange. destruct (isProcessingCommit w); [done|].
  destruct (HEAD_commit repository) as [commit|]; [|done].
  destruct (negb (truthy (Some commit))); [done|].
  destruct (indexChanges repository) as [paths|]; [|done].
  case_bool_decide.
  - destruct (negb (truthy (Some (getLatestCommitMessage env)))).
    { cbn. by rewrite !lookup_insert_ne. }
    destruct (stagedChangesMap _ !! _) as [stagedInfo|];
      [|cbn; by rewrite !lookup_insert_ne].
    destruct (0 <? size (StagedInfo.files stagedInfo));
      [|cbn; by rewrite !lookup_insert_ne].
    cbn [lastCommitByRepo stagedChangesMap with_guard with_staged].
    match goal with
    | |- context [handleGitCommit ?cf ?cm env ?w3] =>
        destruct (handleGitCommit_frame cf cm env w3) as (_ & -> & ->)
    end.
    cbn. rewrite lookup_delete_ne by done. by rewrite !lookup_insert_ne.
  - cbn. by rewrite lookup_insert_ne.
Qed.

(** X5: when a round detects a commit with a usable message and a staged
    set that is not empty, the staged set recorded for the repository is
    gone after the round and the guard is clear, whatever happened inside
    [handleGitCommit]: also when the setting could not be read or the store
    threw. *)
Theorem X5_staged_set_cleared_after_pass repository env w commit paths :
  isProcessingCommit w = false →
  HEAD_commit repository = Some commit →
  commit ≠ EmptyString →
  lastCommitByRepo w !! rootUri_fsPath repository ≠ Some commit →
  indexChanges repository = Ok paths →
  stagedFiles paths ≠ ∅ →
  getLatestCommitMessage env ≠ EmptyString →
  stagedChangesMap (onDidChange repository env w) !! rootUri_fsPath repository = None ∧
  isProcessingCommit (onDidChange repository env w) = false.
Proof.
  intros Hguard Hhead Hcommit Hlast Hindex Hstaged Hmsg.
  rewrite (onDidChange_detected repository env w commit paths) by done.
  apply truthy_Some in Hmsg as ->. cbn [negb].
  assert (Hsize : (0 <? size (stagedFiles paths)) = true).
  { apply Nat.ltb_lt. destruct (decide (size (stagedFiles paths) = 0)) as [H0|]; [|lia].
    destruct Hstaged. apply leibniz_equiv. by apply size_empty_iff. }
  cbn zeta. rewrite Hsize. cbn [stagedChangesMap isProcessingCommit with_guard with_staged].
  split; [apply lookup_delete_eq|done].
Qed.

(** X6: when a round detects a commit while nothing is staged, the commit
    is consumed without any annotation: the store and the refresh count
    are what they were, the new hash is recorded, the empty staged set
    stays recorded and the guard is clear; this is so whatever the commit
    message. *)
Theorem X6_commit_with_empty_index_is_consumed repository env w commit paths :
  isProcessingCommit w = false →
  HEAD_commit repository = Some commit →
  commit ≠ EmptyString →
  lastCommitByRepo w !! rootUri_fsPath repository ≠ Some commit →
  indexChanges repository = Ok paths →
  stagedFiles paths = ∅ →
  onDidChange repository env w
  = mkWorld (fileVersionDB w)
      (<[rootUri_fsPath repository := commit]> (lastCommitByRepo w))
      (<[rootUri_fsPath repository := StagedInfo.mk ∅ EmptyString]> (stagedChangesMap w))
      false (refreshes w).
Proof.
  intros Hguard Hhead Hcommit Hlast Hindex Hempty.
  rewrite (onDidChange_detected repository env w commit paths) by done.
  rewrite Hempty. cbn zeta. rewrite size_empty. cbn [Nat.ltb Nat.leb].
  by destruct (negb _).
Qed.

End WatcherState.

Lemma X3_witness :
  lastCommitByRepo
    (onDidChange (H:=exampleHost) exampleRepository (exampleEnv true) exampleWorld)
  !! "/repo"
  = Some "h2".
Proof.
  apply (X3_recorded_hash_is_head (H:=exampleHost) exampleRepository (exampleEnv true)
           exampleWorld "h2" ["a.txt"; "b.txt"; "d.txt"]).
  - reflexivity.
  - reflexivity.
  - discriminate.
  - reflexivity.
Defined.

Lemma X4_witness :
  lastCommitByRepo
    (onDidChange (H:=exampleHost) exampleRepository (exampleEnv true)
       (mkWorld exampleDB {[ "/repo" := "h1"; "/other" := "k1" ]} ∅ false 0))
  !! "/other"
  = Some "k1".
Proof.
  destruct (X4_other_repositories_untouched (H:=exampleHost) exampleRepository
              (exampleEnv true)
              (mkWorld exampleDB {[ "/repo" := "h1"; "/other" := "k1" ]} ∅ false 0)
              "/other") as [-> _].
  - discriminate.
  - reflexivity.
Defined.

Lemma X5_witness :
  stagedChangesMap
    (onDidChange (H:=exampleHost) exampleRepository
       (mkEnv (Ok ("fix bug" +:+ NL)) (Err (HostError "settings")) (Ok tt) "t4")
       exampleWorld)
  !! "/repo"
  = None.
Proof.
  apply (X5_staged_set_cleared_after_pass (H:=exampleHost) exampleRepository
           (mkEnv (Ok ("fix bug" +:+ NL)) (Err (HostError "settings")) (Ok tt) "t4")
           exampleWorld "h2" ["a.txt"; "b.txt"; "d.txt"]).
  - reflexivity.
  - reflexivity.
  - discriminate.
  - vm_compute. discriminate.
  - reflexivity.
  - apply (bool_decide_unpack _). vm_compute. exact I.
  - vm_compute. discriminate.
Defined.

Lemma X6_witness :
  fileVersionDB
    (onDidChange (H:=exampleHost) (mkRepository (Some "h2") "/repo" (Ok []))
       (exampleEnv true) exampleWorld)
  = exampleDB.
Proof.
  rewrite (X6_commit_with_empty_index_is_consumed (H:=exampleHost)
             (mkRepository (Some "h2") "/repo" (Ok [])) (exampleEnv true)
             exampleWorld "h2" []).
  - reflexivity.
  - reflexivity.
  - reflexivity.
  - discriminate.
  - vm_compute. discriminate.
  - reflexivity.
  - reflexivity.
Defined.

(** ** The newest Version *)

Lemma foldr_insert_desc_head x s l :
  (∀ y, y ∈ l → VersionRecord.version_number y < VersionRecord.version_number x) →
  foldr Store.insert_desc (x :: s) l = x :: foldr Store.insert_desc s l.
Proof.
  induction l as [|y l IH]; intros Hlt; [done|].
  cbn [foldr]. rewrite IH by (intros z Hz; apply Hlt; by right).
  cbn [Store.insert_desc].
  assert (Hy : VersionRecord.version_number y < VersionRecord.version_number x)
    by (apply Hlt; by left).
  apply Nat.leb_gt in Hy. by rewrite Hy.
Qed.

Lemma sort_desc_snoc_max l x :
  (∀ y, y ∈ l → VersionRecord.version_number y < VersionRecord.version_number x) →
  Store.sort_desc (l ++ [x]) = x :: Store.sort_desc l.
Proof.
  intros Hlt. unfold Store.sort_desc. rewrite foldr_app. cbn [foldr Store.insert_desc].
  by apply foldr_insert_desc_head.
Qed.

Lemma foldr_max_ge n ns m : m ∈ n :: ns → m ≤ foldr Nat.max n ns.
Proof.
  induction ns as [|a ns IH]; cbn [foldr].
  - intros ->%list_elem_of_singleton. done.
  - intros [->|[->|Hm]%elem_of_cons]%elem_of_cons.
    + specialize (IH ltac:(by left)). lia.
    + lia.
    + specialize (IH ltac:(by right)). lia.
Qed.

Lemma next_version_number_gt db fileId v :
  v ∈ Store.rows_of fileId (versions db) →
  VersionRecord.version_number v < Store.next_version_number db fileId.
Proof.
  intros Hv'. unfold Store.next_version_number.
  assert (Hv : VersionRecord.version_number v
               ∈ map VersionRecord.version_number (Store.rows_of fileId (versions db)))
    by by apply list_elem_of_fmap_2.
  destruct (map VersionRecord.version_number (Store.rows_of fileId (versions db)))
    as [|n ns]; [by apply elem_of_nil in Hv|].
  apply foldr_max_ge in Hv. lia.
Qed.

(** After [createVersion] on an existing File, the new row is the one
    [getFileVersions] returns first, before the rows the File had; the
    other Files have the rows they had. *)
Lemma createVersion_latest now fileId content label db :
  fileId ∈ map FileRecord.id (files db) →
  ∃ row,
    fst (Store.createVersion now fileId content label db) = Ok row ∧
    VersionRecord.content row = content ∧
    Store.getFileVersions (snd (Store.createVersion now fileId content label db))
      fileId None
    = row :: Store.getFileVersions db fileId None ∧
    ∀ other, other ≠ fileId →
      Store.rows_of other
        (versions (snd (Store.createVersion now fileId content label db)))
      = Store.rows_of other (versions db).
Proof.
  intros Hin.
  destruct (createVersion_spec now fileId content label db Hin)
    as (db' & Hcreate & Hvs & _).
  rewrite Hcreate. cbn [fst snd]. eexists. split; [done|]. split; [done|].
  unfold Store.getFileVersions. rewrite Hvs, rows_of_app. split.
  - rewrite rows_of_singleton_eq by done.
    apply sort_desc_snoc_max. intros y Hy. by apply next_version_number_gt.
  - intros other Hother. rewrite rows_of_app, rows_of_singleton_ne by done.
    apply app_nil_r.
Qed.

Section PassLatest.

Context `{Host}.

Lemma is_processed_rows changedFiles db db' file :
  Store.rows_of (FileRecord.id file) (versions db')
  = Store.rows_of (FileRecord.id file) (versions db) →
  is_processed changedFiles db' file = is_processed changedFiles db file.
Proof.
  intros Hrows. unfold is_processed.
  by rewrite (getFileVersions_rows db db' _ None Hrows).
Qed.

(** One step of the loop: a processed File gets its annotated Version in
    front of the Versions it had, or in their place when the pass cleans
    up; nothing else changes for it or for the other Files. *)
Lemma annotate_latest changedFiles commitMessage autoCleanup now file db :
  well_formed db →
  FileRecord.id file ∈ map FileRecord.id (files db) →
  ∃ db',
    annotate changedFiles commitMessage autoCleanup now file db
    = (Ok (is_processed changedFiles db file), db') ∧
    well_formed db' ∧
    map FileRecord.id (files db') = map FileRecord.id (files db) ∧
    (∀ fileId, fileId ≠ FileRecord.id file →
       Store.rows_of fileId (versions db') = Store.rows_of fileId (versions db)) ∧
    match Store.getFileVersions db (FileRecord.id file) None with
    | latest :: rest =>
        if bool_decide (normalize (FileRecord.file_path file) ∈ changedFiles) then
          ∃ nv,
            Store.getFileVersions db' (FileRecord.id file) None
            = nv :: (if autoCleanup then [] else latest :: rest) ∧
            VersionRecord.content nv
            = marker commitMessage +:+ VersionRecord.content latest
        else db' = db
    | [] => db' = db
    end.
Proof.
  intros Hwf Hfile.
  destruct (annotate_spec changedFiles commitMessage autoCleanup now file db Hwf Hfile)
    as (b & db' & Hrun & Hwf' & Hids & _ & Hframe & Hyes & Hno).
  exists db'. unfold is_processed.
  destruct (Store.getFileVersions db (FileRecord.id file) None) as [|latest rest]
    eqn:Hversions.
  { destruct (Hno (or_intror eq_refl)) as [-> ->]. rewrite andb_false_r. done. }
  case_bool_decide as Hstaged; cbn [andb]; cycle 1.
  { destruct (Hno (or_introl Hstaged)) as [-> ->]. done. }
  destruct (Hyes latest rest Hstaged eq_refl) as [-> (nv & Hrows & Hcontent & _ & _)].
  split; [done|]. split; [done|]. split; [done|]. split; [done|].
  destruct autoCleanup.
  - exists nv. split; [|done]. unfold Store.getFileVersions. by rewrite Hrows.
  - revert Hrun. unfold annotate. rewrite bool_decide_eq_true_2 by done. cbn [negb].
    rewrite Hversions.
    destruct (createVersion_latest now (FileRecord.id file)
                (marker commitMessage +:+ VersionRecord.content latest) None db Hfile)
      as (row & Hok & Hc & Hlatest & _).
    destruct (Store.createVersion _ _ _ _ _) as [r db1]. cbn [fst snd] in *. subst r.
    intros [= <-]. exists row. by rewrite Hlatest, Hversions.
Qed.

(** The loop over all files: it does not throw on a well-formed store,
    counts the processed Files, and gives each of them its annotated
    Version as newest Version. *)
Lemma commit_loop_latest changedFiles commitMessage autoCleanup now allFiles :
  ∀ processedCount db,
  NoDup (map FileRecord.id allFiles) →
  well_formed db →
  (∀ f, f ∈ allFiles → FileRecord.id f ∈ map FileRecord.id (files db)) →
  ∃ db',
    commit_loop changedFiles commitMessage autoCleanup now allFiles processedCount db
    = (Ok (processedCount + length (List.filter (is_processed changedFiles db) allFiles)),
       db') ∧
    well_formed db' ∧
    (∀ fileId, fileId ∉ map FileRecord.id allFiles →
       Store.rows_of fileId (versions db') = Store.rows_of fileId (versions db)) ∧
    (∀ f, f ∈ allFiles →
       match Store.getFileVersions db (FileRecord.id f) None with
       | latest :: rest =>
           if bool_decide (normalize (FileRecord.file_path f) ∈ changedFiles) then
             ∃ nv,
               Store.getFileVersions db' (FileRecord.id f) None
               = nv :: (if autoCleanup then [] else latest :: rest) ∧
               VersionRecord.content nv
               = marker commitMessage +:+ VersionRecord.content latest
           else Store.getFileVersions db' (FileRecord.id f) None = latest :: rest
       | [] => Store.getFileVersions db' (FileRecord.id f) None = []
       end).
Proof.
  induction allFiles as [|file rest IH]; intros n db Hnd Hwf Hfiles.
  { exists db. cbn. rewrite Nat.add_0_r. split; [done|]. split; [done|].
    split; [done|]. by intros f ?%elem_of_nil. }
  apply NoDup_cons in Hnd as [Hfresh Hnd].
  destruct (annotate_latest changedFiles commitMessage autoCleanup now file db Hwf)
    as (db1 & Hrun & Hwf1 & Hids1 & Hframe1 & Hfile1); [apply Hfiles; by left|].
  destruct (IH (if is_processed changedFiles db file then S n else n) db1 Hnd Hwf1)
    as (db2 & Hloop & Hwf2 & Hframe2 & Hfiles2).
  { intros f Hf. rewrite Hids1. apply Hfiles. by right. }
  assert (Hrest : ∀ f, f ∈ rest → FileRecord.id f ≠ FileRecord.id file).
  { intros f Hf Heq. apply Hfresh. rewrite <- Heq. by apply list_elem_of_fmap_2. }
  exists db2. split; [|split; [done|split]].
  - cbn [commit_loop]. rewrite Hrun, Hloop. f_equal. f_equal.
    cbn [List.filter].
    assert (Hext : List.filter (is_processed changedFiles db1) rest
                   = List.filter (is_processed changedFiles db) rest).
    { apply List.filter_ext_in. intros f Hf%list_elem_of_In.
      apply is_processed_rows, Hframe1. by apply Hrest. }
    rewrite Hext. destruct (is_processed changedFiles db file); cbn [length]; lia.
  - intros fileId [Hne Hnot]%not_elem_of_cons.
    rewrite Hframe2 by done. by apply Hframe1.
  - intros f [->|Hf]%elem_of_cons.
    + assert (Hsame : Store.getFileVersions db2 (FileRecord.id file) None
                      = Store.getFileVersions db1 (FileRecord.id file) None)
        by (apply getFileVersions_rows; by apply Hframe2).
      rewrite Hsame.
      destruct (Store.getFileVersions db (FileRecord.id file) None) as [|latest more]
        eqn:Hversions; [by rewrite Hfile1|].
      case_bool_decide; [done|]. by rewrite Hfile1.
    + assert (Hsame : Store.getFileVersions db1 (FileRecord.id f) None
                      = Store.getFileVersions db (FileRecord.id f) None)
        by (apply getFileVersions_rows, Hframe1; by apply Hrest).
      specialize (Hfiles2 f Hf). by rewrite Hsame in Hfiles2.
Qed.

End PassLatest.

(** ** The annotation pass, once more *)

Lemma files_same_elem (l l' : list FileRecord.t) f :
  map FileRecord.id l' = map FileRecord.id l →
  map FileRecord.file_path l' = map FileRecord.file_path l →
  f ∈ l →
  ∃ g, g ∈ l' ∧ FileRecord.id g = FileRecord.id f ∧
       FileRecord.file_path g = FileRecord.file_path f.
Proof.
  intros Hid Hpath (i & Hi)%list_elem_of_lookup.
  assert (Hi' : map FileRecord.id l' !! i = Some (FileRecord.id f)).
  { rewrite Hid. change (map FileRecord.id l) with (FileRecord.id <$> l).
    by rewrite list_lookup_fmap, Hi. }
  change (map FileRecord.id l') with (FileRecord.id <$> l') in Hi'.
  rewrite list_lookup_fmap in Hi'.
  destruct (l' !! i) as [g|] eqn:Hg; [|done]. injection Hi' as Hgid.
  exists g. split; [by eapply list_elem_of_lookup_2|]. split; [done|].
  assert (Hp : map FileRecord.file_path l' !! i = Some (FileRecord.file_path f)).
  { rewrite Hpath. change (map FileRecord.file_path l) with (FileRecord.file_path <$> l).
    by rewrite list_lookup_fmap, Hi. }
  change (map FileRecord.file_path l') with (FileRecord.file_path <$> l') in Hp.
  rewrite list_lookup_fmap, Hg in Hp. by injection Hp.
Qed.

Lemma filter_length_existsb {A} (p : A → bool) (l : list A) :
  (0 <? length (List.filter p l)) = existsb p l.
Proof.
  induction l as [|a l IH]; [done|]. cbn [List.filter existsb].
  destruct (p a); [done|]. exact IH.
Qed.

Section PassOutcome.

Context `{Host}.

(** The world after a round that detects a commit with a usable message
    and a staged set that is not empty, on a well-formed store. *)
Lemma onDidChange_pass repository env w commit paths stdout autoCleanup :
  well_formed (fileVersionDB w) →
  isProcessingCommit w = false →
  HEAD_commit repository = Some commit →
  commit ≠ EmptyString →
  lastCommitByRepo w !! rootUri_fsPath repository ≠ Some commit →
  indexChanges repository = Ok paths →
  stagedFiles paths ≠ ∅ →
  git_log env = Ok stdout →
  trim stdout ≠ EmptyString →
  autoCleanupAfterCommit env = Ok autoCleanup →
  ∃ db',
    commit_loop (stagedFiles paths) (trim stdout) autoCleanup (now env)
      (Store.getAllFiles (fileVersionDB w)) 0 (fileVersionDB w)
    = (Ok (length (List.filter (is_processed (stagedFiles paths) (fileVersionDB w))
                     (Store.getAllFiles (fileVersionDB w)))), db') ∧
    onDidChange repository env w
    = mkWorld db'
        (<[rootUri_fsPath repository := commit]> (lastCommitByRepo w))
        (delete (rootUri_fsPath repository) (stagedChangesMap w))
        false
        (if existsb (is_processed (stagedFiles paths) (fileVersionDB w))
              (Store.getAllFiles (fileVersionDB w))
         then S (refreshes w) else refreshes w).
Proof.
  intros Hwf Hguard Hhead Hcommit Hlast Hindex Hstaged Hlog Htrim Hauto.
  destruct (commit_loop_latest (stagedFiles paths) (trim stdout) autoCleanup (now env)
              (Store.getAllFiles (fileVersionDB w)) 0 (fileVersionDB w))
    as (db' & Hloop & _).
  - by destruct Hwf.
  - done.
  - intros f Hf. by apply list_elem_of_fmap_2.
  - rewrite Nat.add_0_l in Hloop. exists db'. split; [exact Hloop|].
    rewrite (onDidChange_detected repository env w commit paths) by done.
    rewrite (getLatestCommitMessage_Ok _ _ Hlog).
    apply truthy_Some in Htrim as Htruthy. rewrite Htruthy. cbn [negb].
    assert (Hsize : (0 <? size (stagedFiles paths)) = true).
    { apply Nat.ltb_lt. destruct (decide (size (stagedFiles paths) = 0)) as [H0|]; [|lia].
      destruct Hstaged. apply leibniz_equiv. by apply size_empty_iff. }
    cbn zeta. rewrite Hsize.
    rewrite (handleGitCommit_Some _ _ _ _ Htruthy).
    rewrite trim_idem, bool_decide_eq_false_2 by done. rewrite Hauto.
    unfold commit_pass. cbn [fileVersionDB]. rewrite Hloop.
    rewrite filter_length_existsb.
    destruct (existsb _ _); cbn; by rewrite delete_insert_eq.
Qed.

(** X7: a round that detects a commit sends exactly one refresh signal
    when it has processed at least one File, however many it processed,
    and none when no File is staged with a Version; in the second case the
    store is what it was. *)
Theorem X7_one_refresh_per_pass repository env w commit paths stdout autoCleanup :
  well_formed (fileVersionDB w) →
  isProcessingCommit w = false →
  HEAD_commit repository = Some commit →
  commit ≠ EmptyString →
  lastCommitByRepo w !! rootUri_fsPath repository ≠ Some commit →
  indexChanges repository = Ok paths →
  stagedFiles paths ≠ ∅ →
  git_log env = Ok stdout →
  trim stdout ≠ EmptyString →
  autoCleanupAfterCommit env = Ok autoCleanup →
  ((∃ f, f ∈ Store.getAllFiles (fileVersionDB w) ∧
         is_processed (stagedFiles paths) (fileVersionDB w) f = true) →
   refreshes (onDidChange repository env w) = S (refreshes w)) ∧
  ((∀ f, f ∈ Store.getAllFiles (fileVersionDB w) →
         is_processed (stagedFiles paths) (fileVersionDB w) f = false) →
   refreshes (onDidChange repository env w) = refreshes w ∧
   fileVersionDB (onDidChange repository env w) = fileVersionDB w).
Proof.
  intros Hwf Hguard Hhead Hcommit Hlast Hindex Hstaged Hlog Htrim Hauto.
  destruct (onDidChange_pass repository env w commit paths stdout autoCleanup)
    as (db' & Hloop & ->); try done.
  cbn [refreshes fileVersionDB]. split.
  - intros (f & Hf & Hp).
    assert (Hex : existsb (is_processed (stagedFiles paths) (fileVersionDB w))
                    (Store.getAllFiles (fileVersionDB w)) = true).
    { apply existsb_exists. exists f. split; [by apply list_elem_of_In|done]. }
    by rewrite Hex.
  - intros Hnone.
    assert (Hex : existsb (is_processed (stagedFiles paths) (fileVersionDB w))
                    (Store.getAllFiles (fileVersionDB w)) = false).
    { apply not_true_is_false. intros (f & Hf & Hp)%existsb_exists.
      apply list_elem_of_In in Hf. rewrite (Hnone f Hf) in Hp. done. }
    rewrite Hex. split; [done|].
    assert (Hsame : ∀ allFiles n db,
              (∀ f, f ∈ allFiles → is_processed (stagedFiles paths) db f = false) →
              commit_loop (stagedFiles paths) (trim stdout) autoCleanup (now env)
                allFiles n db = (Ok n, db)).
    { clear. induction allFiles as [|file rest IH]; intros n db Hno; [done|].
      cbn [commit_loop].
      assert (Hfile : annotate (stagedFiles paths) (trim stdout) autoCleanup (now env)
                        file db = (Ok false, db)).
      { specialize (Hno file ltac:(by left)). unfold is_processed in Hno.
        unfold annotate. case_bool_decide; cbn [negb andb] in *; [|done].
        by destruct (Store.getFileVersions db (FileRecord.id file) None). }
      rewrite Hfile. apply IH. intros f Hf. apply Hno. by right. }
    rewrite (Hsame _ 0 _ Hnone) in Hloop. by injection Hloop.
Qed.

(** The newest Versions after a round that detects a commit. *)
Lemma onDidChange_latest repository env w commit paths stdout autoCleanup f latest rest :
  well_formed (fileVersionDB w) →
  isProcessingCommit w = false →
  HEAD_commit repository = Some commit →
  commit ≠ EmptyString →
  lastCommitByRepo w !! rootUri_fsPath repository ≠ Some commit →
  indexChanges repository = Ok paths →
  stagedFiles paths ≠ ∅ →
  git_log env = Ok stdout →
  trim stdout ≠ EmptyString →
  autoCleanupAfterCommit env = Ok autoCleanup →
  f ∈ Store.getAllFiles (fileVersionDB w) →
  normalize (FileRecord.file_path f) ∈ stagedFiles paths →
  Store.getFileVersions (fileVersionDB w) (FileRecord.id f) None = latest :: rest →
  ∃ nv,
    Store.getFileVersions (fileVersionDB (onDidChange repository env w))
      (FileRecord.id f) None
    = nv :: (if autoCleanup then [] else latest :: rest) ∧
    VersionRecord.content nv = marker (trim stdout) +:+ VersionRecord.content latest.
Proof.
  intros Hwf Hguard Hhead Hcommit Hlast Hindex Hstaged Hlog Htrim Hauto Hf Hin Hversions.
  rewrite (onDidChange_commit repository env w commit paths stdout autoCleanup) by done.
  destruct (commit_loop_latest (stagedFiles paths) (trim stdout) autoCleanup (now env)
              (Store.getAllFiles (fileVersionDB w)) 0 (fileVersionDB w))
    as (db' & -> & _ & _ & Hfiles).
  - by destruct Hwf.
  - done.
  - intros g Hg. by apply list_elem_of_fmap_2.
  - specialize (Hfiles f Hf). rewrite Hversions in Hfiles.
    by rewrite bool_decide_eq_true_2 in Hfiles.
Qed.

(** X8: after a round that detects a commit, the annotated Version of a
    processed File is its newest Version: [getFileVersions] returns it
    first; with auto-cleanup off it is followed by all the Versions the
    File had, in the order they had, and with auto-cleanup on by
    nothing. *)
Theorem X8_annotated_version_is_newest
    repository env w commit paths stdout autoCleanup f latest rest :
  well_formed (fileVersionDB w) →
  isProcessingCommit w = false →
  HEAD_commit repository = Some commit →
  commit ≠ EmptyString →
  lastCommitByRepo w !! rootUri_fsPath repository ≠ Some commit →
  indexChanges repository = Ok paths →
  stagedFiles paths ≠ ∅ →
  git_log env = Ok stdout →
  trim stdout ≠ EmptyString →
  autoCleanupAfterCommit env = Ok autoCleanup →
  f ∈ Store.getAllFiles (fileVersionDB w) →
  normalize (FileRecord.file_path f) ∈ stagedFiles paths →
  Store.getFileVersions (fileVersionDB w) (FileRecord.id f) None = latest :: rest →
  ∃ nv,
    Store.getFileVersions (fileVersionDB (onDidChange repository env w))
      (FileRecord.id f) None
    = nv :: (if autoCleanup then [] else latest :: rest) ∧
    VersionRecord.content nv
    = "/* Git commit: " +:+ trim stdout +:+ " */" +:+ NL +:+ VersionRecord.content latest.
Proof.
  intros Hwf Hguard Hhead Hcommit Hlast Hindex Hstaged Hlog Htrim Hauto Hf Hin Hversions.
  destruct (onDidChange_latest repository env w commit paths stdout autoCleanup
              f latest rest) as (nv & Hnewest & Hcontent); try done.
  exists nv. split; [done|]. by rewrite Hcontent, marker_app.
Qed.

(** X9: the markers of successive commits pile up: when a File is staged
    in two commits that the watcher detects one after the other, its
    newest Version after the second round holds the marker of the second
    commit, then the marker of the first, then the content its newest
    Version had before the first round. *)
Theorem X9_markers_accumulate
    repository1 env1 repository2 env2 w commit1 commit2 paths1 paths2
    stdout1 stdout2 autoCleanup1 autoCleanup2 f latest rest :
  well_formed (fileVersionDB w) →
  isProcessingCommit w = false →
  HEAD_commit repository1 = Some commit1 →
  commit1 ≠ EmptyString →
  lastCommitByRepo w !! rootUri_fsPath repository1 ≠ Some commit1 →
  indexChanges repository1 = Ok paths1 →
  git_log env1 = Ok stdout1 →
  trim stdout1 ≠ EmptyString →
  autoCleanupAfterCommit env1 = Ok autoCleanup1 →
  rootUri_fsPath repository2 = rootUri_fsPath repository1 →
  HEAD_commit repository2 = Some commit2 →
  commit2 ≠ EmptyString →
  commit2 ≠ commit1 →
  indexChanges repository2 = Ok paths2 →
  git_log env2 = Ok stdout2 →
  trim stdout2 ≠ EmptyString →
  autoCleanupAfterCommit env2 = Ok autoCleanup2 →
  f ∈ Store.getAllFiles (fileVersionDB w) →
  normalize (FileRecord.file_path f) ∈ stagedFiles paths1 →
  normalize (FileRecord.file_path f) ∈ stagedFiles paths2 →
  Store.getFileVersions (fileVersionDB w) (FileRecord.id f) None = latest :: rest →
  ∃ nv older,
    Store.getFileVersions
      (fileVersionDB (onDidChange repository2 env2 (onDidChange repository1 env1 w)))
      (FileRecord.id f) None
    = nv :: older ∧
    VersionRecord.content nv
    = "/* Git commit: " +:+ trim stdout2 +:+ " */" +:+ NL
      +:+ "/* Git commit: " +:+ trim stdout1 +:+ " */" +:+ NL
      +:+ VersionRecord.content latest.
Proof.
  intros Hwf Hguard Hhead1 Hc1 Hlast1 Hindex1 Hlog1 Htrim1 Hauto1
    Hrepo Hhead2 Hc2 Hne Hindex2 Hlog2 Htrim2 Hauto2 Hf Hin1 Hin2 Hversions.
  assert (Hstaged1 : stagedFiles paths1 ≠ ∅) by (intros He; by rewrite He in Hin1).
  assert (Hstaged2 : stagedFiles paths2 ≠ ∅) by (intros He; by rewrite He in Hin2).
  destruct (onDidChange_latest repository1 env1 w commit1 paths1 stdout1 autoCleanup1
              f latest rest) as (nv1 & Hversions1 & Hcontent1); try done.
  set (w1 := onDidChange repository1 env1 w) in *.
  assert (Hwf1 : well_formed (fileVersionDB w1)) by by apply onDidChange_well_formed.
  assert (Hguard1 : isProcessingCommit w1 = false) by by apply onDidChange_guard.
  assert (Hlast2 : lastCommitByRepo w1 !! rootUri_fsPath repository2 ≠ Some commit2).
  { rewrite Hrepo. unfold w1.
    rewrite (onDidChange_detected repository1 env1 w commit1 paths1) by done.
    cbn zeta. intros Hl. apply Hne.
    destruct (negb _).
    - cbn in Hl. rewrite lookup_insert_eq in Hl. by injection Hl.
    - destruct (0 <? _).
      + cbn [lastCommitByRepo with_guard with_staged] in Hl.
        match type of Hl with
        | context [handleGitCommit ?cf ?cm env1 ?w3] =>
            destruct (handleGitCommit_frame cf cm env1 w3) as (_ & Hl' & _)
        end.
        rewrite Hl' in Hl. cbn in Hl. rewrite lookup_insert_eq in Hl. by injection Hl.
      + cbn in Hl. rewrite lookup_insert_eq in Hl. by injection Hl. }
  destruct (files_same_elem (files (fileVersionDB w)) (files (fileVersionDB w1)) f)
    as (g & Hg & Hgid & Hgpath); [| |done|].
  { destruct (onDidChange_store repository1 env1 w)
      as [Hs|(cf & m & ac & _ & Hs)]; fold w1 in Hs; rewrite Hs; [done|].
    apply commit_loop_frame. }
  { destruct (onDidChange_store repository1 env1 w)
      as [Hs|(cf & m & ac & _ & Hs)]; fold w1 in Hs; rewrite Hs; [done|].
    apply commit_loop_frame. }
  destruct (onDidChange_latest repository2 env2 w1 commit2 paths2 stdout2 autoCleanup2
              g nv1 (if autoCleanup1 then [] else latest :: rest))
    as (nv2 & Hversions2 & Hcontent2); try done.
  - by rewrite Hgpath.
  - by rewrite Hgid.
  - rewrite Hgid in Hversions2. eexists _, _. split; [exact Hversions2|].
    by rewrite Hcontent2, Hcontent1, !marker_app.
Qed.

End PassOutcome.

(** ** The save handler, once more *)

Lemma getFile_createVersion now fileId content label db path f :
  Store.getFile db path = Some f →
  ∃ g, Store.getFile (snd (Store.createVersion now fileId content label db)) path = Some g ∧
       FileRecord.id g = FileRecord.id f.
Proof.
  unfold Store.createVersion. destruct (Store.getFileById db fileId); cbn [snd]; [|eauto].
  unfold Store.getFile. cbn [files]. induction (files db) as [|h fs IH]; [done|].
  cbn [map List.find].
  destruct (bool_decide (FileRecord.id h = fileId)); cbn [Store.set_current FileRecord.file_path];
    case_bool_decide; try done; intros [= <-]; eauto.
Qed.

Lemma getFile_createFile path db :
  Store.getFile db path = None →
  Store.getFile (snd (Store.createFile path db)) path
  = Some (FileRecord.mk (S (files_seq db)) path None).
Proof.
  intros Hnone. rewrite createFile_spec by done. cbn [snd].
  revert Hnone. unfold Store.getFile. cbn [files].
  induction (files db) as [|h fs IH]; cbn [app List.find].
  - intros _. by rewrite bool_decide_eq_true_2.
  - by case_bool_decide.
Qed.

Section SaveHandlerMore.

Context `{Host}.

(** The File the handler works on, and the store once the File is there. *)
Lemma save_file_lookup path db :
  ∃ file db1,
    match Store.getFile db path with
    | Some file => (Ok file, db)
    | None => Store.createFile path db
    end = (Ok file, db1) ∧
    Store.getFile db1 path = Some file ∧
    FileRecord.id file ∈ map FileRecord.id (files db1) ∧
    versions db1 = versions db ∧
    (∀ f, Store.getFile db path = Some f → file = f ∧ db1 = db) ∧
    (Store.getFile db path = None →
     db1 = snd (Store.createFile path db) ∧
     file = FileRecord.mk (S (files_seq db)) path None).
Proof.
  destruct (Store.getFile db path) as [f|] eqn:Hget.
  - exists f, db. split; [done|]. split; [done|].
    apply getFile_Some in Hget as [Hin _].
    split; [by apply list_elem_of_fmap_2|]. split; [done|]. split; [|done].
    by intros ? [= <-].
  - pose proof (getFile_createFile path db Hget) as Hfound.
    rewrite createFile_spec in Hfound |- * by done. cbn [snd] in Hfound.
    eexists _, _. split; [done|]. split; [exact Hfound|].
    cbn [files versions FileRecord.id]. split.
    { rewrite map_app. apply elem_of_app. right. by left. }
    split; [done|]. split; [done|]. by intros _.
Qed.

(** X10: a save whose content is that of the File's newest Version
    changes nothing, whatever the settings say (also with everything to
    be saved, and also when the setting cannot be read): no Version, no
    refresh. *)
Theorem X10_identical_content_is_never_saved e env w f v rest :
  Store.getFile (fileVersionDB w) (relativePath e) = Some f →
  Store.getFileVersions (fileVersionDB w) (FileRecord.id f) None = v :: rest →
  VersionRecord.content v = getText e →
  onWillSaveTextDocument e env w = w.
Proof.
  intros Hfile Hversions Hcontent.
  unfold onWillSaveTextDocument. rewrite Hfile.
  destruct (getSaveAllChanges env) as [saveAllChanges|]; [|by destruct w].
  rewrite getFileVersions_limit, Hversions.
  rewrite bool_decide_eq_true_2 by done. by destruct w.
Qed.

(** X11: with everything to be saved, a save is persisted whenever the
    File has no Version yet (a single line is enough) or its newest
    Version has another content: one Version with the saved content is
    added. *)
Theorem X11_save_all_changes_persists e env w :
  well_formed (fileVersionDB w) →
  getSaveAllChanges env = Ok true →
  (∀ f v rest,
     Store.getFile (fileVersionDB w) (relativePath e) = Some f →
     Store.getFileVersions (fileVersionDB w) (FileRecord.id f) None = v :: rest →
     VersionRecord.content v ≠ getText e) →
  persisted (getText e) w (onWillSaveTextDocument e env w) ∧
  refreshes (onWillSaveTextDocument e env w) = S (refreshes w).
Proof.
  intros Hwf Hsetting Hdiff.
  destruct (save_file_lookup (relativePath e) (fileVersionDB w))
    as (file & db1 & Hlookup & _ & Hid & Hvs & Hsome & Hnone).
  pose proof (onWillSaveTextDocument_decision e env w file db1 true Hlookup Hsetting Hid)
    as Hdecision.
  cbn zeta in Hdecision. cbn [negb andb] in Hdecision.
  assert (Hskip : match Store.getFileVersions db1 (FileRecord.id file) None with
                  | [] => false
                  | v :: _ => bool_decide (VersionRecord.content v = getText e) || false
                  end = false).
  { destruct (Store.getFile (fileVersionDB w) (relativePath e)) as [f|] eqn:Hget.
    - destruct (Hsome f eq_refl) as [-> ->].
      destruct (Store.getFileVersions _ _ _) as [|v rest] eqn:Hversions; [done|].
      rewrite orb_false_r. apply bool_decide_eq_false_2. by eapply Hdiff.
    - destruct (Hnone eq_refl) as [-> ->]. cbn [FileRecord.id].
      by rewrite createFile_no_versions. }
  rewrite Hskip in Hdecision. destruct Hdecision as (row & db2 & -> & Hvs2 & Hc & _).
  split; [|done]. exists row. split; [|done]. cbn. by rewrite Hvs2, Hvs.
Qed.

(** The store after a save is the store with the File, or that store after
    a [createVersion] of the saved content. *)
Lemma onWillSaveTextDocument_store e env w :
  ∃ file db1,
    match Store.getFile (fileVersionDB w) (relativePath e) with
    | Some file => (Ok file, fileVersionDB w)
    | None => Store.createFile (relativePath e) (fileVersionDB w)
    end = (Ok file, db1) ∧
    (onWillSaveTextDocument e env w = with_db db1 w ∨
     onWillSaveTextDocument e env w
     = refresh (with_db (snd (Store.createVersion (save_now env) (FileRecord.id file)
                                (getText e) None db1)) w) ∧
     ∃ row, fst (Store.createVersion (save_now env) (FileRecord.id file)
                   (getText e) None db1) = Ok row).
Proof.
  destruct (save_file_lookup (relativePath e) (fileVersionDB w))
    as (file & db1 & Hlookup & _ & Hid & _).
  exists file, db1. split; [done|]. unfold onWillSaveTextDocument. rewrite Hlookup.
  destruct (getSaveAllChanges env) as [saveAllChanges|]; [|by left].
  destruct (match Store.getFileVersions db1 _ _ with [] => false | _ => _ end); [by left|].
  destruct (if negb saveAllChanges then _ else _); [by left|].
  destruct (createVersion_latest (save_now env) (FileRecord.id file) (getText e) None
              db1 Hid) as (row & Hok & _).
  destruct (Store.createVersion _ _ _ _ _) as [r db2]. cbn [fst snd] in *. subst r.
  right. split; [done|]. by exists row.
Qed.

(** X12: a save never removes or alters a Version and never removes or
    renames a File: the Versions that existed are a prefix of the Versions
    after the save, and so are the paths of the Files; at most one Version
    and one File are added. *)
Theorem X12_save_only_appends e env w :
  versions (fileVersionDB w)
  `prefix_of` versions (fileVersionDB (onWillSaveTextDocument e env w)) ∧
  map FileRecord.file_path (files (fileVersionDB w))
  `prefix_of` map FileRecord.file_path
                (files (fileVersionDB (onWillSaveTextDocument e env w))) ∧
  length (versions (fileVersionDB (onWillSaveTextDocument e env w)))
  ≤ S (length (versions (fileVersionDB w))) ∧
  length (files (fileVersionDB (onWillSaveTextDocument e env w)))
  ≤ S (length (files (fileVersionDB w))).
Proof.
  destruct (onWillSaveTextDocument_store e env w) as (file & db1 & Hlookup & Hstore).
  assert (Hdb1 : versions db1 = versions (fileVersionDB w) ∧
                 map FileRecord.file_path (files (fileVersionDB w))
                 `prefix_of` map FileRecord.file_path (files db1) ∧
                 length (files db1) ≤ S (length (files (fileVersionDB w)))).
  { destruct (Store.getFile (fileVersionDB w) (relativePath e)) as [f|] eqn:Hget.
    - injection Hlookup as _ <-. split; [done|]. split; [done|lia].
    - rewrite createFile_spec in Hlookup by done. injection Hlookup as _ <-.
      cbn [files versions]. split; [done|]. rewrite map_app, length_app. cbn [length].
      split; [by apply prefix_app_r|lia]. }
  destruct Hdb1 as (Hvs1 & Hpaths1 & Hlen1).
  destruct Hstore as [->|[-> [row Hrow]]]; cbn [fileVersionDB with_db refresh].
  - rewrite Hvs1. split; [done|]. split; [done|]. split; [lia|done].
  - pose proof (createVersion_frame (save_now env) (FileRecord.id file) (getText e)
                  None db1) as (Hid & Hpath & Hprefix).
    split; [by rewrite <- Hvs1|]. split; [by rewrite Hpath|].
    split.
    + revert Hrow. unfold Store.createVersion.
      destruct (Store.getFileById db1 (FileRecord.id file)); [|done].
      cbn [snd versions]. rewrite length_app, Hvs1. cbn [length]. lia.
    + assert (Hlen : length (files (snd (Store.createVersion (save_now env)
                                           (FileRecord.id file) (getText e) None db1)))
                     = length (files db1)).
      { rewrite <- (length_map FileRecord.id), Hid. apply length_map. }
      lia.
Qed.

(** X13: when the setting cannot be read, the handler creates no Version
    and sends no refresh; but a File row created for a path that had none
    stays. *)
Theorem X13_unreadable_setting_saves_nothing e env w err :
  getSaveAllChanges env = Err err →
  skipped w (onWillSaveTextDocument e env w) ∧
  refreshes (onWillSaveTextDocument e env w) = refreshes w ∧
  (Store.getFile (fileVersionDB w) (relativePath e) = None →
   Store.getFile (fileVersionDB (onWillSaveTextDocument e env w)) (relativePath e)
   = Some (FileRecord.mk (S (files_seq (fileVersionDB w))) (relativePath e) None)).
Proof.
  intros Hsetting.
  destruct (save_file_lookup (relativePath e) (fileVersionDB w))
    as (file & db1 & Hlookup & Hfound & _ & Hvs & _ & Hnone).
  unfold onWillSaveTextDocument, skipped. rewrite Hlookup, Hsetting.
  cbn [fileVersionDB with_db refreshes]. split; [done|]. split; [done|].
  intros Hget. destruct (Hnone Hget) as [_ <-]. exact Hfound.
Qed.

(** X14: the same content is not saved twice in a row: when a save has
    been persisted, a second save of the same path and content changes
    nothing, whatever the settings are by then. *)
Theorem X14_second_identical_save_is_skipped e env1 env2 w :
  persisted (getText e) w (onWillSaveTextDocument e env1 w) →
  onWillSaveTextDocument e env2 (onWillSaveTextDocument e env1 w)
  = onWillSaveTextDocument e env1 w.
Proof.
  intros (v & Hv & _).
  destruct (save_file_lookup (relativePath e) (fileVersionDB w))
    as (file & db1 & Hlookup1 & Hfound & Hid & Hvs & _).
  destruct (onWillSaveTextDocument_store e env1 w)
    as (file' & db1' & Hlookup & Hstore).
  rewrite Hlookup1 in Hlookup. injection Hlookup as <- <-.
  destruct Hstore as [Hsame|[Hsaved _]].
  { rewrite Hsame in Hv. cbn in Hv. rewrite Hvs in Hv.
    apply (f_equal length) in Hv. rewrite length_app in Hv. cbn in Hv. lia. }
  destruct (createVersion_latest (save_now env1) (FileRecord.id file) (getText e) None
              db1 Hid) as (row & _ & Hc & Hlatest & _).
  destruct (getFile_createVersion (save_now env1) (FileRecord.id file) (getText e) None
              db1 (relativePath e) file Hfound) as (g & Hg & Hgid).
  rewrite Hsaved.
  unfold onWillSaveTextDocument at 1. cbn [fileVersionDB refresh with_db].
  rewrite Hg. destruct (getSaveAllChanges env2) as [saveAllChanges|]; [|done].
  rewrite getFileVersions_limit, Hgid, Hlatest.
  by rewrite bool_decide_eq_true_2.
Qed.

End SaveHandlerMore.

(** ** The manual save and the cleaning commands *)

Section CommandsFacts.

Context `{Host}.

(** X15: the manual save does nothing for a document that is not dirty,
    and for a dirty document it always adds one Version holding the text,
    with no filter: also when the text is a single line, and also when the
    newest Version already holds the same text. *)
Theorem X15_manual_save_bypasses_the_filter document now w :
  if isDirty document
  then persisted (document_getText document) w
         (saveCurrentVersion (Some document) now w) ∧
       refreshes (saveCurrentVersion (Some document) now w) = S (refreshes w)
  else saveCurrentVersion (Some document) now w = w.
Proof.
  unfold saveCurrentVersion. destruct (isDirty document); cbn [negb]; [|done].
  destruct (save_file_lookup (document_relativePath document) (fileVersionDB w))
    as (file & db1 & -> & _ & Hid & Hvs & _).
  destruct (createVersion_spec now (FileRecord.id file) (document_getText document)
              None db1 Hid) as (db2 & -> & Hvs2 & _).
  split; [|done]. eexists. split; [cbn; by rewrite Hvs2, Hvs|done].
Qed.

Lemma for_each_file_frame (body : FileRecord.t → FileVersionDB → Result unit * FileVersionDB)
    allFiles :
  (∀ f db,
     map FileRecord.id (files (snd (body f db))) = map FileRecord.id (files db) ∧
     map FileRecord.file_path (files (snd (body f db)))
     = map FileRecord.file_path (files db)) →
  ∀ db,
    map FileRecord.id (files (snd (for_each_file body allFiles db)))
    = map FileRecord.id (files db) ∧
    map FileRecord.file_path (files (snd (for_each_file body allFiles db)))
    = map FileRecord.file_path (files db).
Proof.
  intros Hbody. induction allFiles as [|file rest IH]; intros db; cbn [for_each_file];
    [done|].
  destruct (Hbody file db) as [Hid Hpath].
  destruct (body file db) as [[[]|e] db1]; cbn [snd] in *; [|done].
  destruct (IH db1) as [Hid' Hpath']. split; congruence.
Qed.

(** A loop whose body, on a well-formed store, does not throw, touches the
    Versions of its File only, and leaves [g versions] of them. *)
Lemma for_each_file_spec
    (body : FileRecord.t → FileVersionDB → Result unit * FileVersionDB)
    (g : list VersionRecord.t → list VersionRecord.t) allFiles :
  (∀ f db, well_formed db →
     ∃ db', body f db = (Ok tt, db') ∧ well_formed db' ∧
       (∀ fileId, fileId ≠ FileRecord.id f →
          Store.rows_of fileId (versions db') = Store.rows_of fileId (versions db)) ∧
       Store.getFileVersions db' (FileRecord.id f) None
       = g (Store.getFileVersions db (FileRecord.id f) None)) →
  ∀ db,
    NoDup (map FileRecord.id allFiles) →
    well_formed db →
    ∃ db', for_each_file body allFiles db = (Ok tt, db') ∧ well_formed db' ∧
      (∀ fileId, fileId ∉ map FileRecord.id allFiles →
         Store.rows_of fileId (versions db') = Store.rows_of fileId (versions db)) ∧
      (∀ f, f ∈ allFiles →
         Store.getFileVersions db' (FileRecord.id f) None
         = g (Store.getFileVersions db (FileRecord.id f) None)).
Proof.
  intros Hbody. induction allFiles as [|file rest IH]; intros db Hnd Hwf.
  { exists db. split; [done|]. split; [done|]. split; [done|]. by intros f ?%elem_of_nil. }
  apply NoDup_cons in Hnd as [Hfresh Hnd].
  destruct (Hbody file db Hwf) as (db1 & Hrun & Hwf1 & Hframe1 & Hown).
  destruct (IH db1 Hnd Hwf1) as (db2 & Hloop & Hwf2 & Hframe2 & Hfiles).
  exists db2. cbn [for_each_file]. rewrite Hrun, Hloop.
  split; [done|]. split; [done|]. split.
  - intros fileId [Hne Hnot]%not_elem_of_cons. rewrite Hframe2 by done. by apply Hframe1.
  - intros f [->|Hf]%elem_of_cons.
    + rewrite <- Hown. apply getFileVersions_rows. by apply Hframe2.
    + rewrite (Hfiles f Hf). f_equal. apply getFileVersions_rows, Hframe1.
      intros Heq. apply Hfresh. rewrite <- Heq. by apply list_elem_of_fmap_2.
Qed.

(** Deleting some of the Versions [getFileVersions] returns for a File
    leaves the other Files alone, and leaves this File the Versions that
    were not deleted. *)
Lemma delete_each_versions fileId db kept gone :
  well_formed db →
  Store.getFileVersions db fileId None = kept ++ gone →
  ∃ db',
    delete_each gone db = (Ok tt, db') ∧ well_formed db' ∧
    (∀ other, other ≠ fileId →
       Store.rows_of other (versions db') = Store.rows_of other (versions db)) ∧
    Store.rows_of fileId (versions db') ≡ₚ kept.
Proof.
  intros Hwf Hversions.
  destruct (getFileVersions_ids db fileId Hwf) as [Hnd Hsub].
  rewrite Hversions, map_app in Hnd, Hsub.
  apply NoDup_app in Hnd as (Hndk & Hdisj & Hndg).
  destruct (delete_each_spec gone db Hndg) as (db' & Hrun & Hvs & _ & _ & _ & Hwf').
  { intros i Hi. apply Hsub, elem_of_app. by right. }
  exists db'. split; [done|]. split; [by apply Hwf'|].
  pose proof (getFileVersions_perm db fileId) as Hperm. rewrite Hversions in Hperm.
  assert (Hcomm : ∀ other,
            Store.rows_of other (versions db')
            = filter (fun r => VersionRecord.id r ∉ map VersionRecord.id gone)
                (Store.rows_of other (versions db))).
  { intros other. rewrite Hvs. unfold Store.rows_of. rewrite !list_filter_filter.
    apply list_filter_iff. tauto. }
  split.
  - intros other Hother. rewrite Hcomm. apply filter_all. intros r Hr Hin.
    apply list_elem_of_filter in Hr as [Hfid Hr].
    apply list_elem_of_fmap in Hin as (r' & Hid & Hr').
    assert (Hr'' : r' ∈ Store.rows_of fileId (versions db)).
    { rewrite <- Hperm. apply elem_of_app. by right. }
    apply list_elem_of_filter in Hr'' as [Hfid' Hr''].
    destruct Hwf as (_ & _ & Hndv & _ & _).
    pose proof (NoDup_map_eq _ _ r r' Hndv Hr Hr'' Hid). congruence.
  - rewrite Hcomm, <- Hperm, filter_app.
    rewrite (filter_all _ kept), (filter_none _ gone), app_nil_r; [done| |].
    + intros r Hr Hnot. apply Hnot. by apply list_elem_of_fmap_2.
    + intros r Hr Hin. eapply Hdisj; [|exact Hin]. by apply list_elem_of_fmap_2.
Qed.

Lemma quickClean_file_spec file db :
  well_formed db →
  ∃ db', quickClean_file file db = (Ok tt, db') ∧ well_formed db' ∧
    (∀ fileId, fileId ≠ FileRecord.id file →
       Store.rows_of fileId (versions db') = Store.rows_of fileId (versions db)) ∧
    Store.getFileVersions db' (FileRecord.id file) None
    = take 1 (Store.getFileVersions db (FileRecord.id file) None).
Proof.
  intros Hwf. unfold quickClean_file.
  destruct (1 <? length (Store.getFileVersions db (FileRecord.id file) None)) eqn:Hlen.
  - destruct (Store.getFileVersions db (FileRecord.id file) None) as [|v tail]
      eqn:Hversions; [done|].
    destruct (delete_each_versions (FileRecord.id file) db [v] tail Hwf Hversions)
      as (db' & Hrun & Hwf' & Hframe & Hown).
    exists db'. cbn [drop]. split; [done|]. split; [done|]. split; [done|].
    apply Permutation_singleton_r in Hown.
    unfold Store.getFileVersions. by rewrite Hown.
  - exists db. split; [done|]. split; [done|]. split; [done|].
    apply Nat.ltb_ge in Hlen. by rewrite take_ge.
Qed.

Lemma clearAll_file_spec file db :
  well_formed db →
  ∃ db', clearAll_file file db = (Ok tt, db') ∧ well_formed db' ∧
    (∀ fileId, fileId ≠ FileRecord.id file →
       Store.rows_of fileId (versions db') = Store.rows_of fileId (versions db)) ∧
    Store.getFileVersions db' (FileRecord.id file) None
    = (fun _ => []) (Store.getFileVersions db (FileRecord.id file) None).
Proof.
  intros Hwf. unfold clearAll_file.
  destruct (delete_each_versions (FileRecord.id file) db []
              (Store.getFileVersions db (FileRecord.id file) None) Hwf eq_refl)
    as (db' & Hrun & Hwf' & Hframe & Hown).
  exists db'. split; [done|]. split; [done|]. split; [done|].
  apply Permutation_nil_r in Hown. unfold Store.getFileVersions. by rewrite Hown.
Qed.

(** X16: the command quickClean, once confirmed, keeps for every File
    exactly its newest Version and deletes the others; a File with at most
    one Version keeps what it has; the Files themselves stay, and one
    refresh is sent.  Without the confirmation nothing changes. *)
Theorem X16_quickClean_keeps_newest_version result w :
  well_formed (fileVersionDB w) →
  (result ≠ Some "Yes" → quickClean result w = w) ∧
  (result = Some "Yes" →
   (∀ f, f ∈ Store.getAllFiles (fileVersionDB w) →
      Store.getFileVersions (fileVersionDB (quickClean result w)) (FileRecord.id f) None
      = take 1 (Store.getFileVersions (fileVersionDB w) (FileRecord.id f) None)) ∧
   map FileRecord.file_path (files (fileVersionDB (quickClean result w)))
   = map FileRecord.file_path (files (fileVersionDB w)) ∧
   refreshes (quickClean result w) = S (refreshes w)).
Proof.
  intros Hwf. unfold quickClean. split.
  - intros Hno. by rewrite bool_decide_eq_false_2.
  - intros ->. rewrite bool_decide_eq_true_2 by done.
    destruct (for_each_file_spec quickClean_file (take 1)
                (Store.getAllFiles (fileVersionDB w)) quickClean_file_spec
                (fileVersionDB w)) as (db' & Hloop & _ & _ & Hfiles);
      [by destruct Hwf|done|].
    destruct (for_each_file_frame quickClean_file (Store.getAllFiles (fileVersionDB w)))
      with (db := fileVersionDB w) as [_ Hpath].
    { intros f db. unfold quickClean_file. destruct (1 <? _); [|done].
      apply delete_each_frame. }
    rewrite Hloop in Hpath |- *. cbn [snd fileVersionDB with_db refresh refreshes] in *.
    done.
Qed.

(** X17: quickClean twice is quickClean once: after a confirmed
    quickClean, a second one deletes nothing. *)
Theorem X17_quickClean_is_idempotent result w :
  well_formed (fileVersionDB w) →
  fileVersionDB (quickClean result (quickClean (Some "Yes") w))
  = fileVersionDB (quickClean (Some "Yes") w).
Proof.
  intros Hwf. unfold quickClean at 1. case_bool_decide; [|done].
  assert (Hnoop : ∀ allFiles db,
            (∀ f, f ∈ allFiles →
               length (Store.getFileVersions db (FileRecord.id f) None) ≤ 1) →
            for_each_file quickClean_file allFiles db = (Ok tt, db)).
  { induction allFiles as [|file rest IH]; intros db Hshort; [done|].
    cbn [for_each_file]. unfold quickClean_file at 1.
    assert (Hfile : (1 <? length (Store.getFileVersions db (FileRecord.id file) None))
                    = false).
    { apply Nat.ltb_ge, Hshort. by left. }
    rewrite Hfile. apply IH. intros f Hf. apply Hshort. by right. }
  rewrite Hnoop; [done|].
  intros g Hg.
  unfold quickClean in Hg |- *. rewrite bool_decide_eq_true_2 in Hg |- * by done.
  destruct (for_each_file_spec quickClean_file (take 1)
              (Store.getAllFiles (fileVersionDB w)) quickClean_file_spec
              (fileVersionDB w)) as (db' & Hloop & _ & _ & Hfiles);
    [by destruct Hwf|done|].
  destruct (for_each_file_frame quickClean_file (Store.getAllFiles (fileVersionDB w)))
    with (db := fileVersionDB w) as [Hid _].
  { intros f db. unfold quickClean_file. destruct (1 <? _); [|done].
    apply delete_each_frame. }
  rewrite Hloop in Hid, Hg |- *. cbn [snd fileVersionDB with_db refresh] in *.
  unfold Store.getAllFiles in Hg at 1.
  assert (Hg' : FileRecord.id g ∈ map FileRecord.id (files db'))
    by by apply list_elem_of_fmap_2.
  rewrite Hid in Hg'. apply list_elem_of_fmap in Hg' as (f & -> & Hf).
  rewrite (Hfiles f Hf), length_take. lia.
Qed.

(** X18: the command clearAll, once confirmed, leaves no Version at all
    and keeps every File; one refresh is sent.  Without the confirmation
    nothing changes. *)
Theorem X18_clearAll_deletes_versions_keeps_files result w :
  well_formed (fileVersionDB w) →
  (result ≠ Some "Yes" → clearAll result w = w) ∧
  (result = Some "Yes" →
   versions (fileVersionDB (clearAll result w)) = [] ∧
   map FileRecord.id (files (fileVersionDB (clearAll result w)))
   = map FileRecord.id (files (fileVersionDB w)) ∧
   map FileRecord.file_path (files (fileVersionDB (clearAll result w)))
   = map FileRecord.file_path (files (fileVersionDB w)) ∧
   refreshes (clearAll result w) = S (refreshes w)).
Proof.
  intros Hwf. unfold clearAll. split.
  - intros Hno. by rewrite bool_decide_eq_false_2.
  - intros ->. rewrite bool_decide_eq_true_2 by done.
    destruct (for_each_file_spec clearAll_file (fun _ => [])
                (Store.getAllFiles (fileVersionDB w)) clearAll_file_spec
                (fileVersionDB w)) as (db' & Hloop & Hwf' & _ & Hfiles);
      [by destruct Hwf|done|].
    destruct (for_each_file_frame clearAll_file (Store.getAllFiles (fileVersionDB w)))
      with (db := fileVersionDB w) as [Hid Hpath].
    { intros f db. apply delete_each_frame. }
    rewrite Hloop in Hid, Hpath |- *.
    cbn [snd fileVersionDB with_db refresh refreshes] in *.
    split; [|done].
    destruct (versions db') as [|r rs] eqn:Hrows; [done|]. exfalso.
    destruct Hwf' as (_ & _ & _ & _ & Hfk). rewrite Hrows in Hfk.
    apply Forall_cons in Hfk as [Hr _]. rewrite Hid in Hr.
    apply list_elem_of_fmap in Hr as (f & Hfid & Hf).
    specialize (Hfiles f Hf). cbn beta in Hfiles.
    assert (Hin : r ∈ Store.getFileVersions db' (FileRecord.id f) None).
    { rewrite (getFileVersions_perm db' (FileRecord.id f)).
      apply list_elem_of_filter. split; [done|]. rewrite Hrows. by left. }
    rewrite Hfiles in Hin. by apply elem_of_nil in Hin.
Qed.

End CommandsFacts.

(** ** Turns of the watcher and saves *)

Section Turns.

Context `{Host}.

(** X19: however notifications, answers to the awaited calls and saves
    follow one another, a watcher never has two rounds in flight. *)
Theorem X19_at_most_one_round_in_flight w evs :
  length (inflight (run (idle w) evs)) ≤ 1.
Proof.
  assert (Hheld : guard_held (run (idle w) evs)) by by apply run_guard_held.
  unfold guard_held in Hheld.
  destruct (inflight (run (idle w) evs)) as [|p [|q ps]]; cbn [length]; [lia|lia|done].
Qed.

(** The save handler reads the store only, and writes the store and the
    refresh count only. *)
Lemma onWillSaveTextDocument_store_only e env w lastCommit staged guard :
  onWillSaveTextDocument e env
    (mkWorld (fileVersionDB w) lastCommit staged guard (refreshes w))
  = mkWorld (fileVersionDB (onWillSaveTextDocument e env w)) lastCommit staged guard
      (refreshes (onWillSaveTextDocument e env w)).
Proof.
  unfold onWillSaveTextDocument. cbn [fileVersionDB].
  destruct (match Store.getFile _ _ with Some _ => _ | None => _ end) as [[file|] db1];
    [|done].
  destruct (getSaveAllChanges env) as [saveAllChanges|]; [|done].
  destruct (match Store.getFileVersions db1 _ _ with [] => false | _ => _ end); [done|].
  destruct (if negb saveAllChanges then _ else _); [done|].
  by destruct (Store.createVersion _ _ _ _ _) as [[] ?].
Qed.

(** The first turn of the watcher reads and writes the guard and the two
    maps only. *)
Lemma notify_maps_only repository lastCommit staged guard :
  ∃ lastCommit' staged' guard' p,
    ∀ db n,
      notify repository (mkWorld db lastCommit staged guard n)
      = (mkWorld db lastCommit' staged' guard' n, p).
Proof.
  unfold notify, with_staged, with_guard, with_lastCommit.
  cbn [lastCommitByRepo stagedChangesMap fileVersionDB isProcessingCommit refreshes].
  destruct guard; [by eexists _, _, _, _|].
  destruct (HEAD_commit repository) as [commit|]; [|by eexists _, _, _, _].
  destruct (negb (truthy (Some commit))); [by eexists _, _, _, _|].
  destruct (indexChanges repository) as [paths|]; [|by eexists _, _, _, _].
  case_bool_decide; by eexists _, _, _, _.
Qed.

(** X20: a save and the first turn of a watcher round commute: a save
    that arrives while the round awaits the commit message leaves the same
    state as the same save arriving just before the notification, so the
    pass annotates the content that save stored. *)
Theorem X20_save_commutes_with_notification c repository e env evs :
  run c (Notification repository :: Save e env :: evs)
  = run c (Save e env :: Notification repository :: evs).
Proof.
  unfold run. cbn [foldl]. f_equal.
  destruct c as [[db lastCommit staged guard n] ps]. cbn [step world inflight].
  destruct (notify_maps_only repository lastCommit staged guard)
    as (lastCommit' & staged' & guard' & p & Hnotify).
  rewrite Hnotify. cbn [world inflight].
  pose proof (onWillSaveTextDocument_store_only e env
                (mkWorld db lastCommit staged guard n)) as Hsave.
  cbn [fileVersionDB refreshes] in Hsave.
  rewrite (Hsave lastCommit' staged' guard').
  pose proof (Hsave lastCommit staged guard) as Hsame. rewrite Hsame at 3.
  by rewrite Hnotify.
Qed.

(** X21: called without a message, [handleGitCommit] uses the message
    of git log; that message is already trimmed, so whenever it is not
    empty the blank check lets it through and the pass runs. *)
Theorem X21_git_log_message_is_never_blank changedFiles env w autoCleanup :
  getLatestCommitMessage env ≠ EmptyString →
  autoCleanupAfterCommit env = Ok autoCleanup →
  trim (getLatestCommitMessage env) = getLatestCommitMessage env ∧
  handleGitCommit changedFiles None env w
  = fst (commit_pass changedFiles (getLatestCommitMessage env) autoCleanup (now env) w) ∧
  handleGitCommit changedFiles (Some EmptyString) env w
  = handleGitCommit changedFiles None env w.
Proof.
  intros Hmessage Hsetting.
  assert (Htrim : trim (getLatestCommitMessage env) = getLatestCommitMessage env).
  { unfold getLatestCommitMessage. destruct (git_log env); [apply trim_idem|done]. }
  split; [done|]. split; [|done].
  unfold handleGitCommit. change (truthy None) with false. cbv iota.
  apply truthy_Some in Hmessage as Htruthy. rewrite Htruthy, Htrim. cbn [negb orb].
  by rewrite bool_decide_eq_false_2, Hsetting.
Qed.

End Turns.

(** ** The further properties on the concrete inputs *)

Lemma X7_witness :
  refreshes (onDidChange (H:=exampleHost) exampleRepository (exampleEnv false) exampleWorld)
  = 1.
Proof.
  destruct (X7_one_refresh_per_pass (H:=exampleHost) exampleRepository (exampleEnv false)
              exampleWorld "h2" ["a.txt"; "b.txt"; "d.txt"] ("fix bug" +:+ NL) false)
    as [Hyes _].
  - exact exampleDB_well_formed.
  - reflexivity.
  - reflexivity.
  - discriminate.
  - vm_compute. discriminate.
  - reflexivity.
  - apply (bool_decide_unpack _). vm_compute. exact I.
  - reflexivity.
  - vm_compute. discriminate.
  - reflexivity.
  - apply Hyes. exists (FileRecord.mk 1 "a.txt" (Some 2)).
    split; [by left|]. vm_compute. reflexivity.
Defined.

Lemma X8_witness :
  ∃ nv,
    Store.getFileVersions
      (fileVersionDB (onDidChange (H:=exampleHost) exampleRepository (exampleEnv false)
                        exampleWorld)) 1 None
    = [nv; VersionRecord.mk 2 1 "two" "t1" 2 None; VersionRecord.mk 1 1 "one" "t0" 1 None] ∧
    VersionRecord.content nv = "/* Git commit: fix bug */" +:+ NL +:+ "two".
Proof.
  apply (X8_annotated_version_is_newest (H:=exampleHost) exampleRepository
           (exampleEnv false) exampleWorld "h2" ["a.txt"; "b.txt"; "d.txt"]
           ("fix bug" +:+ NL) false (FileRecord.mk 1 "a.txt" (Some 2))
           (VersionRecord.mk 2 1 "two" "t1" 2 None)
           [VersionRecord.mk 1 1 "one" "t0" 1 None]).
  - exact exampleDB_well_formed.
  - reflexivity.
  - reflexivity.
  - discriminate.
  - vm_compute. discriminate.
  - reflexivity.
  - apply (bool_decide_unpack _). vm_compute. exact I.
  - reflexivity.
  - vm_compute. discriminate.
  - reflexivity.
  - by left.
  - apply (bool_decide_unpack _). vm_compute. exact I.
  - reflexivity.
Defined.

Lemma X9_witness :
  ∃ nv older,
    Store.getFileVersions
      (fileVersionDB
         (onDidChange (H:=exampleHost) (mkRepository (Some "h3") "/repo" (Ok ["a.txt"]))
            (mkEnv (Ok "second") (Ok false) (Ok tt) "t6")
            (onDidChange (H:=exampleHost) exampleRepository (exampleEnv false)
               exampleWorld))) 1 None
    = nv :: older ∧
    VersionRecord.content nv
    = "/* Git commit: second */" +:+ NL +:+ "/* Git commit: fix bug */" +:+ NL +:+ "two".
Proof.
  apply (X9_markers_accumulate (H:=exampleHost)
           exampleRepository (exampleEnv false)
           (mkRepository (Some "h3") "/repo" (Ok ["a.txt"]))
           (mkEnv (Ok "second") (Ok false) (Ok tt) "t6")
           exampleWorld "h2" "h3" ["a.txt"; "b.txt"; "d.txt"] ["a.txt"]
           ("fix bug" +:+ NL) "second" false false
           (FileRecord.mk 1 "a.txt" (Some 2))
           (VersionRecord.mk 2 1 "two" "t1" 2 None)
           [VersionRecord.mk 1 1 "one" "t0" 1 None]).
  - exact exampleDB_well_formed.
  - reflexivity.
  - reflexivity.
  - discriminate.
  - vm_compute. discriminate.
  - reflexivity.
  - reflexivity.
  - vm_compute. discriminate.
  - reflexivity.
  - reflexivity.
  - reflexivity.
  - discriminate.
  - discriminate.
  - reflexivity.
  - reflexivity.
  - vm_compute. discriminate.
  - reflexivity.
  - by left.
  - apply (bool_decide_unpack _). vm_compute. exact I.
  - apply (bool_decide_unpack _). vm_compute. exact I.
  - reflexivity.
Defined.

Lemma X10_witness :
  onWillSaveTextDocument (H:=exampleHost) (mkSaveEvent "a.txt" "two") (exampleSaveEnv true)
    exampleWorld
  = exampleWorld.
Proof.
  apply (X10_identical_content_is_never_saved (H:=exampleHost)
           (mkSaveEvent "a.txt" "two") (exampleSaveEnv true) exampleWorld
           (FileRecord.mk 1 "a.txt" (Some 2))
           (VersionRecord.mk 2 1 "two" "t1" 2 None)
           [VersionRecord.mk 1 1 "one" "t0" 1 None]).
  - reflexivity.
  - reflexivity.
  - reflexivity.
Defined.

Lemma X11_witness :
  persisted "x" exampleWorld
    (onWillSaveTextDocument (H:=exampleHost) (mkSaveEvent "d.txt" "x") (exampleSaveEnv true)
       exampleWorld).
Proof.
  destruct (X11_save_all_changes_persists (H:=exampleHost)
              (mkSaveEvent "d.txt" "x") (exampleSaveEnv true) exampleWorld)
    as [Hpersisted _].
  - exact exampleDB_well_formed.
  - reflexivity.
  - intros f v rest Hf Hv. vm_compute in Hf. injection Hf as <-.
    vm_compute in Hv. discriminate.
  - exact Hpersisted.
Defined.

Lemma X13_witness :
  skipped exampleWorld
    (onWillSaveTextDocument (H:=exampleHost) (mkSaveEvent "a.txt" candidate_increments)
       (mkSaveEnv (Err (HostError "settings")) "t5") exampleWorld).
Proof.
  destruct (X13_unreadable_setting_saves_nothing (H:=exampleHost)
              (mkSaveEvent "a.txt" candidate_increments)
              (mkSaveEnv (Err (HostError "settings")) "t5") exampleWorld
              (HostError "settings")) as [Hskipped _].
  - reflexivity.
  - exact Hskipped.
Defined.

Lemma X14_witness :
  onWillSaveTextDocument (H:=exampleHost) (mkSaveEvent "d.txt" ("x" +:+ NL))
    (exampleSaveEnv true)
    (onWillSaveTextDocument (H:=exampleHost) (mkSaveEvent "d.txt" ("x" +:+ NL))
       (exampleSaveEnv false) exampleWorld)
  = onWillSaveTextDocument (H:=exampleHost) (mkSaveEvent "d.txt" ("x" +:+ NL))
      (exampleSaveEnv false) exampleWorld.
Proof.
  apply (X14_second_identical_save_is_skipped (H:=exampleHost)
           (mkSaveEvent "d.txt" ("x" +:+ NL)) (exampleSaveEnv false) (exampleSaveEnv true)
           exampleWorld).
  exists (VersionRecord.mk 5 4 ("x" +:+ NL) "t5" 1 None). split; reflexivity.
Defined.

Lemma X16_witness :
  Store.getFileVersions
    (fileVersionDB (quickClean (H:=exampleHost) (Some "Yes") exampleWorld)) 1 None
  = [VersionRecord.mk 2 1 "two" "t1" 2 None].
Proof.
  destruct (X16_quickClean_keeps_newest_version (H:=exampleHost) (Some "Yes") exampleWorld
              exampleDB_well_formed) as [_ Hyes].
  destruct (Hyes eq_refl) as [Hfiles _].
  apply (Hfiles (FileRecord.mk 1 "a.txt" (Some 2))). by left.
Defined.

Lemma X17_witness :
  fileVersionDB (quickClean (H:=exampleHost) (Some "Yes")
                   (quickClean (H:=exampleHost) (Some "Yes") exampleWorld))
  = fileVersionDB (quickClean (H:=exampleHost) (Some "Yes") exampleWorld).
Proof.
  apply (X17_quickClean_is_idempotent (H:=exampleHost) (Some "Yes") exampleWorld).
  exact exampleDB_well_formed.
Defined.

Lemma X18_witness :
  versions (fileVersionDB (clearAll (H:=exampleHost) (Some "Yes") exampleWorld)) = [] ∧
  map FileRecord.file_path
    (files (fileVersionDB (clearAll (H:=exampleHost) (Some "Yes") exampleWorld)))
  = ["a.txt"; "b.txt"; "c.txt"; "d.txt"].
Proof.
  destruct (X18_clearAll_deletes_versions_keeps_files (H:=exampleHost) (Some "Yes")
              exampleWorld exampleDB_well_formed) as [_ Hyes].
  destruct (Hyes eq_refl) as (Hversions & _ & Hpaths & _).
  split; [exact Hversions|exact Hpaths].
Defined.

Lemma X21_witness :
  handleGitCommit (H:=exampleHost) {[ "a.txt" ]} None (exampleEnv false) exampleWorld
  = fst (commit_pass (H:=exampleHost) {[ "a.txt" ]} "fix bug" false "t4" exampleWorld).
Proof.
  destruct (X21_git_log_message_is_never_blank (H:=exampleHost) {[ "a.txt" ]}
              (exampleEnv false) exampleWorld false) as (_ & Hpass & _).
  - vm_compute. discriminate.
  - reflexivity.
  - exact Hpass.
Defined.
